(** * door_codes.ino: tri-state code receiver for SC2262 door sensors

    Shallow embedding of [src/arduino/door_codes.ino] and the properties
    of its pulse decoder, resynchroniser, repetition loop and majority
    vote.

    The sketch talks to the outside world through [pulseIn],
    [digitalRead], [delay], [delayMicroseconds] and [Serial].  The two
    input primitives are modelled by oracles (the k-th call returns the
    k-th value of the oracle), the output primitives by events appended
    to a log.  C integers are [Z] with the conversions written out;
    [int] is 16 bits wide on the 8-bit AVR boards and 32 bits wide on the
    32-bit boards, so the width is a parameter of the model. *)

From Stdlib Require Import ZArith Ascii String.
From stdpp Require Import base numbers list strings.

Local Open Scope Z_scope.

(** ** Integer types of the two families of Arduino boards *)

Inductive Board : Type := AVR8 | ARM32.

Definition int_bits (b : Board) : Z :=
  match b with AVR8 => 16 | ARM32 => 32 end.

(** Conversion to [int] (two's complement wrap-around). *)
Definition to_int (b : Board) (z : Z) : Z :=
  (z + 2 ^ (int_bits b - 1)) mod 2 ^ int_bits b - 2 ^ (int_bits b - 1).

(** Conversion to [unsigned long] (32 bits on both families). *)
Definition to_ulong (z : Z) : Z := z mod 2 ^ 32.

(** Conversion to [unsigned char]. *)
Definition to_uchar (z : Z) : Z := z mod 2 ^ 8.

(** Conversion to plain [char]: signed on AVR, unsigned on ARM. *)
Definition to_char (b : Board) (z : Z) : Z :=
  match b with
  | AVR8 => (z + 2 ^ 7) mod 2 ^ 8 - 2 ^ 7
  | ARM32 => z mod 2 ^ 8
  end.

(** ** Globals of the sketch (lines 43-55) *)

Definition short_min : Z := 350.
Definition long_min : Z := 1200.
Definition resend_count : Z := 17.

(** ** The outside world *)

Inductive Event : Type :=
  | Call_readNextCode
  | Call_findNextSpacer
  | Delay_us (n : Z)
  | Delay_ms (n : Z)
  | Print_str (s : string)
  | Print_num (n : Z)
  | Println_str (s : string)
  | Println_num (n : Z).

(** [pulse_at k] is what the k-th call of [pulseIn(pin, HIGH)] measures
    (0 on timeout); [level_at k] is what the k-th call of
    [digitalRead(pin)] samples ([true] is HIGH). *)
Record Env : Type := {
  pulse_at : nat -> Z;
  level_at : nat -> bool
}.

(** Number of pulses and of samples consumed so far, and the events
    produced so far, most recent first. *)
Record State : Type := {
  pcur : nat;
  scur : nat;
  log : list Event
}.

Definition init : State := {| pcur := 0; scur := 0; log := [] |}.

(** *** States reached from a state *)

(** The state after the events [dl] (most recent first). *)
Definition logged (dl : list Event) (st : State) : State :=
  {| pcur := pcur st; scur := scur st; log := dl ++ log st |}.

(** The state after [n] more calls of [pulseIn]. *)
Definition pulsed (n : nat) (st : State) : State :=
  {| pcur := (n + pcur st)%nat; scur := scur st; log := log st |}.

(** The state after [k] iterations of the polling loop of
    [findNextSpacer]: [k] samples taken, [k] waits of 10 microseconds. *)
Definition polled (k : nat) (st : State) : State :=
  {| pcur := pcur st;
     scur := (scur st + k)%nat;
     log := replicate k (Delay_us 10) ++ log st |}.

(** The state on entry of the polling loop. *)
Definition entered (st : State) : State :=
  {| pcur := pcur st; scur := scur st; log := Call_findNextSpacer :: log st |}.

(** The state on entry of [readNextCode]. *)
Definition called (st : State) : State :=
  {| pcur := pcur st; scur := scur st; log := Call_readNextCode :: log st |}.

(** The state [readNextCode] returns 1 in: 24 pulses read, one wait. *)
Definition completed (st : State) : State :=
  {| pcur := (24 + pcur st)%nat;
     scur := scur st;
     log := Delay_us 5000 :: Call_readNextCode :: log st |}.


(** ** Outcomes and the state monad of the sketch

    [Spin]: the polling loop of [findNextSpacer] used up its iteration
    budget without leaving.  [Fault]: an array was accessed outside its
    bounds. *)

Inductive outcome (A : Type) : Type :=
  | Done (a : A)
  | Spin
  | Fault.
Arguments Done {A} a.
Arguments Spin {A}.
Arguments Fault {A}.

Definition M (A : Type) : Type := State -> outcome (A * State).

Definition ret {A} (a : A) : M A := fun st => Done (a, st).

Definition bind {A B} (m : M A) (k : A -> M B) : M B :=
  fun st =>
    match m st with
    | Done (a, st') => k a st'
    | Spin => Spin
    | Fault => Fault
    end.

Notation "x <- m ;; k" := (bind m (fun x => k))
  (at level 100, m at next level, right associativity).
Notation "'let*' p <- m ;; k" := (bind m (fun x => match x with p => k end))
  (at level 100, p pattern, m at next level, right associativity).
Notation "m ;;; k" := (bind m (fun _ => k))
  (at level 100, right associativity).

(** The same for computations that touch no state. *)
Definition obind {A B} (o : outcome A) (k : A -> outcome B) : outcome B :=
  match o with
  | Done a => k a
  | Spin => Spin
  | Fault => Fault
  end.

Notation "x <~ o ;; k" := (obind o (fun x => k))
  (at level 100, o at next level, right associativity).

Definition lift {A} (o : outcome A) : M A :=
  fun st =>
    match o with
    | Done a => Done (a, st)
    | Spin => Spin
    | Fault => Fault
    end.

Definition emit (e : Event) : M unit :=
  fun st => Done (tt, {| pcur := pcur st; scur := scur st; log := e :: log st |}).

(** ** Array accesses, checked against the bounds *)

Definition load {A} (l : list A) (i : nat) : outcome A :=
  match l !! i with
  | Some x => Done x
  | None => Fault
  end.

Definition store {A} (l : list A) (i : nat) (x : A) : outcome (list A) :=
  if decide (i < length l)%nat then Done (<[i:=x]> l) else Fault.

(** ** The pulse tests and the symbol they select (lines 95-145) *)

Definition NUL : ascii := "000"%char.

(** Lines 95 and 113: [d == 0 || d < short_min], with [short_min]
    converted to [unsigned long]. *)
Definition no_pulse (d : Z) : bool := (d =? 0) || (d <? to_ulong short_min).

(** Lines 130 and 132: [d > long_min]. *)
Definition long_pulse (d : Z) : bool := to_ulong long_min <? d.

(** Line 134: [d < long_min]. *)
Definition short_pulse (d : Z) : bool := d <? to_ulong long_min.

Inductive Symbol : Type := ZERO | ONE | F | INVALID.

(** The character [readNextCode] stores for a symbol; 'X' marks the
    invalid long-then-short pair. *)
Definition symbol_char (s : Symbol) : ascii :=
  match s with
  | ZERO => "0"
  | ONE => "1"
  | F => "F"
  | INVALID => "X"
  end%char.

(** What lines 95-145 make of a pair of durations: the symbol stored, or
    [INVALID] when the read is given up. *)
Definition decode (first second : Z) : Symbol :=
  if no_pulse first then INVALID
  else if no_pulse second then INVALID
  else if long_pulse first && long_pulse second then ONE
  else if long_pulse second then F
  else if short_pulse first && short_pulse second then ZERO
  else INVALID.

Inductive PulseLength : Type := SHORT | LONG | NONE.

(** The class the three tests give a duration: [None] when it passes
    none of them. *)
Definition classify (d : Z) : option PulseLength :=
  if no_pulse d then Some NONE
  else if long_pulse d then Some LONG
  else if short_pulse d then Some SHORT
  else None.

(** The classifier and the decoder in the words of the specification. *)

Definition classify_spec (d : Z) : PulseLength :=
  if (d =? 0) || (d <? short_min) then NONE
  else if long_min <=? d then LONG
  else SHORT.

Definition decode_spec (first second : Z) : Symbol :=
  match classify_spec first, classify_spec second with
  | NONE, _ | _, NONE => INVALID
  | LONG, LONG => ONE
  | SHORT, LONG => F
  | SHORT, SHORT => ZERO
  | LONG, SHORT => INVALID
  end.

(** How a loop body leaves: [return r], or on to the next iteration. *)
Inductive flow : Type :=
  | Return (r : Z)
  | Continue.

(** ** The counters and the vote (lines 163-219) *)

(** A C string: the characters before the first NUL.  Reading on past
    the end of the array is a fault. *)
Fixpoint cstring (buf : list ascii) : outcome string :=
  match buf with
  | [] => Fault
  | c :: buf' =>
      if Ascii.eqb c NUL then Done EmptyString
      else s <~ cstring buf' ;; Done (String c s)
  end.

(** [majority[i][j] = 0] for j = j0 .. j0+k-1, then for the rows. *)
Fixpoint zero_row (k j : nat) (row : list Z) : outcome (list Z) :=
  match k with
  | O => Done row
  | S k' => row' <~ store row j 0 ;; zero_row k' (S j) row'
  end.

Fixpoint zero_majority (k i : nat) (majority : list (list Z))
    : outcome (list (list Z)) :=
  match k with
  | O => Done majority
  | S k' =>
      row <~ load majority i ;;
      row' <~ zero_row 3 0 row ;;
      majority' <~ store majority i row' ;;
      zero_majority k' (S i) majority'
  end.

(** [majority[j][c]++] on an [unsigned char]. *)
Definition bump (majority : list (list Z)) (j c : nat) : outcome (list (list Z)) :=
  row <~ load majority j ;;
  x <~ load row c ;;
  row' <~ store row c (to_uchar (x + 1)) ;;
  store majority j row'.

(** Lines 202-204. *)
Definition tally_cell (ch : ascii) (j : nat) (majority : list (list Z))
    : outcome (list (list Z)) :=
  if Ascii.eqb ch "0" then bump majority j 0
  else if Ascii.eqb ch "1" then bump majority j 1
  else if Ascii.eqb ch "F" then bump majority j 2
  else Done majority.

(** Lines 201-205: [k] columns are left, starting at column [j]. *)
Fixpoint tally_row (k j : nat) (row : list ascii) (majority : list (list Z))
    : outcome (list (list Z)) :=
  match k with
  | O => Done majority
  | S k' =>
      ch <~ load row j ;;
      majority' <~ tally_cell ch j majority ;;
      tally_row k' (S j) row majority'
  end.

(** Lines 212-218: the symbol elected by the three counts of a column. *)
Definition vote (m0 m1 m2 : Z) : ascii :=
  if (m1 <? m0) && (m2 <? m0) then "0"%char
  else if m2 <? m1 then "1"%char
  else "F"%char.

(** Lines 211-219. *)
Fixpoint pick_majority (k i : nat) (majority : list (list Z))
    (result : list ascii) : outcome (list ascii) :=
  match k with
  | O => Done result
  | S k' =>
      row <~ load majority i ;;
      m0 <~ load row 0 ;;
      m1 <~ load row 1 ;;
      m2 <~ load row 2 ;;
      result' <~ store result i (vote m0 m1 m2) ;;
      pick_majority k' (S i) majority result'
  end.

(** What the stack holds where the locals of [loop] are allocated. *)
Record Stack : Type := {
  junk_codes : nat -> nat -> ascii;
  junk_valid : nat -> Z;
  junk_majority : nat -> nat -> Z;
  junk_result : nat -> ascii
}.

(** The locals of [loop] as the stack has them on entry. *)
Definition codes_of (junk : Stack) : list (list ascii) :=
  (fun i => junk_codes junk i <$> seq 0 13) <$> seq 0 (Z.to_nat resend_count).
Definition valid_of (junk : Stack) : list Z :=
  junk_valid junk <$> seq 0 (Z.to_nat resend_count).
Definition result_of (junk : Stack) : list ascii :=
  junk_result junk <$> seq 0 13.
Definition majority_of (junk : Stack) : list (list Z) :=
  (fun i => junk_majority junk i <$> seq 0 3) <$> seq 0 12.

(** The counters once zeroed. *)
Definition zeros : list (list Z) := replicate 12 [0; 0; 0].


(** ** The model, for a board, an iteration budget and an environment *)

Section Sketch.

Variable board : Board.
Variable fuel : nat.
Variable env : Env.

Definition pulseIn : M Z :=
  fun st =>
    Done (to_ulong (pulse_at env (pcur st)),
          {| pcur := S (pcur st); scur := scur st; log := log st |}).

Definition digitalRead : M bool :=
  fun st =>
    Done (level_at env (scur st),
          {| pcur := pcur st; scur := S (scur st); log := log st |}).

Definition delayMicroseconds (n : Z) : M unit := emit (Delay_us n).
Definition delay (n : Z) : M unit := emit (Delay_ms n).

(** *** findNextSpacer (lines 65-79)

    [n] bounds the number of iterations of the [while]; [time] and
    [total_time] are [int]s.  The literal 50000 does not fit a 16-bit
    [int] and has type [long] there: the comparison is on the values in
    both cases. *)

Fixpoint spacer_loop (n : nat) (time total_time : Z) : M unit :=
  if (time <? 3000) && (total_time <? 50000) then
    match n with
    | O => fun _ => Spin
    | S n' =>
        lvl <- digitalRead ;;
        let time' := if lvl then 0 else to_int board (time + 10) in
        let total_time' := to_int board (total_time + 10) in
        delayMicroseconds 10 ;;;
        spacer_loop n' time' total_time'
    end
  else ret tt.

Definition findNextSpacer : M unit :=
  emit Call_findNextSpacer ;;;
  spacer_loop fuel 0 0.

(** *** readNextCode (lines 84-155) *)

Definition Serial_print (s : string) : M unit := emit (Print_str s).
Definition Serial_print_num (n : Z) : M unit := emit (Print_num n).
Definition Serial_println (s : string) : M unit := emit (Println_str s).
Definition Serial_println_num (n : Z) : M unit := emit (Println_num n).

(** One iteration of the [for] of lines 88-146, at position [i]. *)
Definition read_tristate (i : nat) (buf : list ascii) : M (flow * list ascii) :=
  first <- pulseIn ;;
  if no_pulse first then
    (if 1 <=? Z.of_nat i then
       Serial_print "DEBUG: " ;;;
       Serial_print_num (Z.of_nat i) ;;;
       Serial_print ": " ;;;
       Serial_println_num first ;;;
       Serial_println "FAIL (first pulse)" ;;;
       findNextSpacer
     else ret tt) ;;;
    ret (Return 0, buf)
  else
    second <- pulseIn ;;
    if no_pulse second then
      (if 1 <=? Z.of_nat i then
         Serial_print "DEBUG: " ;;;
         Serial_print_num (Z.of_nat i) ;;;
         Serial_print ": " ;;;
         Serial_print_num second ;;;
         Serial_println "FAIL (second pulse)" ;;;
         findNextSpacer
       else ret tt) ;;;
      ret (Return 0, buf)
    else if long_pulse first && long_pulse second then
      buf' <- lift (store buf i "1"%char) ;;
      ret (Continue, buf')
    else if long_pulse second then
      buf' <- lift (store buf i "F"%char) ;;
      ret (Continue, buf')
    else if short_pulse first && short_pulse second then
      buf' <- lift (store buf i "0"%char) ;;
      ret (Continue, buf')
    else
      buf1 <- lift (store buf i "X"%char) ;;
      buf2 <- lift (store buf1 (i + 1) NUL) ;;
      findNextSpacer ;;;
      ret (Return 0, buf2).

(** The [for] itself: [k] iterations are left, starting at position [i]. *)
Fixpoint code_loop (k i : nat) (buf : list ascii) : M (flow * list ascii) :=
  match k with
  | O => ret (Continue, buf)
  | S k' =>
      let* (f, buf') <- read_tristate i buf ;;
      match f with
      | Return r => ret (Return r, buf')
      | Continue => code_loop k' (S i) buf'
      end
  end.

Definition readNextCode (buf : list ascii) : M (Z * list ascii) :=
  emit Call_readNextCode ;;;
  let* (f, buf1) <- code_loop 12 0 buf ;;
  match f with
  | Return r => ret (r, buf1)
  | Continue =>
      delayMicroseconds 5000 ;;;
      buf2 <- lift (store buf1 12 NUL) ;;
      ret (1, buf2)
  end.

(** *** loop (lines 157-228) *)

(** The reading loop of lines 175-184: [k] iterations are left, starting
    at attempt [i]. *)
Fixpoint read_codes (k i : nat) (num_success : Z)
    (codes : list (list ascii)) (valid : list Z)
    : M (Z * list (list ascii) * list Z) :=
  match k with
  | O => ret (num_success, codes, valid)
  | S k' =>
      row <- lift (load codes i) ;;
      let* (res, row') <- readNextCode row ;;
      codes' <- lift (store codes i row') ;;
      let num_success' := to_int board (num_success + res) in
      valid' <- lift (store valid i (to_char board res)) ;;
      if num_success' =? 0 then ret (num_success', codes', valid')
      else read_codes k' (S i) num_success' codes' valid'
  end.

(** The printing and counting loop of lines 192-206. *)
Fixpoint dump_codes (k i : nat) (codes : list (list ascii)) (valid : list Z)
    (majority : list (list Z)) : M (list (list Z)) :=
  match k with
  | O => ret majority
  | S k' =>
      v <- lift (load valid i) ;;
      if v =? 0 then
        Serial_println "DEBUG: <<Invalid>>" ;;;
        dump_codes k' (S i) codes valid majority
      else
        Serial_print "DEBUG: " ;;;
        row <- lift (load codes i) ;;
        s <- lift (cstring row) ;;
        Serial_println s ;;;
        majority' <- lift (tally_row 12 0 row majority) ;;
        dump_codes k' (S i) codes valid majority'
  end.

(** Lines 159-184: the locals (whose initial contents are whatever the
    stack holds), the zeroing of the counters and the reading loop. *)
Definition aggregate (junk : Stack)
    : M (Z * list (list ascii) * list Z * list (list Z) * list ascii) :=
  majority <- lift (zero_majority 12 0 (majority_of junk)) ;;
  let* (num_success, codes, valid) <-
    read_codes (Z.to_nat resend_count) 0 0 (codes_of junk) (valid_of junk) ;;
  ret (num_success, codes, valid, majority, result_of junk).

(** Lines 191-226: the body of [if (num_success > 3)].  The vote is
    returned as well, for the statements below. *)
Definition report (codes : list (list ascii)) (valid : list Z)
    (majority : list (list Z)) (result : list ascii) : M (list ascii) :=
  Serial_println "DEBUG: ####" ;;;
  majority' <- dump_codes (Z.to_nat resend_count) 0 codes valid majority ;;
  result1 <- lift (pick_majority 12 0 majority' result) ;;
  result2 <- lift (store result1 12 NUL) ;;
  s <- lift (cstring result2) ;;
  Serial_println s ;;;
  Serial_println "DEBUG: ####" ;;;
  delay 1250 ;;;
  ret result2.

Definition loop (junk : Stack) : M unit :=
  let* (num_success, codes, valid, majority, result) <- aggregate junk ;;
  if 3 <? num_success then
    report codes valid majority result ;;;
    ret tt
  else ret tt.

End Sketch.

(** ** Observations used in the statements *)

Definition is_resync (e : Event) : bool :=
  match e with Call_findNextSpacer => true | _ => false end.

Definition is_read (e : Event) : bool :=
  match e with Call_readNextCode => true | _ => false end.

(** Number of invocations of [findNextSpacer] and of [readNextCode]
    recorded in a log. *)
Definition resyncs (l : list Event) : nat := length (List.filter is_resync l).
Definition reads (l : list Event) : nat := length (List.filter is_read l).

(** Microseconds spent in [delay] and [delayMicroseconds]. *)
Fixpoint waited_us (l : list Event) : Z :=
  match l with
  | [] => 0
  | Delay_us n :: l' => n + waited_us l'
  | Delay_ms n :: l' => 1000 * n + waited_us l'
  | _ :: l' => waited_us l'
  end.

(** The two ways a pair of pulses makes [readNextCode] give up: a pulse
    is missing or too short (lines 95 and 113), or the pair reaches the
    last [else] (line 136). *)
Inductive Failure : Type := NoPulse | Malformed.

Definition pair_failure (first second : Z) : option Failure :=
  if no_pulse first then Some NoPulse
  else if no_pulse second then Some NoPulse
  else match decode first second with
       | INVALID => Some Malformed
       | _ => None
       end.

(** The first of the positions [i .. i+k-1] whose pair fails, the pulses
    being taken from the [p]-th on. *)
Fixpoint first_failure (env : Env) (k i p : nat) : option (nat * Failure) :=
  match k with
  | O => None
  | S k' =>
      match pair_failure (to_ulong (pulse_at env p))
                         (to_ulong (pulse_at env (S p))) with
      | Some f => Some (i, f)
      | None => first_failure env k' (S i) (S (S p))
      end
  end.

(** Every resynchronisation returns within the iteration budget. *)
Definition settles (board : Board) (fuel : nat) (env : Env) : Prop :=
  forall st, exists st', findNextSpacer board fuel env st = Done (tt, st').

(** A completed code: twelve symbols and the terminator. *)
Definition is_symbol (c : ascii) : Prop :=
  c = "0"%char \/ c = "1"%char \/ c = "F"%char.

Definition complete (buf : list ascii) : Prop :=
  (forall i, (i < 12)%nat -> exists c, buf !! i = Some c /\ is_symbol c) /\
  buf !! 12%nat = Some NUL.

(** Attempt [i] is valid and holds [c] at position [p]. *)
Definition is_vote (valid : list Z) (codes : list (list ascii))
    (p : nat) (c : ascii) (i : nat) : bool :=
  match valid !! i, codes !! i with
  | Some v, Some row => negb (v =? 0) && bool_decide (row !! p = Some c)
  | _, _ => false
  end.

(** How many of the attempts [i .. i+k-1] are votes for [c] at [p]. *)
Definition votes_in (k i : nat) (valid : list Z) (codes : list (list ascii))
    (p : nat) (c : ascii) : Z :=
  Z.of_nat (length (List.filter (is_vote valid codes p c) (seq i k))).

Definition votes (valid : list Z) (codes : list (list ascii))
    (p : nat) (c : ascii) : Z :=
  votes_in (Z.to_nat resend_count) 0 valid codes p c.

(** The part of the log written by lines 192-199, most recent event
    first: one line per attempt, each starting with "DEBUG: ". *)
Fixpoint debug_lines (l : list Event) : bool :=
  match l with
  | [] => true
  | Println_str s :: l' =>
      if String.eqb s "DEBUG: <<Invalid>>" then debug_lines l'
      else match l' with
           | Print_str t :: l'' => String.eqb t "DEBUG: " && debug_lines l''
           | _ => false
           end
  | _ => false
  end.

(** [st1] records as many calls of [findNextSpacer] as [st] and [n] more
    calls of [readNextCode]. *)
Definition calls_since (n : nat) (st st1 : State) : Prop :=
  resyncs (log st1) = resyncs (log st) /\
  reads (log st1) = (n + reads (log st))%nat.

(** "Call [findNextSpacer], then return 0", from state [st1]. *)
Definition resync_and_fail {A} (board : Board) (fuel : nat) (env : Env)
    (a : A) (st1 : State) : outcome (Z * A * State) :=
  match findNextSpacer board fuel env st1 with
  | Done (_, st2) => Done (0, a, st2)
  | Spin => Spin
  | Fault => Fault
  end.

(** What the reading loop leaves for an attempt: the flag is 0, or it is
    1 and the row is a completed code. *)
Definition attempt_ok (v : Z) (row : list ascii) : Prop :=
  length row = 13%nat /\ (v = 0 \/ (v = 1 /\ complete row)).

Definition attempts_ok (valid : list Z) (codes : list (list ascii)) : Prop :=
  forall i, (i < Z.to_nat resend_count)%nat ->
    exists v row, valid !! i = Some v /\ codes !! i = Some row /\ attempt_ok v row.

(** The counters as a function of the position and of the symbol. *)
Definition cell (majority : list (list Z)) (p c : nat) : Z :=
  match majority !! p with
  | Some row => match row !! c with Some x => x | None => 0 end
  | None => 0
  end.

Definition dims (majority : list (list Z)) : Prop :=
  length majority = 12%nat /\ Forall (fun row => length row = 3%nat) majority.

(** The symbol counted in column [c] of the counters. *)
Definition sym (c : nat) : ascii :=
  match c with
  | 0%nat => "0"
  | 1%nat => "1"
  | _ => "F"
  end%char.

(** ** Environments and attempts of the examples *)

(** The first [n] pulses last [d]
    microseconds and then the line stays at level [hi]. *)
Definition burst (n : nat) (d : Z) (hi : bool) : Env :=
  {| pulse_at := fun k => if (k <? n)%nat then d else 0;
     level_at := fun _ => hi |}.

(** Short pulses up to position [i], there a long pulse followed by a
    short one, then nothing; the line is idle. *)
Definition long_short_at (i : nat) : Env :=
  {| pulse_at := fun k =>
       if (k <? 2 * i)%nat then 500
       else if (k =? 2 * i)%nat then 1500
       else if (k =? 2 * i + 1)%nat then 500
       else 0;
     level_at := fun _ => false |}.

Definition stuck_high : Env :=
  {| pulse_at := fun _ => 0; level_at := fun _ => true |}.

Definition some_stack : Stack :=
  {| junk_codes := fun _ _ => "?"%char;
     junk_valid := fun _ => 7;
     junk_majority := fun _ _ => 9;
     junk_result := fun _ => "!"%char |}.

(** Recorded attempts for the examples: one completed code per element
    of [firsts], with that symbol at position 0 and '0' elsewhere, then
    failed attempts up to [resend_count]. *)
Definition flags (firsts : list ascii) : list Z :=
  replicate (length firsts) 1 ++ replicate (17 - length firsts) 0.
Definition attempts (firsts : list ascii) : list (list ascii) :=
  ((fun c => (c :: replicate 11 "0"%char) ++ [NUL]) <$> firsts) ++
  replicate (17 - length firsts) (replicate 13 "?"%char).

(** ** Observations used in the further properties *)

(** The [n] samples from the [a]-th on all read LOW. *)
Definition quiet (env : Env) (a n : nat) : Prop :=
  forall q, (a <= q < a + n)%nat -> level_at env q = false.

(** The polling loop of [findNextSpacer] at its head after [a]
    iterations, [s0] being the index of the first sample of the call:
    the last [j] samples read LOW, the one before them (if any) read
    HIGH, and no 300 samples in a row have read LOW before. *)
Definition at_head (env : Env) (s0 a j : nat) : Prop :=
  (j <= a)%nat /\ (j <= 300)%nat /\
  quiet env (s0 + a - j) j /\
  ((j < a)%nat -> level_at env (s0 + a - j - 1) = true) /\
  (forall k', (300 <= k' < a)%nat -> ~ quiet env (s0 + k' - 300) 300).

(** What [total_time] holds after [a] iterations. *)
Definition counted (board : Board) (a : nat) (total_time : Z) : Prop :=
  match board with
  | ARM32 => total_time = 10 * Z.of_nat a /\ (a <= 5000)%nat
  | AVR8 => exists x, total_time = to_int AVR8 x
  end.

(** The pulses from the [p]-th on are pairs that the code reads as the
    symbols [syms], none of them invalid. *)
Definition encodes (env : Env) (p : nat) (syms : list Symbol) : Prop :=
  forall i s, syms !! i = Some s ->
    s <> INVALID /\
    decode (to_ulong (pulse_at env (p + 2 * i)))
           (to_ulong (pulse_at env (p + 2 * i + 1))) = s.

(** The buffer of a completed code with the symbols [syms]. *)
Definition code_of (syms : list Symbol) : list ascii :=
  (symbol_char <$> syms) ++ [NUL].

(** Attempt [i] is flagged valid; how many of the attempts
    [i .. i+k-1], and of all [resend_count] attempts, are. *)
Definition is_valid (valid : list Z) (i : nat) : bool :=
  match valid !! i with
  | Some v => negb (v =? 0)
  | None => false
  end.

Definition valid_in (k i : nat) (valid : list Z) : Z :=
  Z.of_nat (length (List.filter (is_valid valid) (seq i k))).

Definition valid_count (valid : list Z) : Z :=
  valid_in (Z.to_nat resend_count) 0 valid.

(** A transmitter for the examples: the pairs of the symbols [syms] with
    pulses of 450 and 1350 microseconds, then nothing; the line is
    idle. *)
Definition nominal (s : Symbol) : Z * Z :=
  match s with
  | ZERO => (450, 450)
  | ONE => (1350, 1350)
  | F => (450, 1350)
  | INVALID => (1350, 450)
  end.

Definition sends (syms : list Symbol) : Env :=
  {| pulse_at := fun k =>
       match syms !! (k / 2)%nat with
       | Some s => if Nat.even k then fst (nominal s) else snd (nominal s)
       | None => 0
       end;
     level_at := fun _ => false |}.

(** A line that reads HIGH for its first [n] samples and LOW from then
    on; no pulses. *)
Definition high_for (n : nat) : Env :=
  {| pulse_at := fun _ => 0; level_at := fun k => (k <? n)%nat |}.

(** Number of iterations after which [findNextSpacer] returns when the
    line reads HIGH for [n] samples and then LOW. *)
Definition iterations_after_high (board : Board) (n : nat) : nat :=
  match board with
  | AVR8 => (n + 300)%nat
  | ARM32 => Nat.min (n + 300) 5000
  end.

(** The line printed for the symbols [syms]. *)
Definition text (syms : list Symbol) : string :=
  string_of_list_ascii (symbol_char <$> syms).

(** A transmitter that repeats the pairs of [syms] for ever. *)
Definition repeats (syms : list Symbol) : Env :=
  {| pulse_at := fun k =>
       match syms !! ((k / 2) mod length syms)%nat with
       | Some s => if Nat.even k then fst (nominal s) else snd (nominal s)
       | None => 0
       end;
     level_at := fun _ => false |}.

(** Two runs end alike: both return, in the same state and with results
    related by [R], or both go on polling, or both fault. *)
Definition same_run {A} (R : A -> A -> Prop) (o1 o2 : outcome (A * State))
    : Prop :=
  match o1, o2 with
  | Done (a1, s1), Done (a2, s2) => R a1 a2 /\ s1 = s2
  | Spin, Spin => True
  | Fault, Fault => True
  | _, _ => False
  end.

(** * Properties *)

(** ** Conversions *)

Lemma to_int_small board z :
  - 2 ^ 15 <= z < 2 ^ 15 -> to_int board z = z.
Proof.
  intros Hz. unfold to_int.
  destruct board; simpl int_bits.
  - change (2 ^ (16 - 1)) with 32768. change (2 ^ 16) with 65536.
    rewrite Z.mod_small; lia.
  - change (2 ^ (32 - 1)) with 2147483648. change (2 ^ 32) with 4294967296.
    rewrite Z.mod_small; lia.
Qed.

Lemma to_int_arm32 z :
  - 2 ^ 31 <= z < 2 ^ 31 -> to_int ARM32 z = z.
Proof.
  intros Hz. unfold to_int. simpl int_bits.
  change (2 ^ (32 - 1)) with 2147483648. change (2 ^ 32) with 4294967296.
  rewrite Z.mod_small; lia.
Qed.

(** Whatever is stored in a 16-bit [int] is below 50000. *)
Lemma to_int_avr8_range z : - 2 ^ 15 <= to_int AVR8 z < 2 ^ 15.
Proof.
  unfold to_int. simpl int_bits.
  change (2 ^ (16 - 1)) with 32768. change (2 ^ 16) with 65536.
  pose proof (Z.mod_pos_bound (z + 32768) 65536). lia.
Qed.

Lemma to_char_bit board r : r = 0 \/ r = 1 -> to_char board r = r.
Proof. intros [-> | ->]; destruct board; reflexivity. Qed.

Lemma to_ulong_range z : 0 <= to_ulong z < 2 ^ 32.
Proof. unfold to_ulong. apply Z.mod_pos_bound. reflexivity. Qed.

(** ** The pulse tests *)


Lemma long_pulse_iff d : long_pulse d = true <-> long_min < d.
Proof. unfold long_pulse. change (to_ulong long_min) with long_min. apply Z.ltb_lt. Qed.

Lemma short_pulse_iff d : short_pulse d = true <-> d < long_min.
Proof. unfold short_pulse. change (to_ulong long_min) with long_min. apply Z.ltb_lt. Qed.

Lemma classify_spec_NONE d : classify_spec d = NONE <-> no_pulse d = true.
Proof.
  unfold classify_spec, no_pulse. change (to_ulong short_min) with short_min.
  destruct ((d =? 0) || (d <? short_min)); [tauto |].
  destruct (long_min <=? d); split; discriminate.
Qed.

(** Away from the threshold itself the tests of the code are the
    classifier of the specification. *)
Lemma pulse_tests_classify d :
  d <> long_min ->
  (no_pulse d = true <-> classify_spec d = NONE) /\
  (no_pulse d = false ->
     (long_pulse d = true <-> classify_spec d = LONG) /\
     (short_pulse d = true <-> classify_spec d = SHORT)).
Proof.
  intros Hd. split; [symmetry; apply classify_spec_NONE |].
  intros Hn. rewrite long_pulse_iff, short_pulse_iff.
  unfold classify_spec. unfold no_pulse in Hn.
  change (to_ulong short_min) with short_min in Hn. rewrite Hn.
  destruct (Z.leb_spec long_min d); split; split;
    first [discriminate | reflexivity | lia].
Qed.

Lemma decode_off_threshold first second :
  first <> long_min -> second <> long_min ->
  decode first second = decode_spec first second.
Proof.
  intros H1 H2. unfold decode, decode_spec, classify_spec, no_pulse,
    long_pulse, short_pulse.
  change (to_ulong short_min) with short_min.
  change (to_ulong long_min) with long_min.
  destruct ((first =? 0) || (first <? short_min)); [reflexivity |].
  destruct ((second =? 0) || (second <? short_min));
    [destruct (long_min <=? first); reflexivity |].
  destruct (Z.ltb_spec long_min first), (Z.ltb_spec long_min second),
    (Z.ltb_spec first long_min), (Z.ltb_spec second long_min),
    (Z.leb_spec long_min first), (Z.leb_spec long_min second);
    simpl; first [reflexivity | lia].
Qed.

(** ** Classification of a pulse *)







(** ** The symbol of a pair *)

Lemma decode_classify first second :
  decode first second =
    match classify first, classify second with
    | Some NONE, _ => INVALID
    | _, Some NONE => INVALID
    | Some LONG, Some LONG => ONE
    | _, Some LONG => F
    | Some SHORT, Some SHORT => ZERO
    | _, _ => INVALID
    end.
Proof.
  unfold decode, classify.
  destruct (no_pulse first); [reflexivity |].
  destruct (no_pulse second);
    [destruct (long_pulse first); [| destruct (short_pulse first)]; reflexivity |].
  unfold long_pulse, short_pulse.
  destruct (Z.ltb_spec (to_ulong long_min) first),
    (Z.ltb_spec (to_ulong long_min) second),
    (Z.ltb_spec first (to_ulong long_min)),
    (Z.ltb_spec second (to_ulong long_min)); simpl;
    first [reflexivity | lia].
Qed.



(** The pairs the five rules leave out hold a pulse of exactly
    [long_min]: such a pair is F when its second pulse is LONG, and
    INVALID otherwise. *)
Lemma decode_at_long_min first second :
  classify first <> Some NONE -> classify second <> Some NONE ->
  (classify first = None -> classify second = Some LONG ->
     decode first second = F) /\
  (classify first = None -> classify second <> Some LONG ->
     decode first second = INVALID) /\
  (classify second = None -> decode first second = INVALID).
Proof.
  intros H1 H2. rewrite decode_classify. repeat split.
  - intros -> ->. reflexivity.
  - intros -> H. destruct (classify second) as [[] |]; congruence.
  - intros ->. destruct (classify first) as [[] |]; congruence.
Qed.


(** C5, as the code has it: with [short_min] = 350 and [long_min] =
    1200, a pulse of 200 microseconds is too short, so the pairs (200,
    1500) and (200, 200) are INVALID like (1500, 200) and (0, x); (1500,
    1500) is ONE, and F and ZERO are the pairs (500, 1500) and (500,
    500). *)
Theorem decode_examples :
  short_min = 350 /\ long_min = 1200 /\
  decode 1500 1500 = ONE /\
  decode 200 1500 = INVALID /\
  decode 200 200 = INVALID /\
  decode 1500 200 = INVALID /\
  (forall x, decode 0 x = INVALID) /\
  decode 500 1500 = F /\
  decode 500 500 = ZERO.
Proof. repeat split. Qed.

(** C5 as stated fails at (200, 1500) and (200, 200). *)
Lemma decode_200_not_F_not_ZERO :
  decode 200 1500 <> F /\ decode 200 200 <> ZERO.
Proof. split; discriminate. Qed.

(** ** The vote of a column *)

Lemma vote_rule m0 m1 m2 :
  (vote m0 m1 m2 = "0"%char <-> m0 > m1 /\ m0 > m2) /\
  (vote m0 m1 m2 = "1"%char <-> ~ (m0 > m1 /\ m0 > m2) /\ m1 > m2) /\
  (vote m0 m1 m2 = "F"%char <-> ~ (m0 > m1 /\ m0 > m2) /\ ~ m1 > m2).
Proof.
  unfold vote.
  destruct (Z.ltb_spec m1 m0), (Z.ltb_spec m2 m0), (Z.ltb_spec m2 m1); simpl;
    repeat split; intros; first [discriminate | lia | idtac];
    try (exfalso; intuition lia).
Qed.

(** ** The resynchroniser *)

Lemma polled_0 st : polled 0 st = st.
Proof. destruct st. unfold polled. simpl. f_equal. lia. Qed.

Lemma polled_S k st :
  polled k {| pcur := pcur st; scur := S (scur st);
              log := Delay_us 10 :: log st |} = polled (S k) st.
Proof.
  unfold polled. simpl. f_equal; [lia |].
  induction k as [| k IH]; simpl; [reflexivity | rewrite IH; reflexivity].
Qed.

Lemma spacer_loop_step board env n time total_time st :
  (time <? 3000) && (total_time <? 50000) = true ->
  spacer_loop board env (S n) time total_time st =
  spacer_loop board env n
    (if level_at env (scur st) then 0 else to_int board (time + 10))
    (to_int board (total_time + 10))
    {| pcur := pcur st; scur := S (scur st); log := Delay_us 10 :: log st |}.
Proof. intros H. simpl. rewrite H. reflexivity. Qed.

Lemma spacer_loop_exit board env n time total_time st :
  (time <? 3000) && (total_time <? 50000) = false ->
  spacer_loop board env n time total_time st = Done (tt, st).
Proof. intros H. destruct n; simpl; rewrite H; reflexivity. Qed.

(** Whatever the loop does, it only polls. *)
Lemma spacer_loop_polled board env n : forall time total_time st st',
  spacer_loop board env n time total_time st = Done (tt, st') ->
  exists k, (k <= n)%nat /\ st' = polled k st.
Proof.
  induction n as [| n IH]; intros time total_time st st' H.
  - simpl in H. destruct ((time <? 3000) && (total_time <? 50000)).
    + discriminate.
    + exists 0%nat. injection H as <-. rewrite polled_0. split; [lia | reflexivity].
  - destruct ((time <? 3000) && (total_time <? 50000)) eqn:Hc.
    + rewrite spacer_loop_step in H by exact Hc.
      apply IH in H as (k & Hk & ->).
      exists (S k). rewrite polled_S. split; [lia | reflexivity].
    + rewrite spacer_loop_exit in H by exact Hc.
      exists 0%nat. injection H as <-. rewrite polled_0. split; [lia | reflexivity].
Qed.

Lemma spacer_loop_no_fault board env n : forall time total_time st,
  spacer_loop board env n time total_time st <> Fault.
Proof.
  induction n as [| n IH]; intros time total_time st.
  - simpl. destruct ((time <? 3000) && (total_time <? 50000)); discriminate.
  - destruct ((time <? 3000) && (total_time <? 50000)) eqn:Hc.
    + rewrite spacer_loop_step by exact Hc. apply IH.
    + rewrite spacer_loop_exit by exact Hc. discriminate.
Qed.

(** With a 32-bit [int] the second test of the loop ends it after at
    most 5000 iterations: [j] iterations done, [5000 - j] to go. *)
Lemma spacer_loop_arm32 env n : forall j time st,
  0 <= j <= 5000 -> 0 <= time <= 3010 -> 5000 - j <= Z.of_nat n ->
  exists k, Z.of_nat k <= 5000 - j /\
    spacer_loop ARM32 env n time (10 * j) st = Done (tt, polled k st).
Proof.
  induction n as [| n IH]; intros j time st Hj Ht Hn.
  - assert (j = 5000) as -> by lia.
    exists 0%nat. rewrite polled_0. split; [lia |].
    simpl. rewrite andb_false_r. reflexivity.
  - destruct ((time <? 3000) && (10 * j <? 50000)) eqn:Hc.
    + rewrite spacer_loop_step by exact Hc.
      apply andb_true_iff in Hc as [Hc1 Hc2].
      apply Z.ltb_lt in Hc1, Hc2.
      rewrite (to_int_arm32 (10 * j + 10)) by lia.
      replace (10 * j + 10) with (10 * (j + 1)) by lia.
      destruct (IH (j + 1)
                  (if level_at env (scur st) then 0 else to_int ARM32 (time + 10))
                  {| pcur := pcur st; scur := S (scur st);
                     log := Delay_us 10 :: log st |})
        as (k & Hk & Hrun); [lia | | lia |].
      * destruct (level_at env (scur st)); [lia |].
        rewrite to_int_arm32; lia.
      * exists (S k). rewrite Hrun, polled_S. split; [lia | reflexivity].
    + rewrite spacer_loop_exit by exact Hc.
      exists 0%nat. rewrite polled_0. split; [lia | reflexivity].
Qed.

Lemma waited_us_polled k st :
  waited_us (log (polled k st)) = 10 * Z.of_nat k + waited_us (log st).
Proof.
  unfold polled. simpl. induction k as [| k IH]; [reflexivity |].
  simpl replicate. simpl app. cbn [waited_us]. rewrite IH. lia.
Qed.

(** On the 32-bit boards [findNextSpacer] returns, on any line, after at
    most 5000 iterations and 50000 microseconds of waiting. *)
Lemma findNextSpacer_arm32 fuel env st :
  (5000 <= fuel)%nat ->
  exists k, (k <= 5000)%nat /\
    findNextSpacer ARM32 fuel env st = Done (tt, polled k (entered st)) /\
    waited_us (log (polled k (entered st))) - waited_us (log st) <= 50000.
Proof.
  intros Hf.
  destruct (spacer_loop_arm32 env fuel 0 0 (entered st)) as (k & Hk & Hrun);
    [lia | lia | lia |].
  exists k. split; [lia |]. split; [exact Hrun |].
  rewrite waited_us_polled. simpl. lia.
Qed.

Lemma settles_arm32 fuel env : (5000 <= fuel)%nat -> settles ARM32 fuel env.
Proof.
  intros Hf st. destruct (findNextSpacer_arm32 fuel env st Hf) as (k & _ & H & _).
  eauto.
Qed.

(** With a 16-bit [int] the second test of the loop never fails: while
    the line is high the loop goes on. *)
Lemma spacer_loop_avr8_high env n : forall total st,
  (forall k, level_at env k = true) ->
  spacer_loop AVR8 env n 0 (to_int AVR8 total) st = Spin.
Proof.
  induction n as [| n IH]; intros total st Hhigh.
  - simpl. pose proof (to_int_avr8_range total) as Hr.
    destruct (Z.ltb_spec (to_int AVR8 total) 50000); [reflexivity | lia].
  - rewrite spacer_loop_step.
    + rewrite Hhigh. apply IH, Hhigh.
    + pose proof (to_int_avr8_range total) as Hr.
      destruct (Z.ltb_spec (to_int AVR8 total) 50000); [reflexivity | lia].
Qed.

Lemma findNextSpacer_avr8_high fuel env st :
  (forall k, level_at env k = true) ->
  findNextSpacer AVR8 fuel env st = Spin.
Proof.
  intros Hhigh. unfold findNextSpacer, bind, emit.
  apply (spacer_loop_avr8_high env fuel 0). exact Hhigh.
Qed.

(** C8 says that [findNextSpacer] returns within 5000 iterations even
    when every sample reads HIGH.  It does with a 32-bit [int] (lemma
    [findNextSpacer_arm32]); with a 16-bit [int] it does not: whatever
    [total_time] holds is below 50000, the first test is then the only
    way out, and on a line that stays high [findNextSpacer] is still
    polling after any number of iterations. *)
Theorem findNextSpacer_avr8_stuck_high fuel st :
  findNextSpacer AVR8 fuel stuck_high st = Spin.
Proof.
  unfold findNextSpacer, bind, emit.
  apply (spacer_loop_avr8_high stuck_high fuel 0). reflexivity.
Qed.

(** On a line that stays low the first test ends the loop after 300
    iterations, on both boards. *)
Lemma spacer_loop_low board env n : forall j st,
  (forall k, level_at env k = false) ->
  0 <= j <= 300 -> 300 - j <= Z.of_nat n ->
  spacer_loop board env n (10 * j) (10 * j) st =
  Done (tt, polled (Z.to_nat (300 - j)) st).
Proof.
  induction n as [| n IH]; intros j st Hlow Hj Hn.
  - assert (j = 300) as -> by lia. rewrite polled_0. reflexivity.
  - destruct (Z.eq_dec j 300) as [-> | Hne].
    + rewrite spacer_loop_exit by reflexivity. rewrite polled_0. reflexivity.
    + rewrite spacer_loop_step.
      * rewrite Hlow, (to_int_small board (10 * j + 10)) by lia.
        replace (10 * j + 10) with (10 * (j + 1)) by lia.
        rewrite IH by (try exact Hlow; lia).
        rewrite polled_S. f_equal. f_equal. f_equal. lia.
      * apply andb_true_iff. split; apply Z.ltb_lt; lia.
Qed.

Lemma settles_idle board fuel env :
  (forall k, level_at env k = false) -> (300 <= fuel)%nat ->
  settles board fuel env.
Proof.
  intros Hlow Hf st. unfold findNextSpacer, bind, emit.
  eexists. apply (spacer_loop_low board env fuel 0); [exact Hlow | lia | lia].
Qed.

Lemma findNextSpacer_outcome board fuel env st :
  findNextSpacer board fuel env st = Spin \/
  exists k, (k <= fuel)%nat /\
    findNextSpacer board fuel env st = Done (tt, polled k (entered st)).
Proof.
  unfold findNextSpacer, bind, emit. fold (entered st).
  destruct (spacer_loop board env fuel 0 0 (entered st)) as [[[] st'] | |] eqn:H.
  - right. apply spacer_loop_polled in H as (k & Hk & ->). eauto.
  - left. reflexivity.
  - exfalso. exact (spacer_loop_no_fault _ _ _ _ _ _ H).
Qed.

Lemma resyncs_polled k st : resyncs (log (polled k st)) = resyncs (log st).
Proof.
  unfold polled, resyncs. simpl.
  induction k as [| k IH]; simpl; [reflexivity | exact IH].
Qed.

Lemma reads_polled k st : reads (log (polled k st)) = reads (log st).
Proof.
  unfold polled, reads. simpl.
  induction k as [| k IH]; simpl; [reflexivity | exact IH].
Qed.

(** A resynchronisation that returns has added one call of
    [findNextSpacer] to the log, and nothing else but waits. *)
Lemma findNextSpacer_calls board fuel env st st' :
  findNextSpacer board fuel env st = Done (tt, st') ->
  resyncs (log st') = S (resyncs (log st)) /\
  reads (log st') = reads (log st) /\
  pcur st' = pcur st.
Proof.
  intros H. destruct (findNextSpacer_outcome board fuel env st) as [E | (k & _ & E)];
    rewrite E in H; [discriminate |].
  injection H as <-. rewrite resyncs_polled, reads_polled. repeat split.
Qed.

(** ** Stepping through the monad *)

Lemma bind_pulseIn {B} env (k : Z -> M B) st :
  (x <- pulseIn env ;; k x) st =
  k (to_ulong (pulse_at env (pcur st))) (pulsed 1 st).
Proof. reflexivity. Qed.

Lemma bind_store_ok {A B} (l : list A) i x (k : list A -> M B) st :
  (i < length l)%nat ->
  (l' <- lift (store l i x) ;; k l') st = k (<[i := x]> l) st.
Proof.
  intros Hi. unfold bind, lift, store. rewrite decide_True by exact Hi.
  reflexivity.
Qed.

Lemma bind_load_ok {A B} (l : list A) i x (k : A -> M B) st :
  l !! i = Some x ->
  (y <- lift (load l i) ;; k y) st = k x st.
Proof. intros Hi. unfold bind, lift, load. rewrite Hi. reflexivity. Qed.

Lemma bind_Done {A B} (m : M A) (k : A -> M B) st a st' :
  m st = Done (a, st') -> bind m k st = k a st'.
Proof. intros H. unfold bind. rewrite H. reflexivity. Qed.

Lemma bind_Spin {A B} (m : M A) (k : A -> M B) st :
  m st = Spin -> bind m k st = Spin.
Proof. intros H. unfold bind. rewrite H. reflexivity. Qed.

(** ** One tri-state *)

Section ReadTristate.

Variables (board : Board) (fuel : nat) (env : Env).


Lemma pair_failure_None f s :
  pair_failure f s = None ->
  no_pulse f = false /\ no_pulse s = false /\ decode f s <> INVALID /\
  is_symbol (symbol_char (decode f s)).
Proof.
  unfold pair_failure. intros H.
  destruct (no_pulse f) eqn:Hf; [discriminate |].
  destruct (no_pulse s) eqn:Hs; [discriminate |].
  unfold is_symbol.
  destruct (decode f s); try discriminate; simpl; repeat split;
    first [discriminate | tauto].
Qed.

(** A valid pair: its symbol is stored at [i] and the loop goes on. *)
Lemma read_tristate_symbol i buf st :
  pair_failure (to_ulong (pulse_at env (pcur st)))
               (to_ulong (pulse_at env (S (pcur st)))) = None ->
  (i < length buf)%nat ->
  read_tristate board fuel env i buf st =
  Done (Continue,
        <[i := symbol_char (decode (to_ulong (pulse_at env (pcur st)))
                                   (to_ulong (pulse_at env (S (pcur st)))))]> buf,
        pulsed 2 st).
Proof.
  intros Hp Hi. apply pair_failure_None in Hp as (Hf & Hs & Hd & _).
  unfold read_tristate. rewrite bind_pulseIn. rewrite Hf.
  rewrite bind_pulseIn. change (pcur (pulsed 1 st)) with (S (pcur st)).
  rewrite Hs.
  unfold decode in *. rewrite Hf, Hs in Hd |- *.
  destruct (long_pulse (to_ulong (pulse_at env (pcur st))) &&
            long_pulse (to_ulong (pulse_at env (S (pcur st)))));
    [rewrite bind_store_ok by exact Hi; reflexivity |].
  destruct (long_pulse (to_ulong (pulse_at env (S (pcur st)))));
    [rewrite bind_store_ok by exact Hi; reflexivity |].
  destruct (short_pulse (to_ulong (pulse_at env (pcur st))) &&
            short_pulse (to_ulong (pulse_at env (S (pcur st)))));
    [rewrite bind_store_ok by exact Hi; reflexivity | congruence].
Qed.

(** A missing or too short pulse at position 0: failure at once. *)
Lemma read_tristate_no_pulse_0 buf st :
  pair_failure (to_ulong (pulse_at env (pcur st)))
               (to_ulong (pulse_at env (S (pcur st)))) = Some NoPulse ->
  exists n, read_tristate board fuel env 0 buf st =
            Done (Return 0, buf, pulsed n st).
Proof.
  unfold pair_failure. intros Hp.
  unfold read_tristate. rewrite bind_pulseIn.
  destruct (no_pulse (to_ulong (pulse_at env (pcur st)))).
  - exists 1%nat. reflexivity.
  - rewrite bind_pulseIn. change (pcur (pulsed 1 st)) with (S (pcur st)).
    destruct (no_pulse (to_ulong (pulse_at env (S (pcur st))))).
    + exists 2%nat. reflexivity.
    + destruct (decode (to_ulong (pulse_at env (pcur st)))
                       (to_ulong (pulse_at env (S (pcur st)))));
        discriminate.
Qed.

(** A missing or too short pulse at a later position: the
    resynchroniser is called, then failure. *)
Lemma read_tristate_no_pulse_later i buf st :
  pair_failure (to_ulong (pulse_at env (pcur st)))
               (to_ulong (pulse_at env (S (pcur st)))) = Some NoPulse ->
  (1 <= i)%nat ->
  exists st1, calls_since 0 st st1 /\
    read_tristate board fuel env i buf st =
    (findNextSpacer board fuel env ;;; ret (Return 0, buf)) st1.
Proof.
  unfold pair_failure. intros Hp Hi.
  unfold read_tristate.
  assert (Hg : (1 <=? Z.of_nat i) = true) by (apply Z.leb_le; lia).
  rewrite Hg. rewrite bind_pulseIn.
  destruct (no_pulse (to_ulong (pulse_at env (pcur st)))).
  - eexists. split; [| reflexivity]. split; reflexivity.
  - rewrite bind_pulseIn. change (pcur (pulsed 1 st)) with (S (pcur st)).
    destruct (no_pulse (to_ulong (pulse_at env (S (pcur st))))).
    + eexists. split; [| reflexivity]. split; reflexivity.
    + destruct (decode (to_ulong (pulse_at env (pcur st)))
                       (to_ulong (pulse_at env (S (pcur st)))));
        discriminate.
Qed.

(** A pair that reaches the last [else]: 'X' and the terminator are
    stored, the resynchroniser is called, then failure; at any
    position. *)
Lemma read_tristate_malformed i buf st :
  pair_failure (to_ulong (pulse_at env (pcur st)))
               (to_ulong (pulse_at env (S (pcur st)))) = Some Malformed ->
  (i + 1 < length buf)%nat ->
  read_tristate board fuel env i buf st =
  (findNextSpacer board fuel env ;;;
   ret (Return 0, <[(i + 1)%nat := NUL]> (<[i := "X"%char]> buf))) (pulsed 2 st).
Proof.
  unfold pair_failure. intros Hp Hi.
  destruct (no_pulse (to_ulong (pulse_at env (pcur st)))) eqn:Hf; [discriminate |].
  destruct (no_pulse (to_ulong (pulse_at env (S (pcur st))))) eqn:Hs; [discriminate |].
  unfold decode in Hp. rewrite Hf, Hs in Hp.
  unfold read_tristate. rewrite bind_pulseIn. rewrite Hf.
  rewrite bind_pulseIn. change (pcur (pulsed 1 st)) with (S (pcur st)).
  rewrite Hs.
  destruct (long_pulse (to_ulong (pulse_at env (pcur st))) &&
            long_pulse (to_ulong (pulse_at env (S (pcur st))))); [discriminate |].
  destruct (long_pulse (to_ulong (pulse_at env (S (pcur st))))); [discriminate |].
  destruct (short_pulse (to_ulong (pulse_at env (pcur st))) &&
            short_pulse (to_ulong (pulse_at env (S (pcur st))))); [discriminate |].
  rewrite bind_store_ok by lia.
  rewrite bind_store_ok by (rewrite length_insert; lia).
  reflexivity.
Qed.

End ReadTristate.

(** ** The twelve tri-states *)

Lemma pulsed_pulsed a b st : pulsed a (pulsed b st) = pulsed (a + b) st.
Proof. unfold pulsed. simpl. f_equal. lia. Qed.

Lemma pulsed_0 st : pulsed 0 st = st.
Proof. destruct st. reflexivity. Qed.

Lemma calls_since_pulsed n a st st1 :
  calls_since n (pulsed a st) st1 -> calls_since n st st1.
Proof. exact (fun H => H). Qed.

Lemma first_failure_range env k : forall i p j f,
  first_failure env k i p = Some (j, f) -> (i <= j < i + k)%nat.
Proof.
  induction k as [| k IH]; intros i p j f H; simpl in H; [discriminate |].
  destruct (pair_failure _ _).
  - injection H as <- <-. lia.
  - apply IH in H. lia.
Qed.

Lemma code_loop_S board fuel env k i buf st :
  code_loop board fuel env (S k) i buf st =
  match read_tristate board fuel env i buf st with
  | Done (Return r, buf', st') => Done (Return r, buf', st')
  | Done (Continue, buf', st') => code_loop board fuel env k (S i) buf' st'
  | Spin => Spin
  | Fault => Fault
  end.
Proof.
  simpl. unfold bind.
  destruct (read_tristate board fuel env i buf st) as [[[[r |] buf'] st'] | |];
    reflexivity.
Qed.

Lemma resync_then_return_absorb board fuel env {A} (x : A) st1 :
  match (findNextSpacer board fuel env ;;; ret (Return 0, x)) st1 with
  | Done (Return r, buf', st') => Done (Return r, buf', st')
  | Done (Continue, buf', st') => Fault
  | Spin => Spin
  | Fault => Fault
  end = (findNextSpacer board fuel env ;;; ret (Return 0, x)) st1.
Proof.
  unfold bind. destruct (findNextSpacer board fuel env st1) as [[[] st2] | |];
    reflexivity.
Qed.

Section CodeLoop.

Variables (board : Board) (fuel : nat) (env : Env).

(** What the loop does, by the first failing pair of the pulses ahead. *)
Lemma code_loop_spec k : forall i buf st,
  (i + k < length buf)%nat ->
  (first_failure env k i (pcur st) = None ->
     exists buf',
       code_loop board fuel env k i buf st =
         Done (Continue, buf', pulsed (2 * k) st) /\
       length buf' = length buf /\
       (forall j, (i <= j < i + k)%nat ->
          exists c, buf' !! j = Some c /\ is_symbol c) /\
       (forall j, (j < i)%nat -> buf' !! j = buf !! j)) /\
  (first_failure env k i (pcur st) = Some (0%nat, NoPulse) ->
     exists n,
       code_loop board fuel env k i buf st = Done (Return 0, buf, pulsed n st)) /\
  (forall j f, first_failure env k i (pcur st) = Some (j, f) ->
     (1 <= j)%nat \/ f = Malformed ->
     exists buf' st1,
       length buf' = length buf /\ calls_since 0 st st1 /\
       code_loop board fuel env k i buf st =
         (findNextSpacer board fuel env ;;; ret (Return 0, buf')) st1).
Proof.
  induction k as [| k IH]; intros i buf st Hlen.
  - split; [| split; [discriminate | discriminate]].
    intros _. exists buf. change (2 * 0)%nat with 0%nat.
    rewrite (pulsed_0 st).
    split; [reflexivity |]. split; [reflexivity |].
    split; intros j Hj; [lia | reflexivity].
  - rewrite code_loop_S. cbn [first_failure].
    destruct (pair_failure (to_ulong (pulse_at env (pcur st)))
                (to_ulong (pulse_at env (S (pcur st))))) as [f |] eqn:Hp.
    + (* the pair at [i] fails *)
      split; [discriminate |]. split.
      * intros H. injection H as -> ->.
        destruct (read_tristate_no_pulse_0 board fuel env buf st Hp) as (n & ->).
        exists n. reflexivity.
      * intros j f' H Hj. injection H as <- <-.
        destruct f.
        -- destruct Hj as [Hj | Hj]; [| discriminate].
           destruct (read_tristate_no_pulse_later board fuel env i buf st Hp Hj)
             as (st1 & Hc & ->).
           exists buf, st1. split; [reflexivity |]. split; [exact Hc |].
           rewrite <- (resync_then_return_absorb board fuel env buf st1) at 2.
           destruct ((findNextSpacer board fuel env ;;; ret (Return 0, buf)) st1)
             as [[[[r |] b] s] | |] eqn:E; try reflexivity.
           unfold bind, ret in E.
           destruct (findNextSpacer board fuel env st1) as [[[] ?] | |];
             discriminate.
        -- rewrite (read_tristate_malformed board fuel env i buf st Hp)
             by lia.
           exists (<[(i + 1)%nat := NUL]> (<[i := "X"%char]> buf)), (pulsed 2 st).
           split; [| split; [split; reflexivity |]].
           ++ rewrite !length_insert. reflexivity.
           ++ unfold bind, ret.
              destruct (findNextSpacer board fuel env (pulsed 2 st))
                as [[[] ?] | |]; reflexivity.
    + (* the pair at [i] is a symbol *)
      rewrite (read_tristate_symbol board fuel env i buf st Hp) by lia.
      set (buf1 := <[i := _]> buf).
      assert (Hlen1 : length buf1 = length buf) by apply length_insert.
      destruct (IH (S i) buf1 (pulsed 2 st)) as (IHa & IHb & IHc);
        [rewrite Hlen1; lia |].
      change (pcur (pulsed 2 st)) with (S (S (pcur st))) in IHa, IHb, IHc.
      split; [| split].
      * intros H. destruct (IHa H) as (buf' & Hrun & Hl & Hsym & Hold).
        exists buf'. rewrite Hrun, pulsed_pulsed.
        split; [f_equal; f_equal; f_equal; lia |].
        split; [congruence |]. split.
        -- intros j Hj. destruct (decide (j = i)) as [-> | Hne].
           ++ rewrite Hold by lia. unfold buf1.
              rewrite list_lookup_insert_eq by lia.
              eexists. split; [reflexivity |].
              apply (pair_failure_None _ _ Hp).
           ++ apply Hsym. lia.
        -- intros j Hj. rewrite Hold by lia. unfold buf1.
           apply list_lookup_insert_ne. lia.
      * intros H. apply first_failure_range in H. lia.
      * intros j f H Hj. destruct (IHc j f H Hj) as (buf' & st1 & Hl & Hc & Hrun).
        exists buf', st1. split; [congruence |]. split; [exact Hc | exact Hrun].
Qed.

End CodeLoop.

(** ** readNextCode *)

Lemma first_failure_cases env k i p :
  first_failure env k i p = None \/
  first_failure env k i p = Some (0%nat, NoPulse) \/
  exists j f, first_failure env k i p = Some (j, f) /\
              ((1 <= j)%nat \/ f = Malformed).
Proof.
  destruct (first_failure env k i p) as [[[| j] []] |].
  - right. left. reflexivity.
  - right. right. exists 0%nat, Malformed. split; [reflexivity | right; reflexivity].
  - right. right. exists (S j), NoPulse. split; [reflexivity | left; lia].
  - right. right. exists (S j), Malformed. split; [reflexivity | left; lia].
  - left. reflexivity.
Qed.

Lemma resync_and_fail_outcome {A} board fuel env (a : A) st1 :
  resync_and_fail board fuel env a st1 = Spin \/
  exists st2, findNextSpacer board fuel env st1 = Done (tt, st2) /\
              resync_and_fail board fuel env a st1 = Done (0, a, st2).
Proof.
  unfold resync_and_fail.
  destruct (findNextSpacer_outcome board fuel env st1) as [-> | (k & _ & ->)];
    eauto.
Qed.

Section ReadNextCode.

Variables (board : Board) (fuel : nat) (env : Env).

(** What [readNextCode] does, by the first failing pair of the twelve
    ahead. *)
Lemma readNextCode_spec buf st :
  (12 < length buf)%nat ->
  (first_failure env 12 0 (pcur st) = None ->
     exists buf',
       readNextCode board fuel env buf st = Done (1, buf', completed st) /\
       length buf' = length buf /\ complete buf') /\
  (first_failure env 12 0 (pcur st) = Some (0%nat, NoPulse) ->
     exists n,
       readNextCode board fuel env buf st = Done (0, buf, pulsed n (called st))) /\
  (forall j f, first_failure env 12 0 (pcur st) = Some (j, f) ->
     (1 <= j)%nat \/ f = Malformed ->
     exists buf' st1,
       length buf' = length buf /\ calls_since 1 st st1 /\
       readNextCode board fuel env buf st =
         resync_and_fail board fuel env buf' st1).
Proof.
  intros Hlen.
  destruct (code_loop_spec board fuel env 12 0 buf (called st))
    as (Ha & Hb & Hc); [simpl; lia |].
  change (pcur (called st)) with (pcur st) in Ha, Hb, Hc.
  assert (Hrun : forall o, code_loop board fuel env 12 0 buf (called st) = o ->
            readNextCode board fuel env buf st =
            match o with
            | Done (Return r, buf1, st1) => Done (r, buf1, st1)
            | Done (Continue, buf1, st1) =>
                (delayMicroseconds 5000 ;;;
                 buf2 <- lift (store buf1 12 NUL) ;; ret (1, buf2)) st1
            | Spin => Spin
            | Fault => Fault
            end).
  { intros o <-. unfold readNextCode, bind at 1, emit at 1. fold (called st).
    unfold bind at 1.
    destruct (code_loop board fuel env 12 0 buf (called st))
      as [[[[r |] buf1] st1] | |]; reflexivity. }
  split; [| split].
  - intros H. destruct (Ha H) as (buf' & Hloop & Hl & Hsym & _).
    exists (<[12%nat := NUL]> buf').
    rewrite (Hrun _ Hloop).
    unfold bind at 1, delayMicroseconds, emit.
    rewrite bind_store_ok by lia.
    split; [reflexivity |]. split; [rewrite length_insert; exact Hl |].
    split.
    + intros i Hi. rewrite list_lookup_insert_ne by lia. apply Hsym. lia.
    + apply list_lookup_insert_eq. lia.
  - intros H. destruct (Hb H) as (n & Hloop). exists n.
    rewrite (Hrun _ Hloop). reflexivity.
  - intros j f H Hj. destruct (Hc j f H Hj) as (buf' & st1 & Hl & Hcalls & Hloop).
    exists buf', st1. split; [exact Hl |]. split.
    + destruct Hcalls as [H1 H2]. split; [exact H1 | exact H2].
    + rewrite (Hrun _ Hloop). unfold resync_and_fail, bind, ret.
      destruct (findNextSpacer board fuel env st1) as [[[] st2] | |];
        reflexivity.
Qed.

(** Whatever [readNextCode] returns is 0 or 1; the buffer keeps its
    length, one call is logged, and a 1 comes with a completed code. *)
Lemma readNextCode_result buf st r buf' st' :
  (12 < length buf)%nat ->
  readNextCode board fuel env buf st = Done (r, buf', st') ->
  length buf' = length buf /\
  reads (log st') = S (reads (log st)) /\
  (r = 0 \/ (r = 1 /\ complete buf')).
Proof.
  intros Hlen Hrun.
  destruct (readNextCode_spec buf st Hlen) as (Ha & Hb & Hc).
  destruct (first_failure_cases env 12 0 (pcur st)) as [H | [H | (j & f & H & Hj)]].
  - destruct (Ha H) as (b & E & Hl & Hcomp). rewrite E in Hrun.
    injection Hrun as <- <- <-.
    split; [exact Hl |]. split; [reflexivity |].
    right. split; [reflexivity | exact Hcomp].
  - destruct (Hb H) as (n & E). rewrite E in Hrun.
    injection Hrun as <- <- <-.
    split; [reflexivity |]. split; [reflexivity |]. left. reflexivity.
  - destruct (Hc j f H Hj) as (b & st1 & Hl & [_ Hreads] & E).
    rewrite E in Hrun.
    destruct (resync_and_fail_outcome board fuel env b st1)
      as [E' | (st2 & Hs & E')]; rewrite E' in Hrun; [discriminate |].
    injection Hrun as <- <- <-.
    apply findNextSpacer_calls in Hs as (_ & Hs & _).
    split; [exact Hl |]. split; [rewrite Hs; exact Hreads | left; reflexivity].
Qed.

Lemma readNextCode_not_Fault buf st :
  (12 < length buf)%nat -> readNextCode board fuel env buf st <> Fault.
Proof.
  intros Hlen Hrun.
  destruct (readNextCode_spec buf st Hlen) as (Ha & Hb & Hc).
  destruct (first_failure_cases env 12 0 (pcur st)) as [H | [H | (j & f & H & Hj)]].
  - destruct (Ha H) as (b & E & _). congruence.
  - destruct (Hb H) as (n & E). congruence.
  - destruct (Hc j f H Hj) as (b & st1 & _ & _ & E). rewrite E in Hrun.
    destruct (resync_and_fail_outcome board fuel env b st1)
      as [E' | (st2 & _ & E')]; congruence.
Qed.

(** When the resynchroniser returns, so does [readNextCode]. *)
Lemma readNextCode_returns buf st :
  settles board fuel env -> (12 < length buf)%nat ->
  exists r buf' st', readNextCode board fuel env buf st = Done (r, buf', st').
Proof.
  intros Hs Hlen.
  destruct (readNextCode_spec buf st Hlen) as (Ha & Hb & Hc).
  destruct (first_failure_cases env 12 0 (pcur st)) as [H | [H | (j & f & H & Hj)]].
  - destruct (Ha H) as (b & E & _). eauto.
  - destruct (Hb H) as (n & E). eauto.
  - destruct (Hc j f H Hj) as (b & st1 & _ & _ & E). rewrite E.
    unfold resync_and_fail. destruct (Hs st1) as (st2 & ->). eauto.
Qed.

End ReadNextCode.

(** C2, as the code has it: a missing or too short pulse at position 0
    makes [readNextCode] return 0 without calling [findNextSpacer]; a
    failure at a position i >= 1, and a malformed pair at any position
    (position 0 included), make it call [findNextSpacer] and return 0
    when that returns. *)
Theorem readNextCode_failure board fuel env buf st j f :
  length buf = 13%nat ->
  first_failure env 12 0 (pcur st) = Some (j, f) ->
  (j = 0%nat -> f = NoPulse ->
     exists st',
       readNextCode board fuel env buf st = Done (0, buf, st') /\
       resyncs (log st') = resyncs (log st)) /\
  ((1 <= j)%nat \/ f = Malformed ->
     exists buf' st1,
       resyncs (log st1) = resyncs (log st) /\
       readNextCode board fuel env buf st =
         resync_and_fail board fuel env buf' st1 /\
       forall st2, findNextSpacer board fuel env st1 = Done (tt, st2) ->
         readNextCode board fuel env buf st = Done (0, buf', st2) /\
         resyncs (log st2) = S (resyncs (log st))).
Proof.
  intros Hlen Hf.
  destruct (readNextCode_spec board fuel env buf st) as (_ & Hb & Hc); [lia |].
  split.
  - intros -> ->. destruct (Hb Hf) as (n & E).
    exists (pulsed n (called st)). split; [exact E | reflexivity].
  - intros Hj. destruct (Hc j f Hf Hj) as (buf' & st1 & _ & [Hr _] & E).
    exists buf', st1. split; [exact Hr |]. split; [exact E |].
    intros st2 Hs. rewrite E. unfold resync_and_fail. rewrite Hs.
    split; [reflexivity |].
    apply findNextSpacer_calls in Hs as (Hs & _). rewrite Hs, Hr. reflexivity.
Qed.

Lemma readNextCode_failure_witness :
  exists buf' st2,
    readNextCode ARM32 300 (burst 5 500 false) (replicate 13 "?"%char) init =
      Done (0, buf', st2) /\
    resyncs (log st2) = 1%nat.
Proof.
  destruct (readNextCode_failure ARM32 300 (burst 5 500 false)
              (replicate 13 "?"%char) init 2 NoPulse eq_refl eq_refl)
    as [_ H].
  destruct (H (or_introl (le_S 1 1 (le_n 1)))) as (buf' & st1 & _ & _ & Hs).
  destruct (settles_idle ARM32 300 (burst 5 500 false)
              (fun _ => eq_refl) (le_n 300) st1) as (st2 & Hst2).
  exists buf', st2. exact (Hs st2 Hst2).
Defined.

(** C2 as stated fails for a long pulse followed by a short one at
    position 0: [findNextSpacer] is called. *)
Lemma readNextCode_resyncs_at_position_0 :
  first_failure (long_short_at 0) 12 0 (pcur init) = Some (0%nat, Malformed) /\
  match readNextCode ARM32 300 (long_short_at 0) (replicate 13 "?"%char) init with
  | Done (r, _, st') => r = 0 /\ resyncs (log st') = 1%nat
  | _ => False
  end.
Proof. split; [reflexivity |]. vm_compute. split; reflexivity. Qed.

(** C9: when [readNextCode] returns 1 the buffer holds twelve
    characters among '0', '1' and 'F', then the terminator at index 12;
    no 'X' is in it. *)
Theorem readNextCode_success board fuel env buf st buf' st' :
  length buf = 13%nat ->
  readNextCode board fuel env buf st = Done (1, buf', st') ->
  length buf' = 13%nat /\
  (forall i, (i < 12)%nat ->
     exists c, buf' !! i = Some c /\
               (c = "0"%char \/ c = "1"%char \/ c = "F"%char)) /\
  buf' !! 12%nat = Some NUL /\
  (forall i, buf' !! i <> Some "X"%char).
Proof.
  intros Hlen Hrun.
  destruct (readNextCode_result board fuel env buf st 1 buf' st')
    as (Hl & _ & [H | [_ [Hsym Hnul]]]); [lia | exact Hrun | discriminate |].
  split; [congruence |]. split; [exact Hsym |]. split; [exact Hnul |].
  intros i Hi. destruct (decide (i < 12)%nat) as [Hlt | Hge].
  - destruct (Hsym i Hlt) as (c & Hc & [-> | [-> | ->]]);
      rewrite Hc in Hi; discriminate.
  - destruct (decide (i = 12%nat)) as [-> | Hne].
    + rewrite Hnul in Hi. discriminate.
    + rewrite lookup_ge_None_2 in Hi by lia. discriminate.
Qed.

Lemma readNextCode_success_witness :
  let buf' := replicate 12 "0"%char ++ [NUL] in
  readNextCode AVR8 0 (burst 24 500 true) (replicate 13 "?"%char) init =
    Done (1, buf', completed init) /\
  length buf' = 13%nat /\
  (forall i, (i < 12)%nat ->
     exists c, buf' !! i = Some c /\
               (c = "0"%char \/ c = "1"%char \/ c = "F"%char)) /\
  buf' !! 12%nat = Some NUL /\
  (forall i, buf' !! i <> Some "X"%char).
Proof.
  intros buf'.
  split; [reflexivity |].
  exact (readNextCode_success AVR8 0 (burst 24 500 true)
           (replicate 13 "?"%char) init buf' (completed init) eq_refl eq_refl).
Defined.

(** C10: on a buffer of 13 characters no store of [readNextCode] is out
    of bounds, whatever the pulses and the line. *)
Theorem readNextCode_in_bounds board fuel env buf st :
  length buf = 13%nat ->
  readNextCode board fuel env buf st <> Fault.
Proof.
  intros Hlen. apply readNextCode_not_Fault. lia.
Qed.

Lemma readNextCode_in_bounds_witness :
  length (replicate 13 "?"%char) = 13%nat /\
  readNextCode ARM32 300 (long_short_at 11) (replicate 13 "?"%char) init <> Fault.
Proof.
  split; [reflexivity |].
  exact (readNextCode_in_bounds ARM32 300 (long_short_at 11)
           (replicate 13 "?"%char) init eq_refl).
Defined.

(** The stores are checked: a malformed pair at position 11 writes the
    indices 11 and 12, and with a buffer of 12 characters the same
    stream runs out of bounds. *)
Example readNextCode_malformed_at_11 :
  match readNextCode ARM32 300 (long_short_at 11) (replicate 13 "?"%char) init with
  | Done (r, buf', _) =>
      r = 0 /\ buf' = replicate 11 "0"%char ++ ["X"%char; NUL]
  | _ => False
  end.
Proof. vm_compute. split; reflexivity. Qed.

Example readNextCode_short_buffer :
  readNextCode ARM32 300 (long_short_at 11) (replicate 12 "?"%char) init = Fault.
Proof. vm_compute. reflexivity. Qed.

(** ** The reading loop *)

Section ReadCodes.

Variables (board : Board) (fuel : nat) (env : Env).

Lemma read_codes_S k i num codes valid st row :
  codes !! i = Some row -> (i < length valid)%nat ->
  read_codes board fuel env (S k) i num codes valid st =
  match readNextCode board fuel env row st with
  | Done (res, row', st') =>
      if to_int board (num + res) =? 0
      then Done (to_int board (num + res), <[i := row']> codes,
                 <[i := to_char board res]> valid, st')
      else read_codes board fuel env k (S i) (to_int board (num + res))
             (<[i := row']> codes) (<[i := to_char board res]> valid) st'
  | Spin => Spin
  | Fault => Fault
  end.
Proof.
  intros Hrow Hval. cbn [read_codes].
  rewrite (bind_load_ok codes i row) by exact Hrow.
  unfold bind at 1.
  destruct (readNextCode board fuel env row st) as [[[res row'] st'] | |];
    [| reflexivity | reflexivity].
  rewrite bind_store_ok by (eapply lookup_lt_Some; exact Hrow).
  rewrite bind_store_ok by exact Hval.
  destruct (to_int board (num + res) =? 0); reflexivity.
Qed.

(** Once an attempt has succeeded the loop runs to its end: every
    remaining attempt is made and recorded. *)
Lemma read_codes_running k : forall i num codes valid st,
  1 <= num <= Z.of_nat i ->
  (i + k = length codes)%nat -> length valid = length codes ->
  (length codes <= 17)%nat ->
  Forall (fun row : list ascii => length row = 13%nat) codes ->
  read_codes board fuel env k i num codes valid st <> Fault /\
  (settles board fuel env ->
     exists x st', read_codes board fuel env k i num codes valid st = Done (x, st')) /\
  (forall num' codes' valid' st',
     read_codes board fuel env k i num codes valid st =
       Done (num', codes', valid', st') ->
     num <= num' <= num + Z.of_nat k /\
     length codes' = length codes /\ length valid' = length valid /\
     reads (log st') = (k + reads (log st))%nat /\
     (forall j, (i <= j < i + k)%nat ->
        exists v row, valid' !! j = Some v /\ codes' !! j = Some row /\
                      attempt_ok v row) /\
     (forall j, (j < i)%nat ->
        valid' !! j = valid !! j /\ codes' !! j = codes !! j)).
Proof.
  induction k as [| k IH]; intros i num codes valid st Hnum Hik Hval Hmax Hrows.
  - split; [discriminate |]. split; [intros _; eexists _, _; reflexivity |].
    intros num' codes' valid' st' H. injection H as <- <- <- <-.
    repeat split; try lia; intros j Hj; lia.
  - destruct (lookup_lt_is_Some_2 codes i) as [row Hrow]; [lia |].
    assert (Hrow13 : length row = 13%nat).
    { rewrite Forall_lookup in Hrows. exact (Hrows i row Hrow). }
    rewrite (read_codes_S k i num codes valid st row Hrow) by lia.
    destruct (readNextCode board fuel env row st) as [[[res row'] st1] | |] eqn:Hread.
    + destruct (readNextCode_result board fuel env row st res row' st1)
        as (Hl & Hreads & Hres); [lia | exact Hread |].
      assert (Hres01 : res = 0 \/ res = 1) by tauto.
      rewrite (to_int_small board (num + res)) by lia.
      destruct (Z.eqb_spec (num + res) 0) as [E | _]; [lia |].
      destruct (IH (S i) (num + res) (<[i := row']> codes)
                  (<[i := to_char board res]> valid) st1)
        as (IHf & IHs & IHd).
      * lia.
      * rewrite length_insert. lia.
      * rewrite !length_insert. exact Hval.
      * rewrite length_insert. exact Hmax.
      * apply Forall_insert; [exact Hrows | congruence].
      * split; [exact IHf |]. split; [exact IHs |].
        intros num' codes' valid' st' H.
        destruct (IHd _ _ _ _ H) as (Hn & Hlc & Hlv & Hr & Hnew & Hold).
        rewrite length_insert in Hlc. rewrite length_insert in Hlv.
        split; [lia |]. split; [exact Hlc |]. split; [exact Hlv |].
        split; [rewrite Hr, Hreads; lia |]. split.
        -- intros j Hj. destruct (decide (j = i)) as [-> | Hne].
           ++ destruct (Hold i) as [Hv Hc]; [lia |].
              exists res, row'. rewrite Hv, Hc.
              rewrite !list_lookup_insert_eq by lia.
              rewrite (to_char_bit board res Hres01).
              split; [reflexivity |]. split; [reflexivity |].
              split; [congruence | exact Hres].
           ++ apply Hnew. lia.
        -- intros j Hj. destruct (Hold j) as [Hv Hc]; [lia |].
           rewrite Hv, Hc. rewrite !list_lookup_insert_ne by lia.
           split; reflexivity.
    + split; [discriminate |]. split; [| discriminate].
      intros Hs. destruct (readNextCode_returns board fuel env row st Hs)
        as (r & b & s & E); [lia | congruence].
    + exfalso. apply (readNextCode_not_Fault board fuel env row st); [lia | exact Hread].
Qed.

End ReadCodes.

(** ** The locals and the first attempt *)

Section Aggregate.

Variables (board : Board) (fuel : nat) (env : Env).

Lemma codes_of_rows junk :
  Forall (fun row : list ascii => length row = 13%nat) (codes_of junk).
Proof. unfold codes_of. repeat constructor. Qed.

Lemma aggregate_unfold junk st :
  aggregate board fuel env junk st =
  match read_codes board fuel env (Z.to_nat resend_count) 0 0
          (codes_of junk) (valid_of junk) st with
  | Done (num, codes, valid, st') =>
      Done (num, codes, valid, zeros, result_of junk, st')
  | Spin => Spin
  | Fault => Fault
  end.
Proof.
  unfold aggregate, bind at 1.
  change (lift (zero_majority 12 0 _) st) with (Done (zeros, st)).
  unfold bind.
  destruct (read_codes board fuel env (Z.to_nat resend_count) 0 0
              (codes_of junk) (valid_of junk) st) as [[[[num codes] valid] st'] | |];
    reflexivity.
Qed.

(** The loop after its first call of [readNextCode]. *)
Lemma read_codes_first junk st :
  read_codes board fuel env (Z.to_nat resend_count) 0 0
    (codes_of junk) (valid_of junk) st =
  match readNextCode board fuel env (junk_codes junk 0 <$> seq 0 13) st with
  | Done (res, row', st') =>
      if to_int board (0 + res) =? 0
      then Done (to_int board (0 + res), <[0%nat := row']> (codes_of junk),
                 <[0%nat := to_char board res]> (valid_of junk), st')
      else read_codes board fuel env 16 1 (to_int board (0 + res))
             (<[0%nat := row']> (codes_of junk))
             (<[0%nat := to_char board res]> (valid_of junk)) st'
  | Spin => Spin
  | Fault => Fault
  end.
Proof.
  change (Z.to_nat resend_count) with 17%nat.
  apply read_codes_S; [reflexivity | simpl; lia].
Qed.

Lemma aggregate_first_fails junk st row' st1 :
  readNextCode board fuel env (junk_codes junk 0 <$> seq 0 13) st =
    Done (0, row', st1) ->
  aggregate board fuel env junk st =
    Done (0, <[0%nat := row']> (codes_of junk),
          <[0%nat := to_char board 0]> (valid_of junk), zeros, result_of junk, st1).
Proof.
  intros H. rewrite aggregate_unfold, read_codes_first, H.
  destruct board; reflexivity.
Qed.

Lemma aggregate_first_succeeds junk st row' st1 :
  readNextCode board fuel env (junk_codes junk 0 <$> seq 0 13) st =
    Done (1, row', st1) ->
  aggregate board fuel env junk st =
  match read_codes board fuel env 16 1 1 (<[0%nat := row']> (codes_of junk))
          (<[0%nat := 1]> (valid_of junk)) st1 with
  | Done (num, codes, valid, st') =>
      Done (num, codes, valid, zeros, result_of junk, st')
  | Spin => Spin
  | Fault => Fault
  end.
Proof.
  intros H. rewrite aggregate_unfold, read_codes_first, H.
  destruct board; reflexivity.
Qed.

Lemma first_row_written junk row' :
  length row' = 13%nat ->
  Forall (fun row : list ascii => length row = 13%nat)
    (<[0%nat := row']> (codes_of junk)).
Proof. intros H. apply Forall_insert; [apply codes_of_rows | exact H]. Qed.

(** What the reading loop hands over: no success at all, or every
    attempt made and recorded. *)
Lemma aggregate_result junk st num codes valid majority result st' :
  aggregate board fuel env junk st =
    Done (num, codes, valid, majority, result, st') ->
  majority = zeros /\ result = result_of junk /\
  (num = 0 \/ (1 <= num /\ attempts_ok valid codes)).
Proof.
  intros H.
  destruct (readNextCode board fuel env (junk_codes junk 0 <$> seq 0 13) st)
    as [[[res row'] st1] | |] eqn:Hread.
  - destruct (readNextCode_result board fuel env
                (junk_codes junk 0 <$> seq 0 13) st res row' st1)
      as (Hl & _ & [-> | [-> Hcomp]]); [simpl; lia | exact Hread | |].
    + rewrite (aggregate_first_fails junk st row' st1 Hread) in H.
      injection H as <- <- <- <- <- <-. tauto.
    + rewrite (aggregate_first_succeeds junk st row' st1 Hread) in H.
      destruct (read_codes board fuel env 16 1 1 _ _ st1)
        as [[[[n c] v] s] | |] eqn:Hloop; try discriminate.
      injection H as <- <- <- <- <- <-.
      destruct (read_codes_running board fuel env 16 1 1
                  (<[0%nat := row']> (codes_of junk))
                  (<[0%nat := 1]> (valid_of junk)) st1)
        as (_ & _ & Hpost);
        [lia | reflexivity | reflexivity | simpl; lia
        | apply first_row_written; exact Hl |].
      destruct (Hpost _ _ _ _ Hloop) as (Hn & _ & _ & _ & Hnew & Hold).
      split; [reflexivity |]. split; [reflexivity |]. right. split; [lia |].
      intros i Hi. change (Z.to_nat resend_count) with 17%nat in Hi.
      destruct (decide (i = 0%nat)) as [-> | Hne].
      * destruct (Hold 0%nat) as [Hv Hc]; [lia |].
        exists 1, row'. rewrite Hv, Hc.
        split; [reflexivity |]. split; [reflexivity |].
        split; [exact Hl | right; split; [reflexivity | exact Hcomp]].
      * apply Hnew. lia.
  - rewrite aggregate_unfold, read_codes_first, Hread in H. discriminate.
  - rewrite aggregate_unfold, read_codes_first, Hread in H. discriminate.
Qed.

End Aggregate.

(** C7 says that after a first success the reading loop makes all
    [resend_count] calls of [readNextCode], whatever the later ones
    return.  With a 16-bit [int] it does not: on a line that stays high,
    with 27 short pulses, the first call returns 1 and the second call
    reaches [findNextSpacer] at position 1 (the pulse is missing) and
    never comes back, whatever the iteration budget.  The reading loop,
    and [loop] with it, is still in its second call: 2 calls, not 17.
    This is the defect of C8, met from the reading loop. *)
Theorem aggregate_avr8_hangs fuel junk :
  (exists row' st1,
     readNextCode AVR8 fuel (burst 27 500 true)
       (junk_codes junk 0 <$> seq 0 13) init = Done (1, row', st1) /\
     reads (log st1) = 1%nat /\
     readNextCode AVR8 fuel (burst 27 500 true)
       (junk_codes junk 1 <$> seq 0 13) st1 = Spin) /\
  aggregate AVR8 fuel (burst 27 500 true) junk init = Spin /\
  loop AVR8 fuel (burst 27 500 true) junk init = Spin.
Proof.
  destruct (readNextCode_spec AVR8 fuel (burst 27 500 true)
              (junk_codes junk 0 <$> seq 0 13) init) as (Ha & _ & _);
    [simpl; lia |].
  assert (F1 : first_failure (burst 27 500 true) 12 0 (pcur init) = None)
    by (vm_compute; reflexivity).
  destruct (Ha F1) as (row' & H1 & Hl & _).
  destruct (readNextCode_spec AVR8 fuel (burst 27 500 true)
              (junk_codes junk 1 <$> seq 0 13) (completed init))
    as (_ & _ & Hc); [simpl; lia |].
  assert (F2 : first_failure (burst 27 500 true) 12 0 (pcur (completed init))
               = Some (1%nat, NoPulse))
    by (vm_compute; reflexivity).
  destruct (Hc 1%nat NoPulse F2 (or_introl (le_n 1)))
    as (b & s & _ & _ & H2).
  assert (H2' : readNextCode AVR8 fuel (burst 27 500 true)
                  (junk_codes junk 1 <$> seq 0 13) (completed init) = Spin).
  { rewrite H2. unfold resync_and_fail.
    rewrite findNextSpacer_avr8_high by (intros k; reflexivity).
    reflexivity. }
  assert (Hagg : aggregate AVR8 fuel (burst 27 500 true) junk init = Spin).
  { rewrite (aggregate_first_succeeds AVR8 fuel (burst 27 500 true)
               junk init row' (completed init) H1).
    rewrite (read_codes_S AVR8 fuel (burst 27 500 true) 15 1 1 _ _ _
               (junk_codes junk 1 <$> seq 0 13));
      [rewrite H2'; reflexivity | reflexivity | simpl; lia]. }
  split.
  - exists row', (completed init).
    split; [exact H1 |]. split; [reflexivity | exact H2'].
  - split; [exact Hagg |]. unfold loop, bind. rewrite Hagg. reflexivity.
Qed.

(** X17: if the first call of [readNextCode] returns 0, the reading loop
    returns after this one call.  If it returns 1, every run of the
    reading loop that returns has made all [resend_count] calls,
    whatever the later ones returned; and the reading loop does return
    when [findNextSpacer] returns from every state, as it does with a
    32-bit [int]. *)
Theorem aggregate_invocations board fuel env junk st :
  (forall row' st1,
     readNextCode board fuel env (junk_codes junk 0 <$> seq 0 13) st =
       Done (0, row', st1) ->
     exists x,
       aggregate board fuel env junk st = Done (x, st1) /\
       reads (log st1) = S (reads (log st))) /\
  (forall row' st1,
     readNextCode board fuel env (junk_codes junk 0 <$> seq 0 13) st =
       Done (1, row', st1) ->
     (forall x st2,
        aggregate board fuel env junk st = Done (x, st2) ->
        reads (log st2) = (Z.to_nat resend_count + reads (log st))%nat) /\
     (settles board fuel env ->
        exists x st2, aggregate board fuel env junk st = Done (x, st2))).
Proof.
  split.
  - intros row' st1 H.
    rewrite (aggregate_first_fails board fuel env junk st row' st1 H).
    eexists. split; [reflexivity |].
    apply (readNextCode_result board fuel env
             (junk_codes junk 0 <$> seq 0 13) st 0 row' st1);
      [simpl; lia | exact H].
  - intros row' st1 H.
    rewrite (aggregate_first_succeeds board fuel env junk st row' st1 H).
    destruct (readNextCode_result board fuel env
                (junk_codes junk 0 <$> seq 0 13) st 1 row' st1)
      as (Hl & Hreads & _); [simpl; lia | exact H |].
    destruct (read_codes_running board fuel env 16 1 1
                (<[0%nat := row']> (codes_of junk))
                (<[0%nat := 1]> (valid_of junk)) st1)
      as (_ & Hret & Hpost);
      [lia | reflexivity | reflexivity | simpl; lia
      | apply first_row_written; exact Hl |].
    split.
    + intros x st2 E.
      destruct (read_codes board fuel env 16 1 1 _ _ st1)
        as [[[[n c] v] s] | |] eqn:Hloop; try discriminate.
      injection E as <- <-.
      destruct (Hpost _ _ _ _ eq_refl) as (_ & _ & _ & Hr & _).
      rewrite Hr, Hreads. reflexivity.
    + intros Hs. destruct (Hret Hs) as ([[n c] v] & s & ->). eauto.
Qed.

Lemma aggregate_invocations_witness :
  (exists x st1,
     aggregate AVR8 300 (burst 0 0 false) some_stack init = Done (x, st1) /\
     reads (log st1) = 1%nat) /\
  (exists x st2,
     aggregate ARM32 5000 (burst 27 500 true) some_stack init = Done (x, st2) /\
     reads (log st2) = 17%nat /\ resyncs (log st2) = 1%nat).
Proof.
  split.
  - destruct (aggregate_invocations AVR8 300 (burst 0 0 false) some_stack init)
      as [H _].
    assert (Hrun : readNextCode AVR8 300 (burst 0 0 false)
                     (junk_codes some_stack 0 <$> seq 0 13) init =
                   Done (0, replicate 13 "?"%char, pulsed 1 (called init)))
      by (vm_compute; reflexivity).
    destruct (H _ _ Hrun) as (x & E & Hr).
    exists x, (pulsed 1 (called init)). split; [exact E | exact Hr].
  - destruct (aggregate_invocations ARM32 5000 (burst 27 500 true)
                some_stack init) as [_ H].
    assert (Hrun : readNextCode ARM32 5000 (burst 27 500 true)
                     (junk_codes some_stack 0 <$> seq 0 13) init =
                   Done (1, replicate 12 "0"%char ++ [NUL], completed init))
      by (vm_compute; reflexivity).
    destruct (H _ _ Hrun) as [Hall Hret].
    destruct (Hret (settles_arm32 5000 (burst 27 500 true) (le_n 5000)))
      as (x & st2 & E).
    exists x, st2. split; [exact E |]. split; [exact (Hall x st2 E) |].
    vm_compute in E. injection E as _ <-. vm_compute. reflexivity.
Defined.

(** ** The counters *)

Lemma bind_lift_Done {A B} (o : outcome A) a (k : A -> M B) st :
  o = Done a -> (x <- lift o ;; k x) st = k a st.
Proof. intros ->. reflexivity. Qed.

Lemma bind_emit {B} e (k : M B) st : (emit e ;;; k) st = k (logged [e] st).
Proof. reflexivity. Qed.

Lemma logged_logged a b st : logged a (logged b st) = logged (a ++ b) st.
Proof. unfold logged. simpl. rewrite app_assoc. reflexivity. Qed.

Lemma sym_inj c c' : (c < 3)%nat -> (c' < 3)%nat -> sym c = sym c' -> c = c'.
Proof.
  intros Hc Hc'.
  destruct c as [| [| [| c]]]; destruct c' as [| [| [| c']]];
    simpl; intros H; first [reflexivity | discriminate | lia].
Qed.

Lemma is_symbol_sym ch : is_symbol ch -> exists c, (c < 3)%nat /\ ch = sym c.
Proof.
  intros [-> | [-> | ->]];
    [exists 0%nat | exists 1%nat | exists 2%nat]; split; first [lia | reflexivity].
Qed.

Lemma tally_cell_sym c j majority :
  (c < 3)%nat -> tally_cell (sym c) j majority = bump majority j c.
Proof. intros Hc. destruct c as [| [| [| c]]]; first [reflexivity | lia]. Qed.

Lemma bump_spec majority p c :
  dims majority -> (p < 12)%nat -> (c < 3)%nat ->
  exists majority',
    bump majority p c = Done majority' /\ dims majority' /\
    cell majority' p c = to_uchar (cell majority p c + 1) /\
    (forall p' c', p' <> p \/ c' <> c ->
       cell majority' p' c' = cell majority p' c').
Proof.
  intros [Hlen Hrows] Hp Hc.
  destruct (lookup_lt_is_Some_2 majority p) as [row Hrow]; [lia |].
  assert (Hrow3 : length row = 3%nat)
    by (rewrite Forall_lookup in Hrows; exact (Hrows p row Hrow)).
  destruct (lookup_lt_is_Some_2 row c) as [x Hx]; [lia |].
  exists (<[p := <[c := to_uchar (x + 1)]> row]> majority).
  split; [| split; [| split]].
  - unfold bump, load, store, obind. rewrite Hrow, Hx.
    rewrite decide_True by lia. rewrite decide_True by lia. reflexivity.
  - split; [rewrite length_insert; exact Hlen |].
    apply Forall_insert; [exact Hrows | rewrite length_insert; exact Hrow3].
  - unfold cell. rewrite list_lookup_insert_eq by lia.
    rewrite list_lookup_insert_eq by lia. rewrite Hrow, Hx. reflexivity.
  - intros p' c' Hne. unfold cell.
    destruct (decide (p' = p)) as [-> | Hp'].
    + rewrite list_lookup_insert_eq by lia. rewrite Hrow.
      rewrite list_lookup_insert_ne by (destruct Hne; congruence). reflexivity.
    + rewrite list_lookup_insert_ne by congruence. reflexivity.
Qed.

(** One completed row: every column [p] gets one more vote for the
    symbol the row holds at [p]. *)
Lemma tally_row_spec row k : forall j majority,
  dims majority -> (j + k <= 12)%nat ->
  (forall q, (q < 12)%nat -> exists ch, row !! q = Some ch /\ is_symbol ch) ->
  exists majority',
    tally_row k j row majority = Done majority' /\ dims majority' /\
    forall p c, (c < 3)%nat ->
      cell majority' p c =
      if bool_decide ((j <= p < j + k)%nat /\ row !! p = Some (sym c))
      then to_uchar (cell majority p c + 1)
      else cell majority p c.
Proof.
  induction k as [| k IH]; intros j majority Hdims Hjk Hrow.
  - exists majority. split; [reflexivity |]. split; [exact Hdims |].
    intros p c Hc. rewrite bool_decide_eq_false_2; [reflexivity | lia].
  - destruct (Hrow j) as (ch & Hch & Hsym); [lia |].
    apply is_symbol_sym in Hsym as (cj & Hcj & ->).
    destruct (bump_spec majority j cj Hdims) as (m1 & Hbump & Hd1 & Hhit & Hmiss);
      [lia | exact Hcj |].
    destruct (IH (S j) m1 Hd1) as (m' & Hrun & Hd' & Hcells); [lia | exact Hrow |].
    exists m'. split; [| split; [exact Hd' |]].
    + cbn [tally_row]. unfold load, obind at 1. rewrite Hch.
      rewrite tally_cell_sym by exact Hcj. rewrite Hbump. exact Hrun.
    + intros p c Hc. rewrite (Hcells p c Hc).
      destruct (decide (p = j)) as [-> | Hpj].
      * rewrite bool_decide_eq_false_2 by lia.
        destruct (decide (c = cj)) as [-> | Hne].
        -- rewrite bool_decide_eq_true_2 by (split; [lia | exact Hch]).
           exact Hhit.
        -- rewrite bool_decide_eq_false_2.
           ++ apply Hmiss. right. exact Hne.
           ++ intros [_ H]. rewrite Hch in H. injection H as H.
              apply sym_inj in H; [congruence | exact Hcj | exact Hc].
      * rewrite (Hmiss p c) by (left; exact Hpj).
        destruct (bool_decide_reflect
                    ((S j <= p < S j + k)%nat /\ row !! p = Some (sym c)))
          as [[H1 H2] | Hn].
        -- rewrite bool_decide_eq_true_2 by (split; [lia | exact H2]).
           reflexivity.
        -- rewrite bool_decide_eq_false_2; [reflexivity |].
           intros [H1 H2]. apply Hn. split; [lia | exact H2].
Qed.

(** A completed code is a C string of twelve characters. *)
Lemma cstring_symbols n : forall buf,
  (forall i, (i < n)%nat -> exists c, buf !! i = Some c /\ c <> NUL) ->
  buf !! n = Some NUL ->
  exists s, cstring buf = Done s /\ String.length s = n.
Proof.
  induction n as [| n IH]; intros buf Hsym Hnul.
  - destruct buf as [| c buf]; [discriminate |].
    injection Hnul as ->. exists EmptyString. split; reflexivity.
  - destruct (Hsym 0%nat) as (c & Hc & Hne); [lia |].
    destruct buf as [| c' buf]; [discriminate |]. injection Hc as ->.
    destruct (IH buf) as (s & Hs & Hlen).
    + intros i Hi. apply (Hsym (S i)). lia.
    + exact Hnul.
    + exists (String c s). cbn [cstring].
      destruct (Ascii.eqb_spec c NUL) as [E | _]; [contradiction |].
      rewrite Hs. split; [reflexivity | simpl; congruence].
Qed.

Lemma is_symbol_not_NUL c : is_symbol c -> c <> NUL.
Proof. intros [-> | [-> | ->]]; discriminate. Qed.

Lemma cstring_complete buf :
  complete buf -> exists s, cstring buf = Done s /\ String.length s = 12%nat.
Proof.
  intros [Hsym Hnul]. apply cstring_symbols; [| exact Hnul].
  intros i Hi. destruct (Hsym i Hi) as (c & Hc & Hs).
  exists c. split; [exact Hc | apply is_symbol_not_NUL, Hs].
Qed.

(** ** The debug listing and the column counts *)

Lemma debug_lines_app_le n : forall a b,
  (length a <= n)%nat ->
  debug_lines a = true -> debug_lines b = true -> debug_lines (a ++ b) = true.
Proof.
  induction n as [| n IH]; intros a b Hn Ha Hb.
  - destruct a; [exact Hb | simpl in Hn; lia].
  - destruct a as [| e a]; [exact Hb |].
    destruct e; try discriminate. cbn [debug_lines app] in *.
    destruct (String.eqb s "DEBUG: <<Invalid>>").
    + apply IH; [simpl in Hn; lia | exact Ha | exact Hb].
    + destruct a as [| e' a]; [discriminate |].
      destruct e'; try discriminate. cbn [app].
      apply andb_true_iff in Ha as [Ht Ha]. rewrite Ht. simpl.
      apply IH; [simpl in Hn; lia | exact Ha | exact Hb].
Qed.

Lemma debug_lines_app a b :
  debug_lines a = true -> debug_lines b = true -> debug_lines (a ++ b) = true.
Proof. apply (debug_lines_app_le (length a)). lia. Qed.

Lemma length_12_not_invalid s :
  String.length s = 12%nat -> String.eqb s "DEBUG: <<Invalid>>" = false.
Proof.
  intros H. destruct (String.eqb_spec s "DEBUG: <<Invalid>>") as [-> | _];
    [discriminate | reflexivity].
Qed.

Lemma votes_in_S k i valid codes p c :
  votes_in (S k) i valid codes p c =
  (if is_vote valid codes p c i then 1 else 0) + votes_in k (S i) valid codes p c.
Proof.
  unfold votes_in. cbn [seq List.filter].
  destruct (is_vote valid codes p c i); cbn [length]; lia.
Qed.

Lemma votes_in_bounds k i valid codes p c :
  0 <= votes_in k i valid codes p c <= Z.of_nat k.
Proof.
  unfold votes_in. split; [lia |].
  pose proof (List.filter_length_le (is_vote valid codes p c) (seq i k)) as H.
  rewrite length_seq in H. lia.
Qed.

(** The listing loop on recorded attempts: it returns, writes debug
    lines only, and adds to every counter the votes of the attempts it
    went through. *)
Lemma dump_codes_spec codes valid k : forall i majority st,
  dims majority ->
  (forall j, (i <= j < i + k)%nat ->
     exists v row, valid !! j = Some v /\ codes !! j = Some row /\
                   attempt_ok v row) ->
  (forall p c, (p < 12)%nat -> (c < 3)%nat ->
     0 <= cell majority p c /\ cell majority p c + Z.of_nat k <= 255) ->
  exists majority' dl,
    dump_codes k i codes valid majority st = Done (majority', logged dl st) /\
    debug_lines dl = true /\ dims majority' /\
    forall p c, (p < 12)%nat -> (c < 3)%nat ->
      cell majority' p c =
      cell majority p c + votes_in k i valid codes p (sym c).
Proof.
  induction k as [| k IH]; intros i majority st Hdims Hatt Hbound.
  - exists majority, []. split; [destruct st; reflexivity |].
    split; [reflexivity |]. split; [exact Hdims |].
    intros p c _ _. unfold votes_in. simpl. lia.
  - destruct (Hatt i) as (v & row & Hv & Hrow & Hlen & Hok); [lia |].
    cbn [dump_codes]. rewrite (bind_load_ok valid i v) by exact Hv.
    destruct Hok as [-> | [-> Hcomp]].
    + (* a failed attempt *)
      simpl (0 =? 0). cbv iota. unfold Serial_println. rewrite bind_emit.
      destruct (IH (S i) majority (logged [Println_str "DEBUG: <<Invalid>>"] st)
                  Hdims)
        as (m' & dl & Hrun & Hdl & Hd' & Hcells).
      * intros j Hj. apply Hatt. lia.
      * intros p c Hp Hc. specialize (Hbound p c Hp Hc). lia.
      * exists m', (dl ++ [Println_str "DEBUG: <<Invalid>>"]).
        rewrite Hrun, logged_logged. split; [reflexivity |].
        split; [apply debug_lines_app; [exact Hdl | reflexivity] |].
        split; [exact Hd' |].
        intros p c Hp Hc. rewrite (Hcells p c Hp Hc), votes_in_S.
        unfold is_vote. rewrite Hv, Hrow. simpl. lia.
    + (* a completed code *)
      simpl (1 =? 0). cbv iota. unfold Serial_print, Serial_println.
      rewrite bind_emit. rewrite (bind_load_ok codes i row) by exact Hrow.
      destruct (cstring_complete row Hcomp) as (s & Hs & Hslen).
      rewrite (bind_lift_Done (cstring row) s) by exact Hs.
      rewrite bind_emit, logged_logged.
      destruct (tally_row_spec row 12 0 majority Hdims)
        as (m1 & Htally & Hd1 & Hcells1); [lia | apply Hcomp |].
      rewrite (bind_lift_Done (tally_row 12 0 row majority) m1) by exact Htally.
      assert (Hstep : forall p c, (p < 12)%nat -> (c < 3)%nat ->
                cell m1 p c =
                cell majority p c +
                (if is_vote valid codes p (sym c) i then 1 else 0)).
      { intros p c Hp Hc. rewrite (Hcells1 p c Hc).
        unfold is_vote. rewrite Hv, Hrow. simpl negb. rewrite andb_true_l.
        destruct (bool_decide_reflect (row !! p = Some (sym c))) as [E | E].
        - rewrite bool_decide_eq_true_2 by (split; [lia | exact E]).
          specialize (Hbound p c Hp Hc). unfold to_uchar.
          rewrite Z.mod_small; [reflexivity |]. change (2 ^ 8) with 256. lia.
        - rewrite bool_decide_eq_false_2 by tauto. lia. }
      destruct (IH (S i) m1 (logged ([Println_str s] ++ [Print_str "DEBUG: "]) st)
                  Hd1)
        as (m' & dl & Hrun & Hdl & Hd' & Hcells).
      * intros j Hj. apply Hatt. lia.
      * intros p c Hp Hc. rewrite (Hstep p c Hp Hc).
        specialize (Hbound p c Hp Hc).
        destruct (is_vote valid codes p (sym c) i); lia.
      * exists m', (dl ++ [Println_str s] ++ [Print_str "DEBUG: "]).
        rewrite Hrun, logged_logged. split; [reflexivity |].
        split.
        { apply debug_lines_app; [exact Hdl |].
          cbn [debug_lines app]. rewrite (length_12_not_invalid s Hslen).
          reflexivity. }
        split; [exact Hd' |].
        intros p c Hp Hc. rewrite (Hcells p c Hp Hc), votes_in_S.
        rewrite (Hstep p c Hp Hc). lia.
Qed.

(** ** The vote *)

Lemma vote_is_symbol m0 m1 m2 : is_symbol (vote m0 m1 m2).
Proof.
  unfold vote, is_symbol.
  destruct ((m1 <? m0) && (m2 <? m0)); [tauto |].
  destruct (m2 <? m1); tauto.
Qed.

Lemma cell_zeros p c : cell zeros p c = 0.
Proof.
  unfold cell, zeros.
  destruct (replicate 12 [0; 0; 0] !! p) as [row |] eqn:Hrow; [| reflexivity].
  apply lookup_replicate_1 in Hrow as [-> _].
  destruct c as [| [| [| c]]]; reflexivity.
Qed.

Lemma dims_zeros : dims zeros.
Proof. split; [reflexivity | apply Forall_replicate; reflexivity]. Qed.

Lemma pick_majority_spec majority k : forall i result,
  dims majority -> (i + k <= 12)%nat -> (i + k <= length result)%nat ->
  exists res,
    pick_majority k i majority result = Done res /\
    length res = length result /\
    (forall p, (i <= p < i + k)%nat ->
       res !! p = Some (vote (cell majority p 0) (cell majority p 1)
                             (cell majority p 2))) /\
    (forall p, (p < i)%nat \/ (i + k <= p)%nat -> res !! p = result !! p).
Proof.
  induction k as [| k IH]; intros i result Hdims Hik Hlen.
  - exists result. split; [reflexivity |]. split; [reflexivity |].
    split; [intros p Hp; lia | reflexivity].
  - destruct Hdims as [Hl Hrows].
    destruct (lookup_lt_is_Some_2 majority i) as [row Hrow]; [lia |].
    assert (Hrow3 : length row = 3%nat)
      by (rewrite Forall_lookup in Hrows; exact (Hrows i row Hrow)).
    destruct row as [| m0 [| m1 [| m2 [| ? ?]]]]; try discriminate.
    destruct (IH (S i) (<[i := vote m0 m1 m2]> result) (conj Hl Hrows))
      as (res & Hrun & Hlr & Hnew & Hold);
      [lia | rewrite length_insert; lia |].
    exists res. split; [| split; [| split]].
    + cbn [pick_majority]. unfold load, obind at 1. rewrite Hrow.
      cbn [lookup list_lookup obind]. unfold store, obind at 1.
      rewrite decide_True by lia. exact Hrun.
    + rewrite Hlr. apply length_insert.
    + intros p Hp. destruct (decide (p = i)) as [-> | Hne].
      * rewrite Hold by lia. rewrite list_lookup_insert_eq by lia.
        unfold cell. rewrite Hrow. reflexivity.
      * apply Hnew. lia.
    + intros p Hp. rewrite Hold by lia. apply list_lookup_insert_ne. lia.
Qed.

(** What lines 191-226 do on the attempts the reading loop has
    recorded. *)
Lemma report_spec codes valid result st :
  attempts_ok valid codes -> length result = 13%nat ->
  exists res s dl,
    report codes valid zeros result st =
      Done (res, logged ([Delay_ms 1250; Println_str "DEBUG: ####";
                          Println_str s] ++ dl ++
                         [Println_str "DEBUG: ####"]) st) /\
    debug_lines dl = true /\
    cstring res = Done s /\ String.length s = 12%nat /\
    length res = 13%nat /\ res !! 12%nat = Some NUL /\
    forall p, (p < 12)%nat ->
      res !! p = Some (vote (votes valid codes p "0"%char)
                            (votes valid codes p "1"%char)
                            (votes valid codes p "F"%char)).
Proof.
  intros Hatt Hlen.
  destruct (dump_codes_spec codes valid (Z.to_nat resend_count) 0 zeros
              (logged [Println_str "DEBUG: ####"] st) dims_zeros)
    as (m' & dl & Hdump & Hdl & Hd' & Hcells).
  { intros j Hj. apply Hatt. lia. }
  { intros p c _ _. rewrite cell_zeros. unfold resend_count. lia. }
  destruct (pick_majority_spec m' 12 0 result Hd') as (res1 & Hpick & Hl1 & Hnew & _);
    [lia | lia |].
  assert (Hvotes : forall p, (p < 12)%nat ->
            <[12%nat := NUL]> res1 !! p =
            Some (vote (votes valid codes p "0"%char)
                       (votes valid codes p "1"%char)
                       (votes valid codes p "F"%char))).
  { intros p Hp. rewrite list_lookup_insert_ne by lia.
    rewrite Hnew by lia.
    rewrite !Hcells by lia. rewrite !cell_zeros. reflexivity. }
  assert (Hnul : <[12%nat := NUL]> res1 !! 12%nat = Some NUL)
    by (apply list_lookup_insert_eq; lia).
  destruct (cstring_complete (<[12%nat := NUL]> res1)) as (s & Hs & Hslen).
  { split; [| exact Hnul].
    intros p Hp. eexists. split; [apply Hvotes; exact Hp | apply vote_is_symbol]. }
  exists (<[12%nat := NUL]> res1), s, dl.
  split; [| split; [exact Hdl | split; [exact Hs | split; [exact Hslen |]]]].
  - unfold report, Serial_println, delay. rewrite bind_emit.
    rewrite (bind_Done _ _ _ _ _ Hdump).
    rewrite (bind_lift_Done _ res1) by exact Hpick.
    rewrite bind_store_ok by lia.
    rewrite (bind_lift_Done _ s) by exact Hs.
    rewrite !bind_emit. unfold ret. rewrite !logged_logged.
    rewrite <- !app_assoc. reflexivity.
  - split; [rewrite length_insert; congruence |].
    split; [exact Hnul | exact Hvotes].
Qed.

(** C1, as the code has it: at every position p < 12, with c0, c1 and
    c2 the numbers of valid attempts that hold '0', '1' and 'F' at p,
    the vote is '0' iff c0 > c1 and c0 > c2; otherwise it is '1' iff
    c1 > c2; otherwise it is 'F'.  The counts (3,1,1) give '0', the
    counts (1,2,2) and (1,1,2) give 'F'. *)
Theorem majority_vote codes valid result st p :
  attempts_ok valid codes -> length result = 13%nat -> (p < 12)%nat ->
  let c0 := votes valid codes p "0"%char in
  let c1 := votes valid codes p "1"%char in
  let c2 := votes valid codes p "F"%char in
  (exists res st',
     report codes valid zeros result st = Done (res, st') /\
     (res !! p = Some "0"%char <-> c0 > c1 /\ c0 > c2) /\
     (res !! p = Some "1"%char <-> ~ (c0 > c1 /\ c0 > c2) /\ c1 > c2) /\
     (res !! p = Some "F"%char <-> ~ (c0 > c1 /\ c0 > c2) /\ ~ c1 > c2)) /\
  vote 3 1 1 = "0"%char /\ vote 1 2 2 = "F"%char /\ vote 1 1 2 = "F"%char.
Proof.
  intros Hatt Hlen Hp c0 c1 c2. split; [| repeat split; reflexivity].
  destruct (report_spec codes valid result st Hatt Hlen)
    as (res & s & dl & Hrun & _ & _ & _ & _ & _ & Hvotes).
  exists res. eexists. split; [exact Hrun |].
  rewrite (Hvotes p Hp). fold c0 c1 c2.
  destruct (vote_rule c0 c1 c2) as (H0 & H1 & H2).
  split; [| split].
  - rewrite <- H0. split; [intros H; injection H as H; exact H | congruence].
  - rewrite <- H1. split; [intros H; injection H as H; exact H | congruence].
  - rewrite <- H2. split; [intros H; injection H as H; exact H | congruence].
Qed.

Lemma attempts_recorded firsts :
  (length firsts <= 17)%nat -> Forall is_symbol firsts ->
  attempts_ok (flags firsts) (attempts firsts).
Proof.
  intros Hn Hsym i Hi. change (Z.to_nat resend_count) with 17%nat in Hi.
  unfold flags, attempts.
  destruct (decide (i < length firsts)%nat) as [Hlt | Hge].
  - destruct (lookup_lt_is_Some_2 firsts i Hlt) as [c Hc].
    exists 1, ((c :: replicate 11 "0"%char) ++ [NUL]).
    split; [rewrite lookup_app_l by (rewrite length_replicate; lia);
            apply lookup_replicate_2; lia |].
    split; [rewrite lookup_app_l by (rewrite length_fmap; lia);
            rewrite list_lookup_fmap, Hc; reflexivity |].
    split; [reflexivity |]. right. split; [reflexivity |].
    assert (Hcs : is_symbol c)
      by (rewrite Forall_lookup in Hsym; exact (Hsym i c Hc)).
    split; [| reflexivity].
    intros q Hq. destruct q as [| q].
    + exists c. split; [reflexivity | exact Hcs].
    + exists "0"%char. split; [| left; reflexivity].
      change (((c :: replicate 11 "0"%char) ++ [NUL]) !! S q)
        with ((replicate 11 "0"%char ++ [NUL]) !! q).
      rewrite lookup_app_l by (rewrite length_replicate; lia).
      apply lookup_replicate_2. lia.
  - exists 0, (replicate 13 "?"%char).
    split; [rewrite lookup_app_r by (rewrite length_replicate; lia);
            apply lookup_replicate_2; rewrite length_replicate; lia |].
    split; [rewrite lookup_app_r by (rewrite length_fmap; lia);
            apply lookup_replicate_2; rewrite length_fmap; lia |].
    split; [reflexivity | left; reflexivity].
Qed.

Lemma majority_vote_witness :
  votes (flags ["0"; "0"; "0"; "1"; "F"]%char)
        (attempts ["0"; "0"; "0"; "1"; "F"]%char) 0 "0"%char = 3 /\
  exists res st',
    report (attempts ["0"; "0"; "0"; "1"; "F"]%char)
           (flags ["0"; "0"; "0"; "1"; "F"]%char)
           zeros (replicate 13 "!"%char) init = Done (res, st') /\
    res !! 0%nat = Some "0"%char.
Proof.
  split; [vm_compute; reflexivity |].
  destruct (majority_vote (attempts ["0"; "0"; "0"; "1"; "F"]%char)
              (flags ["0"; "0"; "0"; "1"; "F"]%char)
              (replicate 13 "!"%char) init 0)
    as [(res & st' & Hrun & H0 & _) _].
  - apply attempts_recorded; [simpl; lia |].
    repeat constructor; unfold is_symbol; tauto.
  - reflexivity.
  - lia.
  - exists res, st'. split; [exact Hrun |]. apply H0.
    split; vm_compute; reflexivity.
Defined.

(** C1 as stated fails on the counts (1,2,2): with the attempts 1, 1,
    F, F, 0 at position 0 the vote is 'F', not '1'. *)
Lemma majority_vote_tie :
  votes (flags ["1"; "1"; "F"; "F"; "0"]%char)
        (attempts ["1"; "1"; "F"; "F"; "0"]%char) 0 "0"%char = 1 /\
  votes (flags ["1"; "1"; "F"; "F"; "0"]%char)
        (attempts ["1"; "1"; "F"; "F"; "0"]%char) 0 "1"%char = 2 /\
  votes (flags ["1"; "1"; "F"; "F"; "0"]%char)
        (attempts ["1"; "1"; "F"; "F"; "0"]%char) 0 "F"%char = 2 /\
  vote 1 2 2 <> "1"%char /\
  match report (attempts ["1"; "1"; "F"; "F"; "0"]%char)
               (flags ["1"; "1"; "F"; "F"; "0"]%char)
               zeros (replicate 13 "!"%char) init with
  | Done (res, _) => res !! 0%nat = Some "F"%char
  | _ => False
  end.
Proof.
  split; [vm_compute; reflexivity |].
  split; [vm_compute; reflexivity |].
  split; [vm_compute; reflexivity |].
  split; [discriminate |].
  vm_compute. reflexivity.
Qed.

(** ** The cycle *)

Lemma loop_unfold board fuel env junk st num codes valid majority result st1 :
  aggregate board fuel env junk st =
    Done (num, codes, valid, majority, result, st1) ->
  loop board fuel env junk st =
  if 3 <? num
  then match report codes valid majority result st1 with
       | Done (_, st2) => Done (tt, st2)
       | Spin => Spin
       | Fault => Fault
       end
  else Done (tt, st1).
Proof.
  intros H. unfold loop. rewrite (bind_Done _ _ _ _ _ H).
  destruct (3 <? num); [| reflexivity].
  unfold bind.
  destruct (report codes valid majority result st1) as [[res st2] | |];
    reflexivity.
Qed.

(** C6: when the reading loop ends with at most 3 successes (so with
    exactly 3), [loop] returns at once, in the state the reading loop
    left: nothing is printed and nothing is waited for.  With more than
    3 successes it prints the debug listing, then one line with the
    voted code, then waits 1250 ms. *)
Theorem loop_threshold board fuel env junk st num codes valid majority result st1 :
  aggregate board fuel env junk st =
    Done (num, codes, valid, majority, result, st1) ->
  (num <= 3 -> loop board fuel env junk st = Done (tt, st1)) /\
  (3 < num ->
     exists res s dl,
       report codes valid majority result st1 =
         Done (res, logged ([Delay_ms 1250; Println_str "DEBUG: ####";
                             Println_str s] ++ dl ++
                            [Println_str "DEBUG: ####"]) st1) /\
       loop board fuel env junk st =
         Done (tt, logged ([Delay_ms 1250; Println_str "DEBUG: ####";
                            Println_str s] ++ dl ++
                           [Println_str "DEBUG: ####"]) st1) /\
       debug_lines dl = true /\
       cstring res = Done s /\ String.length s = 12%nat).
Proof.
  intros Hagg. rewrite (loop_unfold _ _ _ _ _ _ _ _ _ _ _ Hagg). split.
  - intros Hn. destruct (Z.ltb_spec 3 num); [lia | reflexivity].
  - intros Hn. destruct (Z.ltb_spec 3 num); [| lia].
    destruct (aggregate_result _ _ _ _ _ _ _ _ _ _ _ Hagg)
      as (-> & -> & [-> | [_ Hatt]]); [lia |].
    destruct (report_spec codes valid (result_of junk) st1 Hatt)
      as (res & s & dl & Hrun & Hdl & Hs & Hslen & _); [reflexivity |].
    exists res, s, dl. rewrite Hrun. repeat split; assumption.
Qed.

Lemma loop_threshold_witness :
  (exists st1,
     loop AVR8 300 (burst 72 500 false) some_stack init = Done (tt, st1) /\
     reads (log st1) = 17%nat /\ waited_us (log st1) = 15000) /\
  (exists st2,
     loop AVR8 300 (burst 96 500 false) some_stack init = Done (tt, st2) /\
     head (log st2) = Some (Delay_ms 1250)).
Proof.
  split.
  - destruct (aggregate AVR8 300 (burst 72 500 false) some_stack init)
      as [[[[[[num codes] valid] majority] result] st1] | |] eqn:E;
      [| vm_compute in E; discriminate | vm_compute in E; discriminate].
    destruct (loop_threshold _ _ _ _ _ _ _ _ _ _ _ E) as [H3 _].
    exists st1. vm_compute in E.
    injection E as <- <- <- <- <- <-.
    split; [apply H3; lia |]. split; reflexivity.
  - destruct (aggregate AVR8 300 (burst 96 500 false) some_stack init)
      as [[[[[[num codes] valid] majority] result] st1] | |] eqn:E;
      [| vm_compute in E; discriminate | vm_compute in E; discriminate].
    destruct (loop_threshold _ _ _ _ _ _ _ _ _ _ _ E) as [_ H4].
    vm_compute in E. injection E as <- <- <- <- <- <-.
    destruct H4 as (res & s & dl & _ & Hloop & _); [lia |].
    eexists. split; [exact Hloop | reflexivity].
Defined.

(** * Further properties *)

(** ** What a read leaves in the buffer *)

Lemma decode_valid_pair f s :
  decode f s <> INVALID -> pair_failure f s = None.
Proof.
  unfold pair_failure, decode.
  destruct (no_pulse f); [congruence |].
  destruct (no_pulse s); [congruence |].
  destruct (long_pulse f && long_pulse s); [reflexivity |].
  destruct (long_pulse s); [reflexivity |].
  destruct (short_pulse f && short_pulse s); [reflexivity | congruence].
Qed.

Lemma encodes_tail env p s syms :
  encodes env p (s :: syms) -> encodes env (S (S p)) syms.
Proof.
  intros H i x Hx. destruct (H (S i) x Hx) as [Hv Hd].
  split; [exact Hv |].
  replace (S (S p) + 2 * i)%nat with (p + 2 * S i)%nat by lia.
  exact Hd.
Qed.

Lemma encodes_no_failure env syms : forall i p,
  encodes env p syms -> first_failure env (length syms) i p = None.
Proof.
  induction syms as [| s syms IH]; intros i p H; [reflexivity |].
  cbn [length first_failure].
  destruct (H 0%nat s eq_refl) as [Hv Hd].
  replace (p + 2 * 0)%nat with p in Hd by lia.
  replace (p + 1)%nat with (S p) in Hd by lia.
  rewrite decode_valid_pair by congruence.
  apply IH. exact (encodes_tail env p s syms H).
Qed.

Section Buffer.

Variables (board : Board) (fuel : nat) (env : Env).

Lemma readNextCode_unfold buf st :
  readNextCode board fuel env buf st =
  match code_loop board fuel env 12 0 buf (called st) with
  | Done (Return r, buf1, st1) => Done (r, buf1, st1)
  | Done (Continue, buf1, st1) =>
      match store buf1 12 NUL with
      | Done buf2 => Done (1, buf2, logged [Delay_us 5000] st1)
      | Spin => Spin
      | Fault => Fault
      end
  | Spin => Spin
  | Fault => Fault
  end.
Proof.
  unfold readNextCode, bind at 1, emit at 1. fold (called st).
  unfold bind at 1.
  destruct (code_loop board fuel env 12 0 buf (called st))
    as [[[[r |] buf1] st1] | |]; try reflexivity.
  unfold bind, delayMicroseconds, emit, lift.
  destruct (store buf1 12 NUL); reflexivity.
Qed.

(** The loop on valid pairs: each position gets the character of its
    pair, the rest of the buffer is untouched. *)
Lemma code_loop_symbols k : forall i buf st,
  (i + k < length buf)%nat ->
  first_failure env k i (pcur st) = None ->
  exists buf',
    code_loop board fuel env k i buf st =
      Done (Continue, buf', pulsed (2 * k) st) /\
    length buf' = length buf /\
    (forall j, (j < k)%nat ->
       buf' !! (i + j)%nat =
       Some (symbol_char
               (decode (to_ulong (pulse_at env (pcur st + 2 * j)))
                       (to_ulong (pulse_at env (pcur st + 2 * j + 1)))))) /\
    (forall j, (j < i)%nat \/ (i + k <= j)%nat -> buf' !! j = buf !! j).
Proof.
  induction k as [| k IH]; intros i buf st Hlen Hf.
  - exists buf. change (2 * 0)%nat with 0%nat. rewrite pulsed_0.
    split; [reflexivity |]. split; [reflexivity |].
    split; [intros j Hj; lia | reflexivity].
  - cbn [first_failure] in Hf.
    destruct (pair_failure (to_ulong (pulse_at env (pcur st)))
                (to_ulong (pulse_at env (S (pcur st))))) as [f |] eqn:Hp;
      [discriminate |].
    rewrite code_loop_S.
    rewrite (read_tristate_symbol board fuel env i buf st Hp) by lia.
    set (c := symbol_char _).
    destruct (IH (S i) (<[i := c]> buf) (pulsed 2 st))
      as (buf' & Hrun & Hl & Hnew & Hold);
      [rewrite length_insert; lia | exact Hf |].
    exists buf'. rewrite Hrun, pulsed_pulsed.
    split; [f_equal; f_equal; f_equal; lia |].
    split; [rewrite Hl; apply length_insert |]. split.
    + intros j Hj. destruct j as [| j].
      * replace (i + 0)%nat with i by lia.
        rewrite Hold by lia. rewrite list_lookup_insert_eq by lia.
        unfold c.
        replace (pcur st + 2 * 0)%nat with (pcur st) by lia.
        replace (pcur st + 1)%nat with (S (pcur st)) by lia.
        reflexivity.
      * replace (i + S j)%nat with (S i + j)%nat by lia.
        rewrite Hnew by lia. change (pcur (pulsed 2 st)) with (2 + pcur st)%nat.
        replace (2 + pcur st + 2 * j)%nat with (pcur st + 2 * S j)%nat by lia.
        reflexivity.
    + intros j Hj. rewrite Hold by lia. apply list_lookup_insert_ne. lia.
Qed.

Lemma readNextCode_clean buf st syms :
  length buf = 13%nat -> length syms = 12%nat ->
  encodes env (pcur st) syms ->
  readNextCode board fuel env buf st = Done (1, code_of syms, completed st).
Proof.
  intros Hbuf Hsyms Henc.
  pose proof (encodes_no_failure env syms 0 (pcur st) Henc) as Hf.
  rewrite Hsyms in Hf.
  destruct (code_loop_symbols 12 0 buf (called st))
    as (buf' & Hrun & Hl & Hnew & _); [simpl; lia | exact Hf |].
  rewrite readNextCode_unfold, Hrun. unfold store.
  rewrite decide_True by lia.
  assert (Heq : <[12%nat := NUL]> buf' = code_of syms).
  { apply list_eq. intros j. unfold code_of.
    destruct (decide (j < 12)%nat) as [Hj | Hj].
    - rewrite list_lookup_insert_ne by lia.
      rewrite lookup_app_l by (rewrite length_fmap; lia).
      rewrite list_lookup_fmap.
      destruct (lookup_lt_is_Some_2 syms j) as [s Hs]; [lia |].
      rewrite Hs. specialize (Hnew j Hj).
      replace (0 + j)%nat with j in Hnew by lia. rewrite Hnew.
      change (pcur (called st)) with (pcur st).
      destruct (Henc j s Hs) as [_ ->]. reflexivity.
    - destruct (decide (j = 12%nat)) as [-> | Hne].
      + rewrite list_lookup_insert_eq by lia.
        rewrite lookup_app_r by (rewrite length_fmap; lia).
        rewrite length_fmap, Hsyms. reflexivity.
      + rewrite lookup_ge_None_2 by (rewrite length_insert; lia).
        rewrite lookup_ge_None_2; [reflexivity |].
        rewrite length_app, length_fmap. simpl. lia. }
  rewrite Heq. reflexivity.
Qed.

(** X1: a stream of twelve valid pairs is read back as its symbols:
    [readNextCode] returns 1 with exactly the characters of the twelve
    symbols and the terminator, after 24 pulses, one wait of 5000
    microseconds and no resynchronisation, whatever the buffer held. *)
Theorem readNextCode_round_trip buf st syms :
  length buf = 13%nat -> length syms = 12%nat ->
  encodes env (pcur st) syms ->
  readNextCode board fuel env buf st = Done (1, code_of syms, completed st).
Proof. apply readNextCode_clean. Qed.

(** X2: [readNextCode] returns 1 exactly when none of the twelve pairs
    ahead fails, on every board and line. *)
Theorem readNextCode_success_iff buf st :
  length buf = 13%nat ->
  (exists buf' st', readNextCode board fuel env buf st = Done (1, buf', st'))
  <-> first_failure env 12 0 (pcur st) = None.
Proof.
  intros Hbuf.
  destruct (readNextCode_spec board fuel env buf st) as (Ha & Hb & Hc); [lia |].
  split.
  - intros (buf' & st' & Hrun).
    destruct (first_failure_cases env 12 0 (pcur st))
      as [H | [H | (j & f & H & Hj)]]; [exact H | |].
    + destruct (Hb H) as (n & E). congruence.
    + destruct (Hc j f H Hj) as (b & st1 & _ & _ & E). rewrite E in Hrun.
      destruct (resync_and_fail_outcome board fuel env b st1)
        as [E' | (st2 & _ & E')]; rewrite E' in Hrun; discriminate.
  - intros H. destruct (Ha H) as (buf' & E & _). eauto.
Qed.

End Buffer.

Lemma sends_encodes syms :
  Forall (fun s => s <> INVALID) syms -> encodes (sends syms) 0 syms.
Proof.
  intros Hv i s Hs. split.
  - rewrite Forall_lookup in Hv. exact (Hv i s Hs).
  - unfold sends. cbn [pulse_at].
    replace ((0 + 2 * i) / 2)%nat with i
      by (apply (Nat.div_unique _ 2 i 0); lia).
    replace ((0 + 2 * i + 1) / 2)%nat with i
      by (apply (Nat.div_unique _ 2 i 1); lia).
    rewrite Hs.
    replace (Nat.even (0 + 2 * i)) with true
      by (symmetry; apply Nat.even_spec; exists i; lia).
    replace (Nat.even (0 + 2 * i + 1)) with false.
    + destruct s; reflexivity.
    + symmetry. rewrite <- Nat.negb_odd. apply negb_false_iff.
      apply Nat.odd_spec. exists i. lia.
Qed.

Lemma readNextCode_round_trip_witness :
  readNextCode AVR8 0
    (sends [ZERO; ONE; F; F; ONE; ZERO; ZERO; F; ONE; ONE; F; ZERO])
    (replicate 13 "?"%char) init =
  Done (1, code_of [ZERO; ONE; F; F; ONE; ZERO; ZERO; F; ONE; ONE; F; ZERO],
        completed init).
Proof.
  apply readNextCode_round_trip; [reflexivity | reflexivity |].
  apply sends_encodes. repeat constructor; discriminate.
Defined.

Lemma readNextCode_success_iff_witness :
  (exists buf' st',
     readNextCode ARM32 0 (burst 24 500 true) (replicate 13 "?"%char) init =
       Done (1, buf', st'))
  <-> first_failure (burst 24 500 true) 12 0 (pcur init) = None.
Proof.
  exact (readNextCode_success_iff ARM32 0 (burst 24 500 true)
           (replicate 13 "?"%char) init eq_refl).
Defined.

(** ** What a failed read leaves behind *)

Section FailedRead.

Variables (board : Board) (fuel : nat) (env : Env).

Lemma resync_then_return {A} (x : A) st1 fl st' :
  (findNextSpacer board fuel env ;;; ret x) st1 = Done (fl, st') ->
  fl = x /\ pcur st' = pcur st1.
Proof.
  unfold bind, ret.
  destruct (findNextSpacer board fuel env st1) as [[[] st2] | |] eqn:E;
    try discriminate.
  intros H. injection H as <- <-.
  apply findNextSpacer_calls in E as (_ & _ & E). split; [reflexivity | exact E].
Qed.

(** A failing pair at position [i]: the value returned, the buffer and
    the number of pulses read. *)
Lemma read_tristate_failure i buf st f fl buf' st' :
  pair_failure (to_ulong (pulse_at env (pcur st)))
               (to_ulong (pulse_at env (S (pcur st)))) = Some f ->
  (i + 1 < length buf)%nat ->
  read_tristate board fuel env i buf st = Done (fl, buf', st') ->
  fl = Return 0 /\
  buf' = match f with
         | NoPulse => buf
         | Malformed => <[(i + 1)%nat := NUL]> (<[i := "X"%char]> buf)
         end /\
  pcur st' =
    (pcur st + if no_pulse (to_ulong (pulse_at env (pcur st))) then 1 else 2)%nat.
Proof.
  intros Hp Hi Hrun. destruct f.
  - (* a pulse is missing *)
    assert (Hcase :
      exists st1,
        pcur st1 = (pcur st +
          if no_pulse (to_ulong (pulse_at env (pcur st))) then 1 else 2)%nat /\
        (read_tristate board fuel env i buf st = Done (Return 0, buf, st1) \/
         read_tristate board fuel env i buf st =
           (findNextSpacer board fuel env ;;; ret (Return 0, buf)) st1)).
    { unfold pair_failure in Hp. unfold read_tristate. rewrite bind_pulseIn.
      destruct (no_pulse (to_ulong (pulse_at env (pcur st)))).
      - destruct (1 <=? Z.of_nat i).
        + eexists. split; [| right; reflexivity]. simpl. lia.
        + eexists. split; [| left; reflexivity]. simpl. lia.
      - rewrite bind_pulseIn. change (pcur (pulsed 1 st)) with (S (pcur st)).
        destruct (no_pulse (to_ulong (pulse_at env (S (pcur st))))).
        + destruct (1 <=? Z.of_nat i).
          * eexists. split; [| right; reflexivity]. simpl. lia.
          * eexists. split; [| left; reflexivity]. simpl. lia.
        + destruct (decode (to_ulong (pulse_at env (pcur st)))
                           (to_ulong (pulse_at env (S (pcur st)))));
            discriminate. }
    destruct Hcase as (st1 & Hpc & [E | E]); rewrite E in Hrun.
    + injection Hrun as <- <- <-. repeat split. exact Hpc.
    + apply resync_then_return in Hrun as [Hx Hpc'].
      injection Hx as <- <-. repeat split. congruence.
  - (* the pair is malformed *)
    rewrite (read_tristate_malformed board fuel env i buf st Hp Hi) in Hrun.
    apply resync_then_return in Hrun as [Hx Hpc'].
    injection Hx as <- <-. split; [reflexivity |]. split; [reflexivity |].
    rewrite Hpc'. unfold pair_failure in Hp.
    destruct (no_pulse (to_ulong (pulse_at env (pcur st)))); [discriminate |].
    simpl. lia.
Qed.

Lemma code_loop_failure k : forall i buf st j f fl buf' st',
  (i + k < length buf)%nat ->
  first_failure env k i (pcur st) = Some (j, f) ->
  code_loop board fuel env k i buf st = Done (fl, buf', st') ->
  fl = Return 0 /\ length buf' = length buf /\
  (forall q, (q < j - i)%nat ->
     buf' !! (i + q)%nat =
     Some (symbol_char
             (decode (to_ulong (pulse_at env (pcur st + 2 * q)))
                     (to_ulong (pulse_at env (pcur st + 2 * q + 1)))))) /\
  (forall q, (q < i)%nat -> buf' !! q = buf !! q) /\
  match f with
  | NoPulse => forall q, (j <= q)%nat -> buf' !! q = buf !! q
  | Malformed =>
      buf' !! j = Some "X"%char /\ buf' !! S j = Some NUL /\
      forall q, (j + 2 <= q)%nat -> buf' !! q = buf !! q
  end /\
  pcur st' =
    (pcur st + 2 * (j - i) +
     if no_pulse (to_ulong (pulse_at env (pcur st + 2 * (j - i))))
     then 1 else 2)%nat.
Proof.
  induction k as [| k IH]; intros i buf st j f fl buf' st' Hlen Hf Hrun;
    [discriminate |].
  rewrite code_loop_S in Hrun. cbn [first_failure] in Hf.
  destruct (pair_failure (to_ulong (pulse_at env (pcur st)))
              (to_ulong (pulse_at env (S (pcur st))))) as [f0 |] eqn:Hp.
  - (* the pair at [i] fails *)
    injection Hf as <- <-.
    destruct (read_tristate board fuel env i buf st)
      as [[[fl0 b0] s0] | |] eqn:Hstep; try discriminate.
    destruct (read_tristate_failure i buf st f0 fl0 b0 s0 Hp)
      as (-> & -> & Hpc); [lia | exact Hstep |].
    injection Hrun as <- <- <-.
    replace (i - i)%nat with 0%nat by lia.
    replace (pcur st + 2 * 0)%nat with (pcur st) by lia.
    split; [reflexivity |].
    split; [destruct f0; [reflexivity | rewrite !length_insert; reflexivity] |].
    split; [intros q Hq; lia |].
    split.
    { intros q Hq. destruct f0; [reflexivity |].
      rewrite !list_lookup_insert_ne by lia. reflexivity. }
    split; [| exact Hpc].
    destruct f0; [reflexivity |].
    split; [| split].
    + rewrite list_lookup_insert_ne by lia.
      apply list_lookup_insert_eq. lia.
    + replace (S i) with (i + 1)%nat by lia.
      apply list_lookup_insert_eq. rewrite length_insert. lia.
    + intros q Hq. rewrite !list_lookup_insert_ne by lia. reflexivity.
  - (* the pair at [i] is a symbol *)
    rewrite (read_tristate_symbol board fuel env i buf st Hp) in Hrun by lia.
    set (c := symbol_char _) in Hrun.
    pose proof (first_failure_range env k (S i) _ j f Hf) as Hj.
    destruct (IH (S i) (<[i := c]> buf) (pulsed 2 st) j f fl buf' st')
      as (Hfl & Hl & Hnew & Hold & Hrest & Hpc);
      [rewrite length_insert; lia | exact Hf | exact Hrun |].
    change (pcur (pulsed 2 st)) with (2 + pcur st)%nat in Hnew, Hpc.
    split; [exact Hfl |].
    split; [rewrite Hl; apply length_insert |].
    split; [| split; [| split]].
    + intros q Hq. destruct q as [| q].
      * replace (i + 0)%nat with i by lia. rewrite Hold by lia.
        rewrite list_lookup_insert_eq by lia. unfold c.
        replace (pcur st + 2 * 0)%nat with (pcur st) by lia.
        replace (pcur st + 1)%nat with (S (pcur st)) by lia.
        reflexivity.
      * replace (i + S q)%nat with (S i + q)%nat by lia.
        rewrite Hnew by lia.
        replace (2 + pcur st + 2 * q)%nat with (pcur st + 2 * S q)%nat by lia.
        reflexivity.
    + intros q Hq. rewrite Hold by lia. apply list_lookup_insert_ne. lia.
    + destruct f.
      * intros q Hq. rewrite Hrest by lia. apply list_lookup_insert_ne. lia.
      * destruct Hrest as (HX & HN & Hrest).
        split; [exact HX |]. split; [exact HN |].
        intros q Hq. rewrite Hrest by lia. apply list_lookup_insert_ne. lia.
    + rewrite Hpc.
      replace (2 + pcur st + 2 * (j - S i))%nat
        with (pcur st + 2 * (j - i))%nat by lia.
      lia.
Qed.

Lemma readNextCode_failed buf st j f r buf' st' :
  length buf = 13%nat ->
  first_failure env 12 0 (pcur st) = Some (j, f) ->
  readNextCode board fuel env buf st = Done (r, buf', st') ->
  r = 0 /\
  pcur st' =
    (pcur st + 2 * j +
     if no_pulse (to_ulong (pulse_at env (pcur st + 2 * j))) then 1 else 2)%nat /\
  (forall q, (q < j)%nat ->
     buf' !! q =
     Some (symbol_char
             (decode (to_ulong (pulse_at env (pcur st + 2 * q)))
                     (to_ulong (pulse_at env (pcur st + 2 * q + 1)))))) /\
  match f with
  | NoPulse => forall q, (j <= q)%nat -> buf' !! q = buf !! q
  | Malformed =>
      buf' !! j = Some "X"%char /\ buf' !! S j = Some NUL /\
      forall q, (j + 2 <= q)%nat -> buf' !! q = buf !! q
  end.
Proof.
  intros Hbuf Hf Hrun. rewrite readNextCode_unfold in Hrun.
  destruct (code_loop board fuel env 12 0 buf (called st))
    as [[[fl b] s] | |] eqn:Hloop; try discriminate.
  destruct (code_loop_failure 12 0 buf (called st) j f fl b s)
    as (-> & _ & Hnew & _ & Hrest & Hpc); [simpl; lia | exact Hf | exact Hloop |].
  injection Hrun as <- <- <-.
  change (pcur (called st)) with (pcur st) in Hnew, Hpc.
  rewrite Nat.sub_0_r in Hnew, Hpc.
  split; [reflexivity |]. split; [exact Hpc |]. split; [| exact Hrest].
  intros q Hq. exact (Hnew q Hq).
Qed.

(** X3: when the pair at position [j] is the first to fail and
    [readNextCode] returns, it returns 0; it has read the two pulses of
    each pair before [j] and one or two pulses of pair [j]; the buffer
    holds the characters of the pairs before [j]; after a malformed pair
    it holds 'X' at [j] and the terminator at [j+1], after a missing
    pulse the buffer is untouched from [j] on. *)
Theorem readNextCode_failure_buffer buf st j f r buf' st' :
  length buf = 13%nat ->
  first_failure env 12 0 (pcur st) = Some (j, f) ->
  readNextCode board fuel env buf st = Done (r, buf', st') ->
  r = 0 /\
  pcur st' =
    (pcur st + 2 * j +
     if no_pulse (to_ulong (pulse_at env (pcur st + 2 * j))) then 1 else 2)%nat /\
  (forall q, (q < j)%nat ->
     buf' !! q =
     Some (symbol_char
             (decode (to_ulong (pulse_at env (pcur st + 2 * q)))
                     (to_ulong (pulse_at env (pcur st + 2 * q + 1)))))) /\
  match f with
  | NoPulse => forall q, (j <= q)%nat -> buf' !! q = buf !! q
  | Malformed =>
      buf' !! j = Some "X"%char /\ buf' !! S j = Some NUL /\
      forall q, (j + 2 <= q)%nat -> buf' !! q = buf !! q
  end.
Proof. apply readNextCode_failed. Qed.

End FailedRead.

Lemma readNextCode_failure_buffer_witness :
  exists st',
    readNextCode ARM32 300 (long_short_at 11) (replicate 13 "?"%char) init =
      Done (0, replicate 11 "0"%char ++ ["X"%char; NUL], st') /\
    pcur st' = 24%nat.
Proof.
  exists (polled 300 (entered (pulsed 24 (called init)))).
  assert (Hrun :
    readNextCode ARM32 300 (long_short_at 11) (replicate 13 "?"%char) init =
    Done (0, replicate 11 "0"%char ++ ["X"%char; NUL],
          polled 300 (entered (pulsed 24 (called init)))))
    by (vm_compute; reflexivity).
  split; [exact Hrun |].
  destruct (readNextCode_failure_buffer ARM32 300 (long_short_at 11)
              (replicate 13 "?"%char) init 11 Malformed _ _ _
              eq_refl eq_refl Hrun) as (_ & Hpc & _).
  rewrite Hpc. reflexivity.
Defined.

(** ** When the resynchroniser returns *)

Section Spacer.

Variables (board : Board) (env : Env).

Variable s0 : nat.

Lemma at_head_no_window a j :
  at_head env s0 a j -> (j < 300)%nat -> (300 <= a)%nat ->
  ~ quiet env (s0 + a - 300) 300.
Proof.
  intros (Hja & _ & _ & Hhigh & _) Hj Ha Hq.
  assert (Hlt : (j < a)%nat) by lia.
  specialize (Hhigh Hlt). rewrite Hq in Hhigh by lia. discriminate.
Qed.

Lemma at_head_next a j :
  at_head env s0 a j -> (j < 300)%nat ->
  at_head env s0 (S a) (if level_at env (s0 + a) then 0 else S j).
Proof.
  intros Hh Hj. pose proof (at_head_no_window a j Hh Hj) as Hnw.
  destruct Hh as (Hja & Hj300 & Hq & Hhigh & Hmin).
  assert (Hmin' : forall k', (300 <= k' < S a)%nat ->
                    ~ quiet env (s0 + k' - 300) 300).
  { intros k' Hk'. destruct (decide (k' = a)) as [-> | Hne].
    - apply Hnw. lia.
    - apply Hmin. lia. }
  destruct (level_at env (s0 + a)) eqn:Hlvl.
  - split; [lia |]. split; [lia |]. split; [intros q Hq'; lia |].
    split; [| exact Hmin'].
    intros _. replace (s0 + S a - 0 - 1)%nat with (s0 + a)%nat by lia.
    exact Hlvl.
  - split; [lia |]. split; [lia |]. split; [| split; [| exact Hmin']].
    + intros q Hq'. destruct (decide (q = s0 + a)%nat) as [-> | Hne].
      * exact Hlvl.
      * apply Hq. lia.
    + intros Hlt.
      replace (s0 + S a - S j - 1)%nat with (s0 + a - j - 1)%nat by lia.
      apply Hhigh. lia.
Qed.

Lemma counted_next a total_time :
  counted board a total_time -> total_time < 50000 ->
  counted board (S a) (to_int board (total_time + 10)).
Proof.
  unfold counted. destruct board.
  - intros _ _. eexists. reflexivity.
  - intros [-> Ha] Hlt. rewrite to_int_arm32 by lia. split; lia.
Qed.

Lemma counted_below a total_time :
  counted board a total_time -> 50000 <= total_time -> board = ARM32 /\ a = 5000%nat.
Proof.
  unfold counted. destruct board.
  - intros [x ->] H. pose proof (to_int_avr8_range x). lia.
  - intros [-> Ha] H. split; [reflexivity | lia].
Qed.

(** The loop from its head after [a] iterations: where it leaves, and
    that it does leave once 300 samples in a row have read LOW. *)
Lemma spacer_loop_window n : forall a j total_time st,
  scur st = (s0 + a)%nat -> at_head env s0 a j -> counted board a total_time ->
  (forall st',
     spacer_loop board env n (10 * Z.of_nat j) total_time st = Done (tt, st') ->
     exists k, (a <= k)%nat /\ st' = polled (k - a) st /\
       (forall k', (300 <= k' < k)%nat -> ~ quiet env (s0 + k' - 300) 300) /\
       ((300 <= k)%nat /\ quiet env (s0 + k - 300) 300 \/
        board = ARM32 /\ k = 5000%nat)) /\
  (forall K, (300 <= K)%nat -> quiet env (s0 + K - 300) 300 ->
     (K <= a + n)%nat ->
     exists st', spacer_loop board env n (10 * Z.of_nat j) total_time st =
                 Done (tt, st')).
Proof.
  induction n as [| n IH]; intros a j total_time st Hs Hh Hc.
  - destruct ((10 * Z.of_nat j <? 3000) && (total_time <? 50000)) eqn:Hcond.
    + split; [intros st' H; simpl in H; rewrite Hcond in H; discriminate |].
      intros K HK Hq Hn. exfalso.
      apply andb_true_iff in Hcond as [Ht _]. apply Z.ltb_lt in Ht.
      destruct (decide (K = a)) as [-> | Hne].
      * apply (at_head_no_window a j Hh); [lia | lia | exact Hq].
      * destruct Hh as (_ & _ & _ & _ & Hmin). apply (Hmin K); [lia | exact Hq].
    + rewrite spacer_loop_exit by exact Hcond.
      split; [| eauto].
      intros st' H. injection H as <-. exists a.
      split; [lia |]. split; [rewrite Nat.sub_diag, polled_0; reflexivity |].
      split; [apply Hh |].
      apply andb_false_iff in Hcond as [Ht | Ht]; apply Z.ltb_ge in Ht.
      * left. destruct Hh as (Hja & Hj300 & Hq & _).
        assert (j = 300%nat) as -> by lia. split; [lia | exact Hq].
      * right. exact (counted_below a total_time Hc Ht).
  - destruct ((10 * Z.of_nat j <? 3000) && (total_time <? 50000)) eqn:Hcond.
    + rewrite spacer_loop_step by exact Hcond.
      apply andb_true_iff in Hcond as [Ht Htt].
      apply Z.ltb_lt in Ht, Htt.
      assert (Hj : (j < 300)%nat) by lia.
      pose proof (at_head_next a j Hh Hj) as Hh'.
      pose proof (counted_next a total_time Hc Htt) as Hc'.
      replace (level_at env (scur st)) with (level_at env (s0 + a))
        by (rewrite Hs; reflexivity).
      assert (Htime :
        (if level_at env (s0 + a) then 0
         else to_int board (10 * Z.of_nat j + 10)) =
        10 * Z.of_nat (if level_at env (s0 + a) then 0%nat else S j)).
      { destruct (level_at env (s0 + a)); [reflexivity |].
        rewrite to_int_small by lia. lia. }
      rewrite Htime.
      destruct (IH (S a) _ _
                  {| pcur := pcur st; scur := S (scur st);
                     log := Delay_us 10 :: log st |}
                  ltac:(simpl; lia) Hh' Hc') as [IHa IHb].
      split.
      * intros st' H. destruct (IHa st' H) as (k & Hk & -> & Hmin & Hend).
        exists k. split; [lia |]. split; [| split; [exact Hmin | exact Hend]].
        rewrite polled_S. f_equal. lia.
      * intros K HK Hq Hn. apply (IHb K HK Hq). lia.
    + rewrite spacer_loop_exit by exact Hcond.
      split; [| eauto].
      intros st' H. injection H as <-. exists a.
      split; [lia |]. split; [rewrite Nat.sub_diag, polled_0; reflexivity |].
      split; [apply Hh |].
      apply andb_false_iff in Hcond as [Ht | Ht]; apply Z.ltb_ge in Ht.
      * left. destruct Hh as (Hja & Hj300 & Hq & _).
        assert (j = 300%nat) as -> by lia. split; [lia | exact Hq].
      * right. exact (counted_below a total_time Hc Ht).
Qed.

End Spacer.

Lemma at_head_start env s0 : at_head env s0 0 0.
Proof.
  split; [lia |]. split; [lia |]. split; [intros q Hq; lia |].
  split; intros; lia.
Qed.

Lemma counted_start board : counted board 0 0.
Proof. destruct board; [exists 0; reflexivity | split; [reflexivity | lia]]. Qed.

Lemma polled_inj k k' st : polled k st = polled k' st -> k = k'.
Proof. intros H. apply (f_equal scur) in H. simpl in H. lia. Qed.

Lemma spacer_exit board fuel env st st' :
  findNextSpacer board fuel env st = Done (tt, st') ->
  exists k,
    st' = polled k (entered st) /\
    (forall k', (300 <= k' < k)%nat -> ~ quiet env (scur st + k' - 300) 300) /\
    ((300 <= k)%nat /\ quiet env (scur st + k - 300) 300 \/
     board = ARM32 /\ k = 5000%nat).
Proof.
  unfold findNextSpacer. rewrite bind_emit. intros H.
  destruct (spacer_loop_window board env (scur st) fuel 0 0 0
              (logged [Call_findNextSpacer] st))
    as [Hexit _];
    [simpl; lia | apply at_head_start | apply counted_start |].
  destruct (Hexit st' H) as (k & _ & -> & Hmin & Hend).
  exists k. rewrite Nat.sub_0_r. split; [reflexivity |].
  split; [exact Hmin | exact Hend].
Qed.

(** X4: when [findNextSpacer] returns after [k] iterations, either the
    last 300 samples all read LOW, or the board has a 32-bit [int] and
    [k] is 5000; and it never returns late: no 300 samples in a row read
    LOW before. *)
Theorem findNextSpacer_exit board fuel env st st' :
  findNextSpacer board fuel env st = Done (tt, st') ->
  exists k,
    st' = polled k (entered st) /\
    (forall k', (300 <= k' < k)%nat -> ~ quiet env (scur st + k' - 300) 300) /\
    ((300 <= k)%nat /\ quiet env (scur st + k - 300) 300 \/
     board = ARM32 /\ k = 5000%nat).
Proof. apply spacer_exit. Qed.

Lemma findNextSpacer_exit_witness :
  exists k,
    polled 300 (entered init) = polled k (entered init) /\
    (forall k', (300 <= k' < k)%nat ->
       ~ quiet (burst 0 0 false) (scur init + k' - 300) 300) /\
    ((300 <= k)%nat /\ quiet (burst 0 0 false) (scur init + k - 300) 300 \/
     AVR8 = ARM32 /\ k = 5000%nat).
Proof.
  apply (findNextSpacer_exit AVR8 300 (burst 0 0 false) init).
  vm_compute. reflexivity.
Defined.

Lemma spacer_returns board fuel env st K :
  (300 <= K)%nat -> quiet env (scur st + K - 300) 300 -> (K <= fuel)%nat ->
  exists k, (k <= K)%nat /\
    findNextSpacer board fuel env st = Done (tt, polled k (entered st)).
Proof.
  intros HK Hq Hfuel.
  destruct (spacer_loop_window board env (scur st) fuel 0 0 0
              (logged [Call_findNextSpacer] st))
    as [_ Hret];
    [simpl; lia | apply at_head_start | apply counted_start |].
  destruct (Hret K HK Hq) as (st' & Hrun); [lia |].
  assert (Hcall : findNextSpacer board fuel env st = Done (tt, st'))
    by (unfold findNextSpacer; rewrite bind_emit; exact Hrun).
  destruct (spacer_exit board fuel env st st' Hcall)
    as (k & -> & Hmin & _).
  exists k. split; [| exact Hcall].
  destruct (decide (k <= K)%nat) as [Hle | Hgt]; [exact Hle |].
  exfalso. apply (Hmin K); [lia | exact Hq].
Qed.

(** X5: [findNextSpacer] returns as soon as 300 samples in a row have
    read LOW: if the 300 samples before the [K]-th read LOW and the
    budget allows [K] iterations, it returns after at most [K]
    iterations, on both boards. *)
Theorem findNextSpacer_returns board fuel env st K :
  (300 <= K)%nat -> quiet env (scur st + K - 300) 300 -> (K <= fuel)%nat ->
  exists k, (k <= K)%nat /\
    findNextSpacer board fuel env st = Done (tt, polled k (entered st)).
Proof. apply spacer_returns. Qed.

Lemma findNextSpacer_returns_witness :
  exists k, (k <= 400)%nat /\
    findNextSpacer AVR8 400 (high_for 100) init =
      Done (tt, polled k (entered init)).
Proof.
  apply (findNextSpacer_returns AVR8 400 (high_for 100) init 400);
    [lia | | lia].
  intros q Hq. simpl in Hq. apply Nat.ltb_ge. lia.
Defined.

(** X6: on a line that reads HIGH for [n] samples and then LOW for 300,
    [findNextSpacer] returns after exactly [n + 300] iterations with a
    16-bit [int], however large [n] is, and after the smaller of
    [n + 300] and 5000 iterations with a 32-bit [int]. *)
Theorem findNextSpacer_after_high board fuel env st n :
  (forall q, (scur st <= q < scur st + n)%nat -> level_at env q = true) ->
  quiet env (scur st + n) 300 ->
  (n + 300 <= fuel)%nat ->
  findNextSpacer board fuel env st =
    Done (tt, polled (iterations_after_high board n) (entered st)).
Proof.
  intros Hhigh Hlow Hfuel.
  destruct (spacer_returns board fuel env st (n + 300))
    as (k & Hk & Hrun); [lia | | lia |].
  { replace (scur st + (n + 300) - 300)%nat with (scur st + n)%nat by lia.
    exact Hlow. }
  destruct (spacer_exit board fuel env st _ Hrun)
    as (k0 & Hk0 & Hmin & Hend).
  apply polled_inj in Hk0 as <-.
  assert (Hwin : (300 <= k)%nat -> quiet env (scur st + k - 300) 300 ->
                 k = (n + 300)%nat).
  { intros Hk300 Hq. destruct (decide (k = n + 300)%nat) as [E | Hne]; [exact E |].
    exfalso. specialize (Hhigh (scur st + k - 300)%nat).
    rewrite Hq in Hhigh by lia.
    assert (false = true) by (apply Hhigh; lia). discriminate. }
  rewrite Hrun. f_equal. f_equal. f_equal.
  unfold iterations_after_high.
  destruct Hend as [[Hk300 Hq] | [-> ->]].
  - specialize (Hwin Hk300 Hq). destruct board; [exact Hwin |].
    destruct (decide (5000 <= fuel)%nat) as [Hf | Hf]; [| lia].
    destruct (findNextSpacer_arm32 fuel env st Hf) as (k1 & Hk1 & Hrun1 & _).
    rewrite Hrun in Hrun1.
    assert (k = k1)
      by (apply (polled_inj k k1 (entered st)); congruence).
    lia.
  - destruct (decide (n + 300 < 5000)%nat) as [Hlt | Hge]; [| lia].
    exfalso. apply (Hmin (n + 300)%nat); [lia |].
    replace (scur st + (n + 300) - 300)%nat with (scur st + n)%nat by lia.
    exact Hlow.
Qed.

Lemma findNextSpacer_after_high_witness :
  findNextSpacer AVR8 400 (high_for 100) init =
    Done (tt, polled 400 (entered init)).
Proof.
  apply (findNextSpacer_after_high AVR8 400 (high_for 100) init 100).
  - intros q Hq. simpl in Hq. apply Nat.ltb_lt. lia.
  - intros q Hq. simpl in Hq. apply Nat.ltb_ge. lia.
  - lia.
Defined.

(** ** The successes and the counters *)

Lemma valid_in_S k i valid :
  valid_in (S k) i valid =
  (if is_valid valid i then 1 else 0) + valid_in k (S i) valid.
Proof.
  unfold valid_in. cbn [seq List.filter].
  destruct (is_valid valid i); cbn [length]; lia.
Qed.

Lemma valid_in_bounds k i valid : 0 <= valid_in k i valid <= Z.of_nat k.
Proof.
  unfold valid_in. split; [lia |].
  pose proof (List.filter_length_le (is_valid valid) (seq i k)) as H.
  rewrite length_seq in H. lia.
Qed.

(** The flags left by the reading loop add up to [num_success]. *)
Lemma read_codes_count board fuel env k : forall i num codes valid st,
  1 <= num <= Z.of_nat i ->
  (i + k = length codes)%nat -> length valid = length codes ->
  (length codes <= 17)%nat ->
  Forall (fun row : list ascii => length row = 13%nat) codes ->
  forall num' codes' valid' st',
    read_codes board fuel env k i num codes valid st =
      Done (num', codes', valid', st') ->
    num' = num + valid_in k i valid'.
Proof.
  induction k as [| k IH]; intros i num codes valid st Hnum Hik Hval Hmax Hrows
    num' codes' valid' st' Hrun.
  - injection Hrun as <- <- <- <-. unfold valid_in. simpl. lia.
  - destruct (lookup_lt_is_Some_2 codes i) as [row Hrow]; [lia |].
    assert (Hrow13 : length row = 13%nat).
    { rewrite Forall_lookup in Hrows. exact (Hrows i row Hrow). }
    rewrite (read_codes_S board fuel env k i num codes valid st row Hrow)
      in Hrun by lia.
    destruct (readNextCode board fuel env row st) as [[[res row'] st1] | |]
      eqn:Hread; try discriminate.
    destruct (readNextCode_result board fuel env row st res row' st1)
      as (Hl & _ & Hres); [lia | exact Hread |].
    assert (Hres01 : res = 0 \/ res = 1) by tauto.
    rewrite (to_int_small board (num + res)) in Hrun by lia.
    destruct (Z.eqb_spec (num + res) 0) as [E | _]; [lia |].
    assert (Hrows1 : Forall (fun row : list ascii => length row = 13%nat)
                       (<[i := row']> codes))
      by (apply Forall_insert; [exact Hrows | congruence]).
    destruct (read_codes_running board fuel env k (S i) (num + res)
                (<[i := row']> codes) (<[i := to_char board res]> valid) st1)
      as (_ & _ & Hpost);
      [lia | rewrite length_insert; lia | rewrite !length_insert; exact Hval
      | rewrite length_insert; exact Hmax | exact Hrows1 |].
    destruct (Hpost _ _ _ _ Hrun) as (_ & _ & _ & _ & _ & Hold).
    rewrite (IH (S i) (num + res) (<[i := row']> codes)
               (<[i := to_char board res]> valid) st1
               ltac:(lia) ltac:(rewrite length_insert; lia)
               ltac:(rewrite !length_insert; exact Hval)
               ltac:(rewrite length_insert; exact Hmax) Hrows1
               _ _ _ _ Hrun).
    rewrite valid_in_S. unfold is_valid at 1.
    destruct (Hold i) as [Hv _]; [lia |]. rewrite Hv.
    rewrite list_lookup_insert_eq by lia.
    rewrite (to_char_bit board res Hres01).
    destruct Hres01 as [-> | ->]; simpl; lia.
Qed.

(** In recorded attempts every valid one votes for exactly one of the
    three symbols at each position. *)
Lemma votes_partition valid codes p k : forall i,
  (forall j, (i <= j < i + k)%nat ->
     exists v row, valid !! j = Some v /\ codes !! j = Some row /\
                   attempt_ok v row) ->
  (p < 12)%nat ->
  votes_in k i valid codes p "0"%char + votes_in k i valid codes p "1"%char +
  votes_in k i valid codes p "F"%char = valid_in k i valid.
Proof.
  induction k as [| k IH]; intros i Hatt Hp; [reflexivity |].
  rewrite !votes_in_S, valid_in_S.
  rewrite <- (IH (S i)) by (try (intros j Hj; apply Hatt); lia).
  destruct (Hatt i) as (v & row & Hv & Hrow & _ & Hok); [lia |].
  unfold is_vote, is_valid. rewrite Hv, Hrow.
  destruct Hok as [-> | [-> [Hsym _]]]; [simpl; lia |].
  destruct (Hsym p Hp) as (c & Hc & [-> | [-> | ->]]); rewrite Hc; simpl; lia.
Qed.

(** X7: in a cycle with at least one success, [num_success] is the
    number of attempts flagged valid, and at each of the twelve
    positions the three counts of the valid attempts add up to it. *)
Theorem successes_counted board fuel env junk st num codes valid majority
    result st' :
  aggregate board fuel env junk st =
    Done (num, codes, valid, majority, result, st') ->
  1 <= num ->
  num = valid_count valid /\ num <= resend_count /\
  forall p, (p < 12)%nat ->
    votes valid codes p "0"%char + votes valid codes p "1"%char +
    votes valid codes p "F"%char = num.
Proof.
  intros Hagg Hnum.
  destruct (aggregate_result board fuel env junk st _ _ _ _ _ _ Hagg)
    as (_ & _ & [-> | [_ Hatt]]); [lia |].
  assert (Hcount : num = valid_count valid).
  { destruct (readNextCode board fuel env (junk_codes junk 0 <$> seq 0 13) st)
      as [[[res row'] st1] | |] eqn:Hread.
    - destruct (readNextCode_result board fuel env
                  (junk_codes junk 0 <$> seq 0 13) st res row' st1)
        as (Hl & _ & [-> | [-> Hcomp]]); [simpl; lia | exact Hread | |].
      + rewrite (aggregate_first_fails board fuel env junk st row' st1 Hread)
          in Hagg.
        injection Hagg as <- <- <- <- <- <-. lia.
      + rewrite (aggregate_first_succeeds board fuel env junk st row' st1 Hread)
          in Hagg.
        destruct (read_codes board fuel env 16 1 1 _ _ st1)
          as [[[[n c] v] s] | |] eqn:Hloop; try discriminate.
        injection Hagg as <- <- <- <- <- <-.
        assert (Hrows1 := first_row_written junk row' Hl).
        pose proof (read_codes_count board fuel env 16 1 1
                      (<[0%nat := row']> (codes_of junk))
                      (<[0%nat := 1]> (valid_of junk)) st1
                      ltac:(lia) eq_refl eq_refl ltac:(simpl; lia) Hrows1
                      _ _ _ _ Hloop) as Hn.
        destruct (read_codes_running board fuel env 16 1 1
                    (<[0%nat := row']> (codes_of junk))
                    (<[0%nat := 1]> (valid_of junk)) st1)
          as (_ & _ & Hpost);
          [lia | reflexivity | reflexivity | simpl; lia | exact Hrows1 |].
        destruct (Hpost _ _ _ _ Hloop) as (_ & _ & _ & _ & _ & Hold).
        unfold valid_count. change (Z.to_nat resend_count) with 17%nat.
        rewrite valid_in_S. unfold is_valid at 1.
        destruct (Hold 0%nat) as [Hv _]; [lia |]. rewrite Hv.
        rewrite Hn. reflexivity.
    - rewrite aggregate_unfold, read_codes_first, Hread in Hagg. discriminate.
    - rewrite aggregate_unfold, read_codes_first, Hread in Hagg. discriminate. }
  split; [exact Hcount |]. split.
  - rewrite Hcount. unfold valid_count.
    pose proof (valid_in_bounds (Z.to_nat resend_count) 0 valid).
    unfold resend_count in *. lia.
  - intros p Hp. rewrite Hcount. unfold votes, valid_count.
    apply votes_partition; [| exact Hp].
    intros j Hj. apply Hatt. lia.
Qed.

Lemma successes_counted_witness :
  exists codes valid st',
    aggregate AVR8 300 (burst 96 500 false) some_stack init =
      Done (4, codes, valid, zeros, result_of some_stack, st') /\
    4 = valid_count valid /\
    votes valid codes 0 "0"%char + votes valid codes 0 "1"%char +
    votes valid codes 0 "F"%char = 4.
Proof.
  destruct (aggregate AVR8 300 (burst 96 500 false) some_stack init)
    as [[[[[[num codes] valid] majority] result] st1] | |] eqn:E;
    [| vm_compute in E; discriminate | vm_compute in E; discriminate].
  pose proof E as E'. vm_compute in E'. injection E' as <- <- <- <- <- <-.
  destruct (successes_counted _ _ _ _ _ _ _ _ _ _ _ E) as (Hc & _ & Hv);
    [lia |].
  eexists _, _, _. split; [exact E |]. split; [exact Hc | apply Hv; lia].
Defined.

(** ** The reported code *)

Lemma votes_nonneg valid codes p c : 0 <= votes valid codes p c.
Proof. unfold votes. apply votes_in_bounds. Qed.

Lemma majority_wins_aux codes valid result st p c :
  attempts_ok valid codes -> length result = 13%nat -> (p < 12)%nat ->
  is_symbol c ->
  2 * votes valid codes p c > valid_count valid ->
  exists res st',
    report codes valid zeros result st = Done (res, st') /\
    res !! p = Some c.
Proof.
  intros Hatt Hlen Hp Hc Hmaj.
  destruct (report_spec codes valid result st Hatt Hlen)
    as (res & s & dl & Hrun & _ & _ & _ & _ & _ & Hvotes).
  exists res. eexists. split; [exact Hrun |]. rewrite (Hvotes p Hp).
  pose proof (votes_partition valid codes p (Z.to_nat resend_count) 0) as Hsum.
  fold (votes valid codes p "0"%char) (votes valid codes p "1"%char)
       (votes valid codes p "F"%char) (valid_count valid) in Hsum.
  rewrite <- Hsum in Hmaj by (try (intros j Hj; apply Hatt); lia).
  pose proof (votes_nonneg valid codes p "0"%char).
  pose proof (votes_nonneg valid codes p "1"%char).
  pose proof (votes_nonneg valid codes p "F"%char).
  f_equal. unfold vote.
  destruct (Z.ltb_spec (votes valid codes p "1"%char)
                       (votes valid codes p "0"%char)),
    (Z.ltb_spec (votes valid codes p "F"%char) (votes valid codes p "0"%char)),
    (Z.ltb_spec (votes valid codes p "F"%char) (votes valid codes p "1"%char));
    destruct Hc as [-> | [-> | ->]]; simpl; first [reflexivity | lia].
Qed.

(** X8: if more than half of the valid attempts hold the same symbol at
    a position, the reported code holds that symbol there. *)
Theorem majority_wins codes valid result st p c :
  attempts_ok valid codes -> length result = 13%nat -> (p < 12)%nat ->
  is_symbol c ->
  2 * votes valid codes p c > valid_count valid ->
  exists res st',
    report codes valid zeros result st = Done (res, st') /\
    res !! p = Some c.
Proof. apply majority_wins_aux. Qed.

Lemma majority_wins_witness :
  exists res st',
    report (attempts ["F"; "F"; "0"; "F"; "1"]%char)
           (flags ["F"; "F"; "0"; "F"; "1"]%char)
           zeros (replicate 13 "!"%char) init = Done (res, st') /\
    res !! 0%nat = Some "F"%char.
Proof.
  apply majority_wins.
  - apply attempts_recorded; [simpl; lia |].
    repeat constructor; unfold is_symbol; tauto.
  - reflexivity.
  - lia.
  - unfold is_symbol. tauto.
  - vm_compute. reflexivity.
Defined.

(** X9: whatever the result buffer held and however the counts tie, the
    code reported for recorded attempts is a completed code: twelve
    characters among '0', '1' and 'F', then the terminator. *)
Theorem report_complete codes valid result st :
  attempts_ok valid codes -> length result = 13%nat ->
  exists res st',
    report codes valid zeros result st = Done (res, st') /\
    length res = 13%nat /\ complete res.
Proof.
  intros Hatt Hlen.
  destruct (report_spec codes valid result st Hatt Hlen)
    as (res & s & dl & Hrun & _ & _ & _ & Hl & Hnul & Hvotes).
  exists res. eexists. split; [exact Hrun |]. split; [exact Hl |].
  split; [| exact Hnul].
  intros i Hi. eexists. split; [apply Hvotes, Hi | apply vote_is_symbol].
Qed.

Lemma report_complete_witness :
  exists res st',
    report (attempts ["1"; "1"; "F"; "F"; "0"]%char)
           (flags ["1"; "1"; "F"; "F"; "0"]%char)
           zeros (replicate 13 "!"%char) init = Done (res, st') /\
    length res = 13%nat /\ complete res.
Proof.
  apply report_complete; [| reflexivity].
  apply attempts_recorded; [simpl; lia |].
  repeat constructor; unfold is_symbol; tauto.
Defined.

(** ** The whole cycle *)

Lemma loop_Spin board fuel env junk st :
  aggregate board fuel env junk st = Spin -> loop board fuel env junk st = Spin.
Proof. intros H. unfold loop, bind. rewrite H. reflexivity. Qed.

(** A cycle never runs out of the bounds of its arrays, and it returns
    when the resynchroniser does. *)
Lemma loop_outcome board fuel env junk st :
  loop board fuel env junk st <> Fault /\
  (settles board fuel env ->
   exists st', loop board fuel env junk st = Done (tt, st')).
Proof.
  destruct (aggregate board fuel env junk st)
    as [[[[[[num codes] valid] majority] result] st1] | |] eqn:Hagg.
  - rewrite (loop_unfold _ _ _ _ _ _ _ _ _ _ _ Hagg).
    destruct (3 <? num) eqn:Hn; [| split; [discriminate | eauto]].
    apply Z.ltb_lt in Hn.
    destruct (aggregate_result _ _ _ _ _ _ _ _ _ _ _ Hagg)
      as (-> & -> & [-> | [_ Hatt]]); [lia |].
    destruct (report_spec codes valid (result_of junk) st1 Hatt)
      as (res & s & dl & -> & _); [reflexivity |].
    split; [discriminate | eauto].
  - rewrite (loop_Spin _ _ _ _ _ Hagg). split; [discriminate |].
    intros Hs. exfalso.
    rewrite aggregate_unfold, read_codes_first in Hagg.
    destruct (readNextCode_returns board fuel env
                (junk_codes junk 0 <$> seq 0 13) st Hs)
      as (r & b & s & Hread); [simpl; lia |].
    rewrite Hread in Hagg.
    destruct (readNextCode_result board fuel env
                (junk_codes junk 0 <$> seq 0 13) st r b s)
      as (Hl & _ & Hr); [simpl; lia | exact Hread |].
    assert (Hr01 : r = 0 \/ r = 1) by tauto.
    rewrite (to_int_small board (0 + r)) in Hagg by lia.
    destruct Hr01 as [-> | ->]; [discriminate |].
    change (0 + 1 =? 0) with false in Hagg. cbv iota in Hagg.
    rewrite (to_char_bit board 1) in Hagg by tauto.
    destruct (read_codes_running board fuel env 16 1 1
                (<[0%nat := b]> (codes_of junk))
                (<[0%nat := 1]> (valid_of junk)) s)
      as (_ & Hret & _);
      [lia | reflexivity | reflexivity | simpl; lia
      | apply first_row_written; exact Hl |].
    destruct (Hret Hs) as ([[n c] v] & s' & E).
    change (0 + 1) with 1 in Hagg. rewrite E in Hagg. discriminate.
  - exfalso. rewrite aggregate_unfold, read_codes_first in Hagg.
    destruct (readNextCode board fuel env (junk_codes junk 0 <$> seq 0 13) st)
      as [[[r b] s] | |] eqn:Hread; try discriminate.
    + destruct (readNextCode_result board fuel env
                  (junk_codes junk 0 <$> seq 0 13) st r b s)
        as (Hl & _ & Hr); [simpl; lia | exact Hread |].
      assert (Hr01 : r = 0 \/ r = 1) by tauto.
      rewrite (to_int_small board (0 + r)) in Hagg by lia.
      destruct Hr01 as [-> | ->]; [discriminate |].
      change (0 + 1 =? 0) with false in Hagg. cbv iota in Hagg.
      rewrite (to_char_bit board 1) in Hagg by tauto.
      destruct (read_codes_running board fuel env 16 1 1
                  (<[0%nat := b]> (codes_of junk))
                  (<[0%nat := 1]> (valid_of junk)) s)
        as (Hnf & _ & _);
        [lia | reflexivity | reflexivity | simpl; lia
        | apply first_row_written; exact Hl |].
      change (0 + 1) with 1 in Hagg.
      destruct (read_codes board fuel env 16 1 1 _ _ s) as [[[[n c] v] s'] | |];
        first [discriminate | congruence].
    + apply (readNextCode_not_Fault board fuel env
               (junk_codes junk 0 <$> seq 0 13) st); [simpl; lia | exact Hread].
Qed.

(** X10: a cycle performs no array access out of bounds, on any board,
    pulses and line, and whatever the stack held: every index used on
    [codes], [valid], [majority] and [result] is in range and every
    string printed is terminated within its buffer. *)
Theorem loop_in_bounds board fuel env junk st :
  loop board fuel env junk st <> Fault.
Proof. apply loop_outcome. Qed.

Lemma settles_quiet board fuel env :
  (forall a, exists K,
     (300 <= K <= fuel)%nat /\ quiet env (a + K - 300) 300) ->
  settles board fuel env.
Proof.
  intros H st. destruct (H (scur st)) as (K & HK & Hq).
  destruct (spacer_returns board fuel env st K) as (k & _ & Hrun);
    [lia | exact Hq | lia |].
  eauto.
Qed.

(** X11: with a 32-bit [int] a cycle returns on every pulse stream and
    line; on either board it returns when, from every sample on, the
    line reads LOW for 300 samples in a row within the iteration
    budget. *)
Theorem loop_returns board fuel env junk st :
  (board = ARM32 /\ (5000 <= fuel)%nat) \/
  (forall a, exists K,
     (300 <= K <= fuel)%nat /\ quiet env (a + K - 300) 300) ->
  exists st', loop board fuel env junk st = Done (tt, st').
Proof.
  intros [[-> Hf] | Hq]; apply loop_outcome;
    [apply settles_arm32; exact Hf | apply settles_quiet; exact Hq].
Qed.

Lemma loop_returns_witness :
  (exists st',
     loop ARM32 5000 (burst 27 500 true) some_stack init = Done (tt, st') /\
     resyncs (log st') = 1%nat) /\
  (exists st',
     loop AVR8 300 (burst 27 500 false) some_stack init = Done (tt, st') /\
     resyncs (log st') = 1%nat).
Proof.
  split.
  - destruct (loop_returns ARM32 5000 (burst 27 500 true) some_stack init)
      as [st' H]; [left; split; [reflexivity | apply le_n] |].
    exists st'. split; [exact H |].
    vm_compute in H. injection H as <-. vm_compute. reflexivity.
  - destruct (loop_returns AVR8 300 (burst 27 500 false) some_stack init)
      as [st' H].
    { right. intros a. exists 300%nat. split; [lia |].
      intros q _. reflexivity. }
    exists st'. split; [exact H |].
    vm_compute in H. injection H as <-. vm_compute. reflexivity.
Defined.

(** X12: when the first pair of a cycle lacks a pulse, the cycle ends
    after that one or two pulse measurements: nothing is printed,
    nothing is waited for and the resynchroniser is not called. *)
Theorem idle_cycle board fuel env junk st :
  first_failure env 12 0 (pcur st) = Some (0%nat, NoPulse) ->
  loop board fuel env junk st =
    Done (tt, pulsed (if no_pulse (to_ulong (pulse_at env (pcur st)))
                      then 1 else 2) (called st)).
Proof.
  intros Hf.
  destruct (readNextCode_spec board fuel env (junk_codes junk 0 <$> seq 0 13) st)
    as (_ & Hb & _); [simpl; lia |].
  destruct (Hb Hf) as (n & Hread).
  assert (Hlen : length (junk_codes junk 0 <$> seq 0 13) = 13%nat)
    by reflexivity.
  destruct (readNextCode_failed board fuel env
              (junk_codes junk 0 <$> seq 0 13) st 0 NoPulse _ _ _
              Hlen Hf Hread) as (_ & Hpc & _).
  cbn [pcur pulsed called] in Hpc.
  replace (pcur st + 2 * 0)%nat with (pcur st) in Hpc by lia.
  assert (Hn : n = if no_pulse (to_ulong (pulse_at env (pcur st)))
                   then 1%nat else 2%nat)
    by (destruct (no_pulse (to_ulong (pulse_at env (pcur st)))); lia).
  rewrite Hn in Hread.
  pose proof (aggregate_first_fails board fuel env junk st _ _ Hread) as Hagg.
  rewrite (loop_unfold _ _ _ _ _ _ _ _ _ _ _ Hagg). reflexivity.
Qed.

Lemma idle_cycle_witness :
  loop AVR8 0 stuck_high some_stack init = Done (tt, pulsed 1 (called init)).
Proof. exact (idle_cycle AVR8 0 stuck_high some_stack init eq_refl). Defined.

(** ** A clean burst *)

Lemma cstring_code_of syms : cstring (code_of syms) = Done (text syms).
Proof.
  unfold code_of, text. induction syms as [| s syms IH]; [reflexivity |].
  cbn [fmap list_fmap app cstring string_of_list_ascii].
  change (cstring ((symbol_char <$> syms) ++ [NUL]))
    with (cstring (code_of syms)) in *.
  unfold code_of in *. rewrite IH. destruct s; reflexivity.
Qed.

Lemma votes_in_all valid codes p c k : forall i,
  (forall j, (i <= j < i + k)%nat -> is_vote valid codes p c j = true) ->
  votes_in k i valid codes p c = Z.of_nat k.
Proof.
  induction k as [| k IH]; intros i H; [reflexivity |].
  rewrite votes_in_S, H by lia. rewrite IH by (intros j Hj; apply H; lia). lia.
Qed.

Lemma valid_in_all valid k : forall i,
  (forall j, (i <= j < i + k)%nat -> is_valid valid j = true) ->
  valid_in k i valid = Z.of_nat k.
Proof.
  induction k as [| k IH]; intros i H; [reflexivity |].
  rewrite valid_in_S, H by lia. rewrite IH by (intros j Hj; apply H; lia). lia.
Qed.

Section CleanBurst.

Variables (board : Board) (fuel : nat) (env : Env).
Variable syms : list Symbol.
Hypothesis syms_12 : length syms = 12%nat.

(** The reading loop on repetitions of the same valid code. *)
Lemma read_codes_clean k : forall i num codes valid st,
  0 <= num <= Z.of_nat i ->
  (i + k = length codes)%nat -> length valid = length codes ->
  (length codes <= 17)%nat ->
  Forall (fun row : list ascii => length row = 13%nat) codes ->
  (forall a, (a < k)%nat -> encodes env (pcur st + 24 * a) syms) ->
  exists codes' valid' st',
    read_codes board fuel env k i num codes valid st =
      Done (num + Z.of_nat k, codes', valid', st') /\
    pcur st' = (pcur st + 24 * k)%nat /\
    resyncs (log st') = resyncs (log st) /\
    reads (log st') = (k + reads (log st))%nat /\
    (forall j, (i <= j < i + k)%nat ->
       valid' !! j = Some 1 /\ codes' !! j = Some (code_of syms)) /\
    (forall j, (j < i)%nat ->
       valid' !! j = valid !! j /\ codes' !! j = codes !! j).
Proof.
  induction k as [| k IH]; intros i num codes valid st Hnum Hik Hval Hmax Hrows Henc.
  - exists codes, valid, st. rewrite Z.add_0_r, Nat.mul_0_r, Nat.add_0_r.
    split; [reflexivity |]. split; [reflexivity |]. split; [reflexivity |].
    split; [reflexivity |].
    split; intros j Hj; [exfalso; lia | split; reflexivity].
  - destruct (lookup_lt_is_Some_2 codes i) as [row Hrow]; [lia |].
    assert (Hrow13 : length row = 13%nat).
    { rewrite Forall_lookup in Hrows. exact (Hrows i row Hrow). }
    rewrite (read_codes_S board fuel env k i num codes valid st row Hrow) by lia.
    rewrite (readNextCode_clean board fuel env row st syms Hrow13 syms_12).
    2: { specialize (Henc 0%nat ltac:(lia)).
         replace (pcur st + 24 * 0)%nat with (pcur st) in Henc by lia.
         exact Henc. }
    rewrite (to_int_small board (num + 1)) by lia.
    destruct (Z.eqb_spec (num + 1) 0) as [E | _]; [lia |].
    rewrite (to_char_bit board 1) by tauto.
    destruct (IH (S i) (num + 1) (<[i := code_of syms]> codes)
                (<[i := 1]> valid) (completed st))
      as (codes' & valid' & st' & Hrun & Hpc & Hrs & Hrd & Hnew & Hold).
    + lia.
    + rewrite length_insert. lia.
    + rewrite !length_insert. exact Hval.
    + rewrite length_insert. exact Hmax.
    + apply Forall_insert; [exact Hrows |].
      unfold code_of. rewrite length_app, length_fmap, syms_12. reflexivity.
    + intros a Ha. specialize (Henc (S a) ltac:(lia)).
      change (pcur (completed st)) with (24 + pcur st)%nat.
      replace (24 + pcur st + 24 * a)%nat with (pcur st + 24 * S a)%nat by lia.
      exact Henc.
    + exists codes', valid', st'. rewrite Hrun.
      replace (num + Z.of_nat (S k)) with (num + 1 + Z.of_nat k) by lia.
      assert (Hc1 : reads (log (completed st)) = S (reads (log st)))
        by reflexivity.
      assert (Hc2 : resyncs (log (completed st)) = resyncs (log st))
        by reflexivity.
      assert (Hc3 : pcur (completed st) = (24 + pcur st)%nat) by reflexivity.
      split; [reflexivity |].
      split; [rewrite Hpc, Hc3; lia |].
      split; [rewrite Hrs, Hc2; reflexivity |].
      split; [rewrite Hrd, Hc1; lia |]. split.
      * intros j Hj. destruct (decide (j = i)) as [-> | Hne].
        -- destruct (Hold i) as [Hv Hc]; [lia |]. rewrite Hv, Hc.
           rewrite !list_lookup_insert_eq by lia. split; reflexivity.
        -- apply Hnew. lia.
      * intros j Hj. destruct (Hold j) as [Hv Hc]; [lia |]. rewrite Hv, Hc.
        rewrite !list_lookup_insert_ne by lia. split; reflexivity.
Qed.

End CleanBurst.

Lemma symbol_char_is_symbol s : s <> INVALID -> is_symbol (symbol_char s).
Proof. unfold is_symbol. destruct s; simpl; tauto. Qed.

Lemma code_of_lookup syms p s :
  syms !! p = Some s -> code_of syms !! p = Some (symbol_char s).
Proof.
  intros H. unfold code_of.
  rewrite lookup_app_l by (rewrite length_fmap; eapply lookup_lt_Some; exact H).
  rewrite list_lookup_fmap, H. reflexivity.
Qed.

Lemma code_of_complete syms :
  length syms = 12%nat -> Forall (fun s => s <> INVALID) syms ->
  length (code_of syms) = 13%nat /\ complete (code_of syms).
Proof.
  intros Hlen Hv. split; [| split].
  - unfold code_of. rewrite length_app, length_fmap, Hlen. reflexivity.
  - intros i Hi. destruct (lookup_lt_is_Some_2 syms i) as [s Hs]; [lia |].
    exists (symbol_char s). split; [apply code_of_lookup, Hs |].
    apply symbol_char_is_symbol. rewrite Forall_lookup in Hv. exact (Hv i s Hs).
  - unfold code_of. rewrite lookup_app_r by (rewrite length_fmap; lia).
    rewrite length_fmap, Hlen. reflexivity.
Qed.

(** The cycle on seventeen repetitions of one valid code. *)
Lemma clean_burst_aux board fuel env junk st syms :
  length syms = 12%nat ->
  (forall a, (a < 17)%nat -> encodes env (pcur st + 24 * a) syms) ->
  exists dl st1,
    loop board fuel env junk st =
      Done (tt, logged ([Delay_ms 1250; Println_str "DEBUG: ####";
                         Println_str (text syms)] ++ dl ++
                        [Println_str "DEBUG: ####"]) st1) /\
    debug_lines dl = true /\
    pcur st1 = (pcur st + 408)%nat /\
    resyncs (log st1) = resyncs (log st) /\
    reads (log st1) = (17 + reads (log st))%nat.
Proof.
  intros Hlen Henc.
  assert (Hv : Forall (fun s => s <> INVALID) syms).
  { apply Forall_lookup. intros i s Hs.
    destruct (Henc 0%nat ltac:(lia) i s Hs) as [H _]. exact H. }
  destruct (code_of_complete syms Hlen Hv) as [Hc13 Hcomp].
  destruct (read_codes_clean board fuel env syms Hlen 17 0 0
              (codes_of junk) (valid_of junk) st)
    as (codes & valid & st1 & Hrun & Hpc & Hrs & Hrd & Hnew & _);
    [lia | reflexivity | reflexivity | simpl; lia | apply codes_of_rows
    | exact Henc |].
  assert (Hagg : aggregate board fuel env junk st =
                 Done (17, codes, valid, zeros, result_of junk, st1)).
  { rewrite aggregate_unfold. change (Z.to_nat resend_count) with 17%nat.
    rewrite Hrun. reflexivity. }
  assert (Hatt : attempts_ok valid codes).
  { intros i Hi. change (Z.to_nat resend_count) with 17%nat in Hi.
    destruct (Hnew i) as [Hvi Hci]; [lia |].
    exists 1, (code_of syms). split; [exact Hvi |]. split; [exact Hci |].
    split; [exact Hc13 | right; split; [reflexivity | exact Hcomp]]. }
  destruct (report_spec codes valid (result_of junk) st1 Hatt)
    as (res & s & dl & Hrep & Hdl & Hs & _ & Hl & Hnul & _); [reflexivity |].
  assert (Hres : res = code_of syms).
  { apply list_eq. intros p.
    destruct (decide (p < 12)%nat) as [Hp | Hp].
    - destruct (lookup_lt_is_Some_2 syms p) as [x Hx]; [lia |].
      rewrite (code_of_lookup syms p x Hx).
      destruct (majority_wins_aux codes valid (result_of junk) st1 p
                  (symbol_char x) Hatt)
        as (res2 & st2 & Hrep2 & Hp2).
      + reflexivity.
      + exact Hp.
      + apply symbol_char_is_symbol. rewrite Forall_lookup in Hv.
        exact (Hv p x Hx).
      + unfold votes, valid_count. change (Z.to_nat resend_count) with 17%nat.
        rewrite votes_in_all.
        * pose proof (valid_in_bounds 17 0 valid). lia.
        * intros j Hj. destruct (Hnew j) as [Hvj Hcj]; [lia |].
          unfold is_vote. rewrite Hvj, Hcj. simpl.
          apply bool_decide_eq_true_2. apply code_of_lookup, Hx.
      + rewrite Hrep in Hrep2. injection Hrep2 as <- _. exact Hp2.
    - destruct (decide (p = 12%nat)) as [-> | Hne].
      + rewrite Hnul. symmetry. apply Hcomp.
      + rewrite !lookup_ge_None_2 by lia. reflexivity. }
  subst res. rewrite cstring_code_of in Hs. injection Hs as <-.
  exists dl, st1.
  rewrite (loop_unfold _ _ _ _ _ _ _ _ _ _ _ Hagg).
  change (3 <? 17) with true. cbv iota. rewrite Hrep.
  split; [reflexivity |]. split; [exact Hdl |].
  split; [rewrite Hpc; lia |]. split; [exact Hrs | exact Hrd].
Qed.

(** X13: when the seventeen attempts of a cycle all meet the pairs of
    the same twelve valid symbols, the cycle makes its seventeen reads
    without a resynchronisation and the line it reports is exactly that
    code, followed by the wait of 1250 ms. *)
Theorem clean_burst board fuel env junk st syms :
  length syms = 12%nat ->
  (forall a, (a < 17)%nat -> encodes env (pcur st + 24 * a) syms) ->
  exists dl st1,
    loop board fuel env junk st =
      Done (tt, logged ([Delay_ms 1250; Println_str "DEBUG: ####";
                         Println_str (text syms)] ++ dl ++
                        [Println_str "DEBUG: ####"]) st1) /\
    debug_lines dl = true /\
    pcur st1 = (pcur st + 408)%nat /\
    resyncs (log st1) = resyncs (log st) /\
    reads (log st1) = (17 + reads (log st))%nat.
Proof. apply clean_burst_aux. Qed.

Lemma repeats_encodes syms a :
  length syms = 12%nat -> Forall (fun s => s <> INVALID) syms ->
  encodes (repeats syms) (0 + 24 * a) syms.
Proof.
  intros Hlen Hv i s Hs.
  assert (Hi : (i < 12)%nat) by (rewrite <- Hlen; eapply lookup_lt_Some; exact Hs).
  split; [rewrite Forall_lookup in Hv; exact (Hv i s Hs) |].
  unfold repeats. cbn [pulse_at]. rewrite Hlen.
  replace ((0 + 24 * a + 2 * i) / 2)%nat with (12 * a + i)%nat
    by (apply (Nat.div_unique _ 2 _ 0); lia).
  replace ((0 + 24 * a + 2 * i + 1) / 2)%nat with (12 * a + i)%nat
    by (apply (Nat.div_unique _ 2 _ 1); lia).
  replace ((12 * a + i) mod 12)%nat with i
    by (apply (Nat.mod_unique _ 12 a i); lia).
  rewrite Hs.
  replace (Nat.even (0 + 24 * a + 2 * i)) with true
    by (symmetry; apply Nat.even_spec; exists (12 * a + i)%nat; lia).
  replace (Nat.even (0 + 24 * a + 2 * i + 1)) with false.
  - destruct s; reflexivity.
  - symmetry. rewrite <- Nat.negb_odd. apply negb_false_iff.
    apply Nat.odd_spec. exists (12 * a + i)%nat. lia.
Qed.

Lemma clean_burst_witness :
  exists dl st1,
    loop AVR8 0 (repeats [ONE; F; ZERO; ZERO; F; ONE; ONE; ZERO; F; F; ONE; ZERO])
      some_stack init =
      Done (tt, logged ([Delay_ms 1250; Println_str "DEBUG: ####";
                         Println_str "1F00F110FF10"] ++ dl ++
                        [Println_str "DEBUG: ####"]) st1) /\
    debug_lines dl = true /\
    pcur st1 = 408%nat /\
    resyncs (log st1) = 0%nat /\
    reads (log st1) = 17%nat.
Proof.
  apply (clean_burst AVR8 0
           (repeats [ONE; F; ZERO; ZERO; F; ONE; ONE; ZERO; F; F; ONE; ZERO])
           some_stack init
           [ONE; F; ZERO; ZERO; F; ONE; ONE; ZERO; F; F; ONE; ZERO]);
    [reflexivity |].
  intros a _. apply repeats_encodes; [reflexivity |].
  repeat constructor; discriminate.
Defined.

(** ** What the buffers held does not matter *)

Section Uninitialised.

Variables (board : Board) (fuel : nat) (env : Env).

Lemma same_run_resync {A} (R : flow * A -> flow * A -> Prop) x1 x2 st1 :
  R (Return 0, x1) (Return 0, x2) ->
  same_run R ((findNextSpacer board fuel env ;;; ret (Return 0, x1)) st1)
             ((findNextSpacer board fuel env ;;; ret (Return 0, x2)) st1).
Proof.
  intros HR. unfold bind, ret.
  destruct (findNextSpacer board fuel env st1) as [[[] st2] | |]; simpl; auto.
Qed.

(** A failing pair without a pulse: the same outcome for every
    buffer. *)
Lemma read_tristate_no_pulse_uniform i st :
  pair_failure (to_ulong (pulse_at env (pcur st)))
               (to_ulong (pulse_at env (S (pcur st)))) = Some NoPulse ->
  exists st1,
    (forall buf, read_tristate board fuel env i buf st =
                 Done (Return 0, buf, st1)) \/
    (forall buf, read_tristate board fuel env i buf st =
                 (findNextSpacer board fuel env ;;; ret (Return 0, buf)) st1).
Proof.
  unfold pair_failure. intros Hp.
  destruct (no_pulse (to_ulong (pulse_at env (pcur st)))) eqn:Hf.
  - destruct (1 <=? Z.of_nat i) eqn:Hg.
    + eexists. right. intros buf. unfold read_tristate.
      rewrite bind_pulseIn, Hf, Hg. reflexivity.
    + eexists. left. intros buf. unfold read_tristate.
      rewrite bind_pulseIn, Hf, Hg. reflexivity.
  - destruct (no_pulse (to_ulong (pulse_at env (S (pcur st))))) eqn:Hs.
    + destruct (1 <=? Z.of_nat i) eqn:Hg.
      * eexists. right. intros buf. unfold read_tristate.
        rewrite bind_pulseIn, Hf, bind_pulseIn.
        change (pcur (pulsed 1 st)) with (S (pcur st)).
        rewrite Hs, Hg. reflexivity.
      * eexists. left. intros buf. unfold read_tristate.
        rewrite bind_pulseIn, Hf, bind_pulseIn.
        change (pcur (pulsed 1 st)) with (S (pcur st)).
        rewrite Hs, Hg. reflexivity.
    + destruct (decode (to_ulong (pulse_at env (pcur st)))
                       (to_ulong (pulse_at env (S (pcur st)))));
        discriminate.
Qed.

Lemma insert_agree {A} (l1 l2 : list A) i x q :
  length l1 = length l2 -> l1 !! q = l2 !! q ->
  <[i := x]> l1 !! q = <[i := x]> l2 !! q.
Proof.
  intros Hl Hq. destruct (decide (q = i)) as [-> | Hne].
  - destruct (decide (i < length l1)%nat) as [Hlt | Hge].
    + rewrite !list_lookup_insert_eq by lia. reflexivity.
    + rewrite !list_insert_ge by lia. exact Hq.
  - rewrite !list_lookup_insert_ne by congruence. exact Hq.
Qed.

(** The loop of [readNextCode] on two buffers of the same length: the
    same outcome and state; what agreed keeps agreeing, and the
    positions gone through agree. *)
Lemma code_loop_rel k : forall i buf1 buf2 st,
  length buf1 = length buf2 -> (i + k < length buf1)%nat ->
  same_run
    (fun x1 x2 =>
       fst x1 = fst x2 /\
       (length (snd x1) = length buf1 /\ length (snd x2) = length buf2) /\
       (forall q, buf1 !! q = buf2 !! q -> snd x1 !! q = snd x2 !! q) /\
       (fst x1 = Continue ->
        forall q, (i <= q < i + k)%nat -> snd x1 !! q = snd x2 !! q))
    (code_loop board fuel env k i buf1 st)
    (code_loop board fuel env k i buf2 st).
Proof.
  induction k as [| k IH]; intros i buf1 buf2 st Hlen Hik.
  - simpl. split; [| reflexivity].
    split; [reflexivity |]. split; [split; reflexivity |].
    split; [auto | intros _ q Hq; lia].
  - rewrite !code_loop_S.
    destruct (pair_failure (to_ulong (pulse_at env (pcur st)))
                (to_ulong (pulse_at env (S (pcur st))))) as [[] |] eqn:Hp.
    + (* a pulse is missing *)
      destruct (read_tristate_no_pulse_uniform i st Hp) as (st1 & [H | H]);
        rewrite !H.
      * simpl. split; [| reflexivity].
        split; [reflexivity |]. split; [split; reflexivity |].
        split; [auto | discriminate].
      * unfold bind, ret.
        destruct (findNextSpacer board fuel env st1) as [[[] st2] | |];
          simpl; auto.
        split; [| reflexivity].
        split; [reflexivity |]. split; [split; reflexivity |].
        split; [auto | discriminate].
    + (* the pair is malformed *)
      rewrite !(read_tristate_malformed board fuel env i _ st Hp) by lia.
      unfold bind, ret.
      destruct (findNextSpacer board fuel env (pulsed 2 st)) as [[[] st2] | |];
        simpl; auto.
      split; [| reflexivity].
      split; [reflexivity |]. split; [rewrite !length_insert; split; reflexivity |].
      split; [| discriminate].
      intros q Hq. apply insert_agree; [rewrite !length_insert; exact Hlen |].
      apply insert_agree; [exact Hlen | exact Hq].
    + (* the pair is a symbol *)
      rewrite !(read_tristate_symbol board fuel env i _ st Hp) by lia.
      set (c := symbol_char _).
      specialize (IH (S i) (<[i := c]> buf1) (<[i := c]> buf2) (pulsed 2 st)).
      rewrite !length_insert in IH. specialize (IH Hlen ltac:(lia)).
      destruct (code_loop board fuel env k (S i) (<[i := c]> buf1) (pulsed 2 st))
        as [[[f1 b1] s1] | |],
        (code_loop board fuel env k (S i) (<[i := c]> buf2) (pulsed 2 st))
        as [[[f2 b2] s2] | |]; simpl in IH |- *; auto.
      destruct IH as [(Hf & Hl & Hkeep & Hnew) Hs].
      rewrite ?length_insert in Hl.
      split; [| exact Hs]. split; [exact Hf |]. split; [exact Hl |].
      split.
      * intros q Hq. apply Hkeep. apply insert_agree; [exact Hlen | exact Hq].
      * intros Hc q Hq. destruct (decide (q = i)) as [-> | Hne].
        -- apply Hkeep. rewrite !list_lookup_insert_eq by lia. reflexivity.
        -- apply (Hnew Hc). lia.
Qed.

Lemma code_loop_returns_0 k i buf st r buf' st' :
  (i + k < length buf)%nat ->
  code_loop board fuel env k i buf st = Done (Return r, buf', st') -> r = 0.
Proof.
  intros Hlen Hrun.
  destruct (code_loop_spec board fuel env k i buf st Hlen) as (Ha & Hb & Hc).
  destruct (first_failure_cases env k i (pcur st))
    as [H | [H | (j & f & H & Hj)]].
  - destruct (Ha H) as (b & E & _). congruence.
  - destruct (Hb H) as (n & E). congruence.
  - destruct (Hc j f H Hj) as (b & st1 & _ & _ & E). rewrite E in Hrun.
    unfold bind, ret in Hrun.
    destruct (findNextSpacer board fuel env st1) as [[[] ?] | |];
      congruence.
Qed.

(** [readNextCode] on two buffers of 13 characters: the same value and
    state, and the same code when the value is 1. *)
Lemma readNextCode_rel buf1 buf2 st :
  length buf1 = 13%nat -> length buf2 = 13%nat ->
  same_run
    (fun x1 x2 =>
       fst x1 = fst x2 /\ length (snd x1) = 13%nat /\
       length (snd x2) = 13%nat /\ (fst x1 = 1 -> snd x1 = snd x2))
    (readNextCode board fuel env buf1 st)
    (readNextCode board fuel env buf2 st).
Proof.
  intros H1 H2. rewrite !readNextCode_unfold.
  pose proof (code_loop_rel 12 0 buf1 buf2 (called st)
                ltac:(congruence) ltac:(simpl; lia)) as Hrel.
  pose proof (code_loop_returns_0 12 0 buf1 (called st)) as Hr1.
  destruct (code_loop board fuel env 12 0 buf1 (called st))
    as [[[f1 b1] s1] | |],
    (code_loop board fuel env 12 0 buf2 (called st))
    as [[[f2 b2] s2] | |]; simpl in Hrel |- *; auto; try contradiction.
  destruct Hrel as [(Hf & [Hl1 Hl2] & Hkeep & Hnew) Hs]. subst f2 s2.
  rewrite H1 in Hl1. rewrite H2 in Hl2.
  destruct f1 as [r |].
  - simpl. split; [| reflexivity].
    split; [reflexivity |]. split; [exact Hl1 |]. split; [exact Hl2 |].
    intros ->. specialize (Hr1 1 b1 s1 ltac:(simpl; lia) eq_refl).
    discriminate.
  - unfold store. rewrite Hl1, Hl2. simpl. split; [| reflexivity].
    split; [reflexivity |].
    split; [rewrite length_insert; exact Hl1 |].
    split; [rewrite length_insert; exact Hl2 |].
    intros _. apply list_eq. intros q.
    destruct (decide (q = 12%nat)) as [-> | Hne].
    + rewrite !list_lookup_insert_eq by lia. reflexivity.
    + rewrite !list_lookup_insert_ne by congruence.
      destruct (decide (q < 12)%nat) as [Hlt | Hge].
      * apply (Hnew eq_refl). lia.
      * rewrite !lookup_ge_None_2 by lia. reflexivity.
Qed.

(** The reading loop on two sets of arrays of the same shape: the same
    count and state, the same flags, and the same code wherever the
    flag is set. *)
Lemma read_codes_rel k : forall i num codes1 valid1 codes2 valid2 st,
  length codes1 = length codes2 -> length valid1 = length valid2 ->
  (i + k <= length codes1)%nat -> (i + k <= length valid1)%nat ->
  Forall (fun row => length row = 13%nat) codes1 ->
  Forall (fun row => length row = 13%nat) codes2 ->
  same_run
    (fun x1 x2 =>
       fst (fst x1) = fst (fst x2) /\
       (fst (fst x1) <> 0 ->
        forall j, (i <= j < i + k)%nat ->
          snd x1 !! j = snd x2 !! j /\
          (forall v, snd x1 !! j = Some v -> v <> 0 ->
                     snd (fst x1) !! j = snd (fst x2) !! j)) /\
       (forall j, (j < i)%nat ->
          (snd x1 !! j = valid1 !! j /\ snd (fst x1) !! j = codes1 !! j) /\
          (snd x2 !! j = valid2 !! j /\ snd (fst x2) !! j = codes2 !! j)))
    (read_codes board fuel env k i num codes1 valid1 st)
    (read_codes board fuel env k i num codes2 valid2 st).
Proof.
  induction k as [| k IH]; intros i num codes1 valid1 codes2 valid2 st
    Hc Hv Rc Rv F1 F2.
  - simpl. split; [| reflexivity]. split; [reflexivity |].
    split; [intros _ j Hj; lia | auto].
  - destruct (lookup_lt_is_Some_2 codes1 i ltac:(lia)) as [row1 E1].
    destruct (lookup_lt_is_Some_2 codes2 i ltac:(lia)) as [row2 E2].
    rewrite (read_codes_S board fuel env k i num codes1 valid1 st row1 E1)
      by lia.
    rewrite (read_codes_S board fuel env k i num codes2 valid2 st row2 E2)
      by lia.
    pose proof (Forall_lookup_1 _ _ _ _ F1 E1) as L1.
    pose proof (Forall_lookup_1 _ _ _ _ F2 E2) as L2.
    simpl in L1, L2.
    pose proof (readNextCode_rel row1 row2 st L1 L2) as Hrel.
    pose proof (readNextCode_result board fuel env row1 st) as Hres.
    destruct (readNextCode board fuel env row1 st) as [[[r b1] s1] | |],
      (readNextCode board fuel env row2 st) as [[[r2 b2] s2] | |];
      simpl in Hrel; try contradiction; try exact I.
    destruct Hrel as [(<- & Hl1 & Hl2 & Heq) <-].
    specialize (Hres r b1 s1 ltac:(lia) eq_refl) as (_ & _ & Hr).
    destruct (to_int board (num + r) =? 0) eqn:Hz.
    + (* the loop is left *)
      apply Z.eqb_eq in Hz. simpl. split; [| reflexivity].
      split; [reflexivity |]. split; [intros Hn; contradiction |].
      intros j Hj. rewrite !list_lookup_insert_ne by lia. auto.
    + (* the loop goes on *)
      specialize (IH (S i) (to_int board (num + r))
                    (<[i := b1]> codes1) (<[i := to_char board r]> valid1)
                    (<[i := b2]> codes2) (<[i := to_char board r]> valid2) s1).
      rewrite !length_insert in IH.
      specialize (IH Hc Hv ltac:(lia) ltac:(lia)
                    ltac:(apply Forall_insert; [exact F1 | exact Hl1])
                    ltac:(apply Forall_insert; [exact F2 | exact Hl2])).
      destruct (read_codes board fuel env k (S i) (to_int board (num + r))
                  (<[i := b1]> codes1) (<[i := to_char board r]> valid1) s1)
        as [[[[n1 c1] v1] t1] | |],
        (read_codes board fuel env k (S i) (to_int board (num + r))
                  (<[i := b2]> codes2) (<[i := to_char board r]> valid2) s1)
        as [[[[n2 c2] v2] t2] | |];
        cbn [same_run fst snd] in IH |- *; try contradiction; try exact I.
      destruct IH as [(Hn & Hnew & Hold) Ht].
      split; [| exact Ht]. split; [exact Hn |]. split.
      * intros Hn0 j Hj. destruct (decide (j = i)) as [-> | Hne].
        -- destruct (Hold i ltac:(lia)) as ((Ea & Eb) & (Ec & Ed)).
           rewrite list_lookup_insert_eq in Ea by lia.
           rewrite list_lookup_insert_eq in Eb by lia.
           rewrite list_lookup_insert_eq in Ec by lia.
           rewrite list_lookup_insert_eq in Ed by lia.
           split; [congruence |].
           intros v Hv0 Hnz. rewrite Eb, Ed.
           rewrite Ea in Hv0. injection Hv0 as <-.
           destruct Hr as [-> | [-> _]].
           ++ exfalso. apply Hnz. destruct board; reflexivity.
           ++ rewrite (Heq eq_refl). reflexivity.
        -- apply (Hnew Hn0). lia.
      * intros j Hj. destruct (Hold j ltac:(lia)) as ((Ea & Eb) & (Ec & Ed)).
        rewrite list_lookup_insert_ne in Ea by lia.
        rewrite list_lookup_insert_ne in Eb by lia.
        rewrite list_lookup_insert_ne in Ec by lia.
        rewrite list_lookup_insert_ne in Ed by lia. auto.
Qed.

(** The listing reads the flags, and the codes only where the flag is
    set. *)
Lemma dump_codes_same k : forall i codes1 valid1 codes2 valid2 majority st,
  (forall j, (i <= j < i + k)%nat ->
     valid1 !! j = valid2 !! j /\
     (forall v, valid1 !! j = Some v -> v <> 0 -> codes1 !! j = codes2 !! j)) ->
  dump_codes k i codes1 valid1 majority st =
  dump_codes k i codes2 valid2 majority st.
Proof.
  induction k as [| k IH]; intros i codes1 valid1 codes2 valid2 majority st H.
  - reflexivity.
  - cbn [dump_codes].
    unfold bind, lift, load, Serial_print, Serial_println, emit.
    destruct (H i ltac:(lia)) as [Ev Ec]. rewrite <- Ev.
    destruct (valid1 !! i) as [v |]; [| reflexivity].
    assert (Hrec : forall m s,
              dump_codes k (S i) codes1 valid1 m s =
              dump_codes k (S i) codes2 valid2 m s).
    { intros m s. apply IH. intros j Hj. apply H. lia. }
    destruct (v =? 0) eqn:Hz.
    + apply Hrec.
    + apply Z.eqb_neq in Hz. rewrite <- (Ec v eq_refl Hz).
      destruct (codes1 !! i) as [row |]; [| reflexivity].
      destruct (cstring row); try reflexivity.
      destruct (tally_row 12 0 row majority); try reflexivity.
      apply Hrec.
Qed.

(** The vote on two result buffers of the same length. *)
Lemma pick_majority_rel k : forall i majority r1 r2,
  length r1 = length r2 ->
  match pick_majority k i majority r1, pick_majority k i majority r2 with
  | Done b1, Done b2 =>
      (length b1 = length r1 /\ length b2 = length r2) /\
      (forall q, r1 !! q = r2 !! q -> b1 !! q = b2 !! q) /\
      (forall q, (i <= q < i + k)%nat -> b1 !! q = b2 !! q)
  | Spin, Spin => True
  | Fault, Fault => True
  | _, _ => False
  end.
Proof.
  induction k as [| k IH]; intros i majority r1 r2 Hlen.
  - simpl. split; [split; reflexivity |]. split; [auto | intros q Hq; lia].
  - cbn [pick_majority]. unfold obind, load.
    destruct (majority !! i) as [row |]; [| exact I].
    destruct (row !! 0%nat) as [m0 |]; [| exact I].
    destruct (row !! 1%nat) as [m1 |]; [| exact I].
    destruct (row !! 2%nat) as [m2 |]; [| exact I].
    unfold store.
    destruct (decide (i < length r1)%nat) as [H1 | H1];
      destruct (decide (i < length r2)%nat) as [H2 | H2];
      try lia; try exact I.
    specialize (IH (S i) majority (<[i := vote m0 m1 m2]> r1)
                  (<[i := vote m0 m1 m2]> r2)).
    rewrite !length_insert in IH. specialize (IH Hlen).
    destruct (pick_majority k (S i) majority (<[i := vote m0 m1 m2]> r1))
      as [b1 | |],
      (pick_majority k (S i) majority (<[i := vote m0 m1 m2]> r2))
      as [b2 | |]; try contradiction; try exact I.
    destruct IH as (Hl & Hkeep & Hnew). rewrite ?length_insert in Hl.
    split; [exact Hl |]. split.
    + intros q Hq. apply Hkeep. apply insert_agree; [exact Hlen | exact Hq].
    + intros q Hq. destruct (decide (q = i)) as [-> | Hne].
      * apply Hkeep. rewrite !list_lookup_insert_eq by lia. reflexivity.
      * apply Hnew. lia.
Qed.

Lemma report_same codes1 valid1 codes2 valid2 majority r1 r2 st :
  (forall j, (j < Z.to_nat resend_count)%nat ->
     valid1 !! j = valid2 !! j /\
     (forall v, valid1 !! j = Some v -> v <> 0 -> codes1 !! j = codes2 !! j)) ->
  length r1 = 13%nat -> length r2 = 13%nat ->
  report codes1 valid1 majority r1 st = report codes2 valid2 majority r2 st.
Proof.
  intros H L1 L2.
  pose proof (dump_codes_same (Z.to_nat resend_count) 0 codes1 valid1
                codes2 valid2 majority) as Hd.
  unfold report, bind, lift, Serial_println, emit, delay.
  rewrite Hd by (intros j Hj; apply H; lia).
  destruct (dump_codes (Z.to_nat resend_count) 0 codes2 valid2 majority _)
    as [[m s1] | |]; try reflexivity.
  pose proof (pick_majority_rel 12 0 m r1 r2 ltac:(congruence)) as Hrel.
  destruct (pick_majority 12 0 m r1) as [b1 | |],
    (pick_majority 12 0 m r2) as [b2 | |];
    try contradiction; try reflexivity.
  destruct Hrel as ([Hl1 Hl2] & Hkeep & Hnew).
  assert (E : <[12%nat := NUL]> b1 = <[12%nat := NUL]> b2).
  { apply list_eq. intros q.
    destruct (decide (q = 12%nat)) as [-> | Hne].
    - rewrite !list_lookup_insert_eq by lia. reflexivity.
    - rewrite !list_lookup_insert_ne by congruence.
      destruct (decide (q < 12)%nat) as [Hlt | Hge].
      + apply Hnew. lia.
      + rewrite !lookup_ge_None_2 by lia. reflexivity. }
  unfold store. rewrite Hl1, Hl2, L1, L2. simpl decide. cbv iota beta.
  rewrite E. reflexivity.
Qed.

Lemma loop_same junk1 junk2 st :
  loop board fuel env junk1 st = loop board fuel env junk2 st.
Proof.
  pose proof (read_codes_rel (Z.to_nat resend_count) 0 0
                (codes_of junk1) (valid_of junk1)
                (codes_of junk2) (valid_of junk2) st) as Hrel.
  assert (F : forall junk,
            Forall (fun row => length row = 13%nat) (codes_of junk)).
  { intros junk. unfold codes_of. apply Forall_fmap, Forall_forall.
    intros x _. reflexivity. }
  specialize (Hrel eq_refl eq_refl ltac:(reflexivity) ltac:(reflexivity)
                (F junk1) (F junk2)).
  pose proof (aggregate_unfold board fuel env junk1 st) as A1.
  pose proof (aggregate_unfold board fuel env junk2 st) as A2.
  destruct (read_codes board fuel env (Z.to_nat resend_count) 0 0
              (codes_of junk1) (valid_of junk1) st)
    as [[[[n1 c1] v1] t1] | |],
    (read_codes board fuel env (Z.to_nat resend_count) 0 0
              (codes_of junk2) (valid_of junk2) st)
    as [[[[n2 c2] v2] t2] | |];
    simpl in Hrel; try contradiction.
  - destruct Hrel as [(<- & Hnew & _) <-].
    rewrite (loop_unfold _ _ _ _ _ _ _ _ _ _ _ A1).
    rewrite (loop_unfold _ _ _ _ _ _ _ _ _ _ _ A2).
    destruct (3 <? n1) eqn:Hn; [| reflexivity].
    apply Z.ltb_lt in Hn.
    rewrite (report_same c1 v1 c2 v2 zeros (result_of junk1) (result_of junk2)).
    + reflexivity.
    + intros j Hj. apply (Hnew ltac:(lia)). lia.
    + reflexivity.
    + reflexivity.
  - unfold loop, bind. rewrite A1, A2. reflexivity.
  - unfold loop, bind. rewrite A1, A2. reflexivity.
Qed.

(** X14: [readNextCode] does not depend on what the buffer held: on two
    buffers of 13 characters, from the same state, both runs end alike,
    with the same value in the same state, and with the same code in the
    buffer when the value is 1. *)
Theorem readNextCode_ignores_buffer buf1 buf2 st :
  length buf1 = 13%nat -> length buf2 = 13%nat ->
  same_run (fun x1 x2 => fst x1 = fst x2 /\ (fst x1 = 1 -> snd x1 = snd x2))
    (readNextCode board fuel env buf1 st)
    (readNextCode board fuel env buf2 st).
Proof.
  intros H1 H2. pose proof (readNextCode_rel buf1 buf2 st H1 H2) as H.
  destruct (readNextCode board fuel env buf1 st) as [[[r1 b1] s1] | |],
    (readNextCode board fuel env buf2 st) as [[[r2 b2] s2] | |];
    simpl in H |- *; try contradiction; try exact I.
  destruct H as [(Hr & _ & _ & Hb) Hs]. auto.
Qed.

(** X15: [loop] does not depend on what the stack held where its arrays
    are allocated: codes, flags, counters and result are written before
    they are read, so two runs from the same state give the same outcome
    and the same output, whatever the arrays held. *)
Theorem loop_ignores_stack junk1 junk2 st :
  loop board fuel env junk1 st = loop board fuel env junk2 st.
Proof. apply loop_same. Qed.

End Uninitialised.

Lemma readNextCode_ignores_buffer_witness :
  same_run (fun x1 x2 => fst x1 = fst x2 /\ (fst x1 = 1 -> snd x1 = snd x2))
    (readNextCode AVR8 300 (long_short_at 3) (replicate 13 "a"%char) init)
    (readNextCode AVR8 300 (long_short_at 3) (replicate 13 "b"%char) init).
Proof.
  apply (readNextCode_ignores_buffer AVR8 300 (long_short_at 3)
           (replicate 13 "a"%char) (replicate 13 "b"%char) init);
    reflexivity.
Defined.

(** X16: with a 32-bit [int], [findNextSpacer] returns on every line,
    after at most 5000 iterations and at most 50000 microseconds of
    waiting. *)
Theorem findNextSpacer_bounded fuel env st :
  (5000 <= fuel)%nat ->
  exists k, (k <= 5000)%nat /\
    findNextSpacer ARM32 fuel env st = Done (tt, polled k (entered st)) /\
    waited_us (log (polled k (entered st))) - waited_us (log st) <= 50000.
Proof. apply findNextSpacer_arm32. Qed.

Lemma findNextSpacer_bounded_witness :
  exists k, (k <= 5000)%nat /\
    findNextSpacer ARM32 5000 stuck_high init =
      Done (tt, polled k (entered init)) /\
    waited_us (log (polled k (entered init))) - waited_us (log init) <= 50000.
Proof.
  apply (findNextSpacer_bounded 5000 stuck_high init). apply le_n.
Defined.
